(** * random_teachers: parameter-plane projector and grid evaluation drivers

    A shallow embedding of [src/losslandscape.py] and [src/paramplane.py]:
    the [ParamProjector] class of both drivers with its [error] method,
    the model loaders, the grid builder, the progress-polling loop, the
    result reducer with the names of the saved files, and the coordinate
    evaluators with their loss accumulation; and of
    [src/dinopl/probing.py]: the linear probe and the schedule of its
    callback.

    Conventions.
    - A Python call either returns or raises: [outcome] has [Return] and
      [Raise]. Its third constructor [Unmodelled] marks torch calls whose
      operand shapes leave the fragment embedded here (1-D vectors and
      D x 2 matrices of matching sizes); there torch raises or broadcasts,
      and nothing is stated about it.
    - Tensor entries are real numbers: the embedding is the exact
      arithmetic that the floating-point code approximates.
    - Identifiers, dictionary keys and messages are strings; a line read
      from a file is the list of its Unicode code points, as the classes
      of the regular expression and [int] go by the Unicode tables.
    - [torch.linalg.lstsq] and [torch.linalg.svd] are external numerical
      routines; they enter as section variables, and the facts that need
      their contracts take them as explicit hypotheses. So do the models,
      the losses, the checkpoint loader and the data loaders. *)

From Stdlib Require Import Reals Lra Lia ZArith Ascii String Sorted.
From stdpp Require Import gmap strings list fin_maps pretty.

Set Default Proof Using "Type".

(** * Part I: the embedding *)

(** ** Python outcomes *)

Module Py.

Inductive exn : Type :=
| ValueError (msg : string)
| IndexError
| KeyError
| RuntimeError
| ZeroDivisionError
| AttributeError.

Inductive outcome (A : Type) : Type :=
| Return (a : A)
| Raise (e : exn)
| Unmodelled.

Arguments Return {A} a.
Arguments Raise {A} e.
Arguments Unmodelled {A}.

Definition bind {A B : Type} (m : outcome A) (k : A -> outcome B) : outcome B :=
  match m with
  | Return a => k a
  | Raise e => Raise e
  | Unmodelled => Unmodelled
  end.

(** The call returns a value. *)
Definition returns {A : Type} (m : outcome A) : Prop := exists a, m = Return a.

(** A [for] loop whose body may raise, threading the loop state. *)
Fixpoint for_each {A S : Type} (body : S -> A -> outcome S) (s : S) (l : list A) : outcome S :=
  match l with
  | [] => Return s
  | a :: l' => bind (body s a) (fun s' => for_each body s' l')
  end.

(** A list comprehension / append loop whose body may raise. *)
Fixpoint collect {A B : Type} (body : A -> outcome B) (l : list A) : outcome (list B) :=
  match l with
  | [] => Return []
  | a :: l' => bind (body a) (fun b => bind (collect body l') (fun bs => Return (b :: bs)))
  end.

(** [f'{x}'] of a value that is [None] or a [str]. *)
Definition fstr (x : option string) : string := default "None" x.

(** [s.split(sep)] for a separator of one character: the pieces between
    the separators, one more than there are separators. *)
Fixpoint split (sep : ascii) (s : string) : list string :=
  match s with
  | EmptyString => [EmptyString]
  | String c s' =>
      if decide (c = sep) then EmptyString :: split sep s'
      else match split sep s' with
           | piece :: pieces => String c piece :: pieces
           | [] => [String c EmptyString]
           end
  end.

(** [s.startswith(p)] and [s.endswith(p)]. *)
Fixpoint startswith (p s : string) : bool :=
  match p, s with
  | EmptyString, _ => true
  | String a p', String b s' => if decide (a = b) then startswith p' s' else false
  | String _ _, EmptyString => false
  end.

Fixpoint endswith (p s : string) : bool :=
  if decide (s = p) then true
  else match s with
       | EmptyString => false
       | String _ s' => endswith p s'
       end.

(** [a, b = pieces]: unpacking into two targets raises [ValueError] on
    any other number of values (the wording is CPython's). *)
Definition unpack_message (n : nat) : string :=
  if decide (n < 2)
  then "not enough values to unpack (expected 2, got " +:+ pretty n +:+ ")"
  else "too many values to unpack (expected 2)".

Definition unpack2 {A : Type} (pieces : list A) : outcome (A * A) :=
  match pieces with
  | [a; b] => Return (a, b)
  | _ => Raise (ValueError (unpack_message (length pieces)))
  end.

(** A [str] read from a text file, as the list of its Unicode code
    points; [codes] gives the one of an ASCII literal. *)
Definition codes (s : string) : list N := List.map N_of_ascii (list_ascii_of_string s).

(** [s.replace(old, new)] for strings of one character. *)
Fixpoint replace_char (old new : ascii) (s : string) : string :=
  match s with
  | EmptyString => EmptyString
  | String c s' => String (if decide (c = old) then new else c) (replace_char old new s')
  end.

(** [os.path.join(a, b)] of [posixpath]: an absolute [b] replaces [a],
    otherwise [b] is appended, behind a separator unless [a] is empty or
    ends with one. *)
Definition path_join (a b : string) : string :=
  if startswith "/" b then b
  else if decide (a = EmptyString) then b
  else if endswith "/" a then a +:+ b
  else a +:+ "/" +:+ b.

End Py.

Import Py.

#[global] Instance outcome_ret : MRet outcome := @Return.
#[global] Instance outcome_bind : MBind outcome := fun A B k m => bind m k.

(** ** The torch fragment *)

Module Torch.

Section Split.
Context {T : Type}.

(** The loop of [tensor_split(input, sections)]: the first
    [num_splits_one_extra] sections get [min_split_size + 1] rows, the
    others [min_split_size]. *)
Fixpoint tensor_split_loop (input : list T)
    (min_split_size num_splits_one_extra split_idx todo : nat) : list (list T) :=
  match todo with
  | O => []
  | S todo' =>
      let split_size :=
        if split_idx <? num_splits_one_extra then S min_split_size else min_split_size in
      take split_size input ::
      tensor_split_loop (drop split_size input)
        min_split_size num_splits_one_extra (S split_idx) todo'
  end.

(** [torch.tensor_split(input, sections)] with an integer [sections];
    torch refuses [sections <= 0]. *)
Definition tensor_split (input : list T) (sections : Z) : outcome (list (list T)) :=
  if (sections <=? 0)%Z then Raise RuntimeError
  else
    let n := Z.to_nat sections in
    Return (tensor_split_loop input (length input / n) (length input mod n) 0 n).

End Split.

(** A tensor: its shape and its entries in row-major order. *)
Record tensor : Type := Tensor { shape : list nat; data : list R }.

(** [t.dim()] and [t.numel()]. *)
Definition tdim (t : tensor) : nat := length (shape t).
Definition numel (t : tensor) : nat := foldr Nat.mul 1%nat (shape t).

(** 1-D tensors are lists of reals, D x 2 matrices lists of rows. *)
Abbreviation vec := (list R).
Abbreviation mat2 := (list (R * R)).

(** The 1-D tensor with the given entries, and the entries of a tensor
    that is 1-D; tensors of any other shape leave the fragment. *)
Definition vector (v : vec) : tensor := Tensor [length v] v.

Definition as_vector (t : tensor) : outcome vec :=
  match shape t with
  | [n] => if decide (n = length (data t)) then Return (data t) else Unmodelled
  | _ => Unmodelled
  end.

(** Sums, inner products and the two columns of a D x 2 matrix. *)
Definition Rsum (l : list R) : R := foldr Rplus 0%R l.
Definition dot (a b : vec) : R := Rsum (zip_with Rmult a b).
Definition col1 (B : mat2) : vec := map fst B.
Definition col2 (B : mat2) : vec := map snd B.

(** Elementwise [a + b], [a - b] on equal sizes (other sizes broadcast or raise). *)
Definition vadd (a b : vec) : outcome vec :=
  if decide (length a = length b) then Return (zip_with Rplus a b) else Unmodelled.
Definition vsub (a b : vec) : outcome vec :=
  if decide (length a = length b) then Return (zip_with Rminus a b) else Unmodelled.
Definition vneg (a : vec) : vec := map Ropp a.

(** [torch.stack([a, b], dim=1)]: refuses operands of different sizes. *)
Definition stack2 (a b : vec) : outcome mat2 :=
  if decide (length a = length b) then Return (zip a b) else Raise RuntimeError.

(** [B - a.unsqueeze(1)]: the vector subtracted from both columns. *)
Definition sub_column (B : mat2) (a : vec) : outcome mat2 :=
  if decide (length B = length a)
  then Return (zip_with (fun b x => (b.1 - x, b.2 - x)%R) B a)
  else Unmodelled.

(** [B @ c] for a D x 2 matrix: [c] must have two entries. *)
Definition matvec (B : mat2) (c : vec) : outcome vec :=
  match c with
  | [x; y] => Return (map (fun b => (b.1 * x + b.2 * y)%R) B)
  | _ => Raise RuntimeError
  end.

(** [B.T @ v]: [v] must have as many entries as [B] has rows. *)
Definition tmatvec (B : mat2) (v : vec) : outcome vec :=
  if decide (length B = length v) then Return [dot (col1 B) v; dot (col2 B) v]
  else Raise RuntimeError.

(** [v.square().mean().sqrt()]: the root mean square of the entries. *)
Definition rms (v : vec) : R :=
  sqrt (Rsum (List.map (fun x => x * x)%R v) / INR (length v)).

(** The Gram matrix entries of [B] and its determinant. *)
Definition gram11 (B : mat2) : R := dot (col1 B) (col1 B).
Definition gram12 (B : mat2) : R := dot (col1 B) (col2 B).
Definition gram22 (B : mat2) : R := dot (col2 B) (col2 B).
Definition gram_det (B : mat2) : R := (gram11 B * gram22 B - gram12 B * gram12 B)%R.

(** The solution of the normal equations [B.T B x = B.T v] by Cramer's
    rule: the least-squares solution when [B] has full column rank. *)
Definition lstsq_normal (B : mat2) (v : vec) : vec :=
  let p := dot (col1 B) v in
  let q := dot (col2 B) v in
  [ ((gram22 B * p - gram12 B * q) / gram_det B)%R ;
    ((gram11 B * q - gram12 B * p) / gram_det B)%R ].

(** The columns of [B] are linearly dependent. *)
Definition dependent (B : mat2) : Prop :=
  exists a b : R, (a <> 0 \/ b <> 0)%R /\ Forall (fun r => a * r.1 + b * r.2 = 0)%R B.

(** Three points are collinear when the differences [v1 - v0] and
    [v2 - v0] are linearly dependent. *)
Definition differences (v0 v1 v2 : vec) : mat2 :=
  zip (zip_with Rminus v1 v0) (zip_with Rminus v2 v0).
Definition collinear (v0 v1 v2 : vec) : Prop := dependent (differences v0 v1 v2).

(** Contract of [torch.linalg.lstsq(B, v).solution] on a full-rank [B]. *)
Definition lstsq_spec (lstsq : mat2 -> vec -> vec) : Prop :=
  forall B v, length B = length v -> gram_det B <> 0%R -> lstsq B v = lstsq_normal B v.

(** Contract of [torch.linalg.svd(B, full_matrices=False).U] at a matrix
    with at least two rows: as many rows as [B], orthonormal columns. *)
Definition orthonormal (U : mat2) : Prop :=
  gram11 U = 1%R /\ gram12 U = 0%R /\ gram22 U = 1%R.
Definition svd_spec_at (svd_U : mat2 -> mat2) (B : mat2) : Prop :=
  length (svd_U B) = length B /\ orthonormal (svd_U B).

(** The [p] of [Tensor.norm(p=...)] as the Python value handed over: an
    integer, [float('inf')] or a string. *)
Inductive norm_order : Type :=
| OrdInt (z : Z)
| OrdInf
| OrdStr (s : string).

#[global] Instance norm_order_eq_dec : EqDecision norm_order.
Proof. solve_decision. Defined.

Definition sum_squares (v : vec) : R := Rsum (List.map (fun x => x * x)%R v).

(** [v.norm(p=p)] of a 1-D tensor for the orders 2 and ['fro'] (the
    Euclidean length), 1 (the sum of the magnitudes) and infinity (the
    largest magnitude, of a tensor that has entries); the other orders
    leave the fragment. *)
Definition norm (p : norm_order) (v : vec) : outcome R :=
  if decide (p = OrdInt 2 \/ p = OrdStr "fro") then Return (sqrt (sum_squares v))
  else if decide (p = OrdInt 1) then Return (Rsum (List.map Rabs v))
  else if decide (p = OrdInf /\ v <> []) then Return (foldr Rmax 0%R (List.map Rabs v))
  else Unmodelled.

(** A further fact about the [U] of a matrix of full column rank: each of
    its columns is a combination of the columns of [B]. *)
Definition svd_range_at (svd_U : mat2 -> mat2) (B : mat2) : Prop :=
  exists m11 m12 m21 m22 : R,
    svd_U B = List.map (fun b => (b.1 * m11 + b.2 * m21, b.1 * m12 + b.2 * m22)%R) B.

End Torch.

(** ** Tensor shapes under stack, reshape and squeeze *)

Module Shape.

Definition prod (s : list nat) : nat := foldr Nat.mul 1%nat s.

(** [torch.stack(vals, dim=0)]: a non-empty list of tensors of one shape. *)
Definition stack (shapes : list (list nat)) : outcome (list nat) :=
  match shapes with
  | [] => Raise RuntimeError
  | s :: rest =>
      if decide (Forall (fun s' => s' = s) rest) then Return (length shapes :: s)
      else Raise RuntimeError
  end.

(** [t.reshape((lx, ly, -1))]: the last size is inferred; torch refuses
    it when [lx * ly] is zero or does not divide the number of entries. *)
Definition reshape_grid (lx ly : nat) (s : list nat) : outcome (list nat) :=
  if decide (lx * ly = 0) then Raise RuntimeError
  else if decide (prod s mod (lx * ly) = 0) then Return [lx; ly; prod s / (lx * ly)]
  else Raise RuntimeError.

(** [t.squeeze()] without a [dim]: every axis of size 1 goes. *)
Definition squeeze (s : list nat) : list nat := filter (fun n => n <> 1) s.

End Shape.

(** ** Grid builder: the part common to both drivers' [main] *)

Module Grid.

Section Mesh.
Context {A : Type}.

(** [torch.stack(torch.meshgrid(X, Y, indexing='ij'), dim=-1)]:
    [grid[i][j] = (X[i], Y[j])]. *)
Definition meshgrid_ij (X Y : list A) : list (list (A * A)) :=
  map (fun x => map (fun y => (x, y)) Y) X.

(** [grid.reshape((-1, 2))]: the rows of the grid one after the other. *)
Definition flatten (grid : list (list (A * A))) : list (A * A) := concat grid.

Definition coords_of (X Y : list A) : list (A * A) := flatten (meshgrid_ij X Y).

(** [c.nelement()] of a chunk of shape (m, 2). *)
Definition nelement (c : list (A * A)) : nat := 2 * length c.

End Mesh.

(** Entry [i, j] of a flat sequence reshaped to [(lx, ly, ...)]: row-major. *)
Definition grid_at {V : Type} (ly : nat) (flat : list V) (i j : nat) : option V :=
  flat !! (i * ly + j).

End Grid.

(** ** losslandscape.py *)

Module Losslandscape.

Import Torch.

(** *** class ParamProjector *)

Record ParamProjector : Type := {
  center : option string;
  scale : option string;
  dim : nat;
  affine : vec;
  basis : mat2
}.

Definition center_options : list (option string) :=
  [None; Some ""; Some "mean"; Some "minnorm"].
Definition scale_options : list (option string) :=
  [None; Some ""; Some "l2_ortho"; Some "rms_ortho"].
Definition ortho_options : list (option string) :=
  [Some "l2_ortho"; Some "rms_ortho"].

(** The message of line 32 prints [vec0.dim()] three times. *)
Definition dims_message (vec0 : tensor) : string :=
  "Vectors need to be 1D, but are of dims " +:+ pretty (tdim vec0) +:+ ", "
    +:+ pretty (tdim vec0) +:+ ", " +:+ pretty (tdim vec0) +:+ ".".
Definition option_message (value : option string) (argument : string) : string :=
  "Unkown option '" +:+ fstr value +:+ "' for argument '" +:+ argument +:+ "'.".
Definition infer_message : string := "Cannot infer whether to project or map input.".

Section Projector.
Variable lstsq : mat2 -> vec -> vec.
Variable svd_U : mat2 -> mat2.

(** [torch.linalg.lstsq(B, v).solution] and
    [torch.linalg.svd(B, full_matrices=False).U] inside the fragment. *)
Definition lstsq_solution (B : mat2) (v : vec) : outcome vec :=
  if decide (length B = length v) then Return (lstsq B v) else Unmodelled.
Definition svd_left (B : mat2) : outcome mat2 :=
  if decide (2 <= length B) then Return (svd_U B) else Unmodelled.

(** Lines 41-46: the affine point and the basis before recentring. *)
Definition centered (center : option string) (v0 v1 v2 : vec) : outcome (vec * mat2) :=
  affine ← (if decide (center = Some "mean")
            then s ← vadd v0 v1; s ← vadd s v2; Return (List.map (fun x => x / 3)%R s)
            else Return v0);
  basis ← stack2 v1 v2;
  basis ← sub_column basis affine;
  Return (affine, basis).

(** Lines 48-51: recentring on the point of the plane closest to the origin. *)
Definition recentered (center : option string) (ab : vec * mat2) : outcome (vec * mat2) :=
  if decide (center = Some "minnorm") then
    t ← lstsq_solution ab.2 (vneg ab.1);
    offset ← matvec ab.2 t;
    affine ← vadd ab.1 offset;
    basis ← sub_column ab.2 offset;
    Return (affine, basis)
  else Return ab.

(** The affine point and the basis as they stand before line 53. *)
Definition plane (center : option string) (v0 v1 v2 : vec) : outcome (vec * mat2) :=
  ab ← centered center v0 v1 v2;
  recentered center ab.

(** [ParamProjector.__init__] *)
Definition __init__ (vec0 vec1 vec2 : tensor) (center scale : option string)
  : outcome ParamProjector :=
  if decide (1 < tdim vec0 \/ 1 < tdim vec1 \/ 1 < tdim vec2)
  then Raise (ValueError (dims_message vec0))
  else if decide (center ∉ center_options)
  then Raise (ValueError (option_message center "center"))
  else if decide (scale ∉ scale_options)
  then Raise (ValueError (option_message scale "scale"))
  else
    v0 ← as_vector vec0;
    v1 ← as_vector vec1;
    v2 ← as_vector vec2;
    ab ← plane center v0 v1 v2;
    basis ← (if decide (scale ∈ ortho_options) then svd_left ab.2 else Return ab.2);
    Return {| center := center; scale := scale; dim := numel vec0;
              affine := ab.1; basis := basis |}.

(** [ParamProjector.project] *)
Definition project (P : ParamProjector) (v : vec) (is_position : bool) : outcome vec :=
  v ← (if is_position then vsub v (affine P) else Return v);
  coord ← (if decide (scale P ∈ ortho_options)
           then tmatvec (basis P) v
           else lstsq_solution (basis P) v);
  Return (if decide (scale P = Some "rms_ortho")
          then List.map (fun x => x / sqrt (INR (dim P)) * sqrt 2)%R coord
          else coord).

(** [ParamProjector.map] *)
Definition map (P : ParamProjector) (coord : vec) (is_position : bool) : outcome vec :=
  let coord := if decide (scale P = Some "rms_ortho")
               then List.map (fun x => x / sqrt 2 * sqrt (INR (dim P)))%R coord
               else coord in
  v ← matvec (basis P) coord;
  if is_position then vadd v (affine P) else Return v.

(** [ParamProjector.__call__(inp, is_position=True)] *)
Definition __call__ (P : ParamProjector) (inp : tensor) (is_position : bool) : outcome vec :=
  match shape inp with
  | [] => Raise IndexError
  | n :: _ =>
      if decide (n = dim P) then v ← as_vector inp; project P v is_position
      else if decide (n = 2) then v ← as_vector inp; map P v is_position
      else Raise (ValueError infer_message)
  end.

(** [P(inp)]: the call with the default argument. *)
Definition call_default (P : ParamProjector) (inp : tensor) : outcome vec :=
  __call__ P inp true.

(** The methods as calls on the object: the state after the call and
    what the call gives. None of the three assigns to [self]. *)
Inductive method_call : Type :=
| Project (v : vec) (is_position : bool)
| Map (coord : vec) (is_position : bool)
| Call (inp : tensor) (is_position : bool).

Definition exec (P : ParamProjector) (m : method_call) : ParamProjector * outcome vec :=
  match m with
  | Project v b => (P, project P v b)
  | Map c b => (P, map P c b)
  | Call inp b => (P, __call__ P inp b)
  end.

Definition run (P : ParamProjector) (calls : list method_call) : ParamProjector :=
  foldl (fun P m => (exec P m).1) P calls.

End Projector.

(** *** update_losses, eval_student and the loop of eval_coords *)

(** What a model returns for a batch: [out['logits']], [out['embeddings']]. *)
Record model_out (Tn : Type) : Type := { logits : Tn; embeddings : Tn }.
Arguments logits {Tn} _.
Arguments embeddings {Tn} _.

(** A loss accumulator starts as the Python integer 0 and becomes a
    tensor with the first [+=]. *)
Inductive number (Tn : Type) : Type :=
| PyInt (z : Z)
| PyTensor (t : Tn).
Arguments PyInt {Tn} z.
Arguments PyTensor {Tn} t.

Section Evaluator.
Context {Tn Input Label Num Dev : Type}.

(** [dinopl.utils], [torch.nn.functional] and tensor arithmetic: not
    among the sources, taken as given functions. *)
Variables mean_squared_error cross_entropy entropy : Tn -> Tn -> Tn.
Variables log_softmax softmax texp tsum squeeze cpu : Tn -> Tn.
Variable tadd : Tn -> Tn -> Tn.
Variable radd : Z -> Tn -> Tn.
Variable tdiv : Tn -> Z -> Tn.
Variable label_count : Label -> Z.
Variable tensor_of : Num -> Tn.

(** [Prober.eval_probe] and [normalize_data] of [dinopl.probing]. *)
Variable eval_probe : list (Tn * Label) -> list (Tn * Label) -> list (string * Num).
Variable normalize_data :
  list (Tn * Label) -> list (Tn * Label) -> list (Tn * Label) * list (Tn * Label).

Local Abbreviation losses_dict := (list (string * number Tn)).

(** [x += t] *)
Definition iadd (x : number Tn) (t : Tn) : number Tn :=
  match x with
  | PyInt z => PyTensor (radd z t)
  | PyTensor a => PyTensor (tadd a t)
  end.

(** [losses[key] += t] *)
Definition dict_iadd (key : string) (t : Tn) (losses : losses_dict) : outcome losses_dict :=
  if decide (key ∈ losses.*1)
  then Return (List.map (fun kv => if decide (kv.1 = key) then (kv.1, iadd kv.2 t) else kv) losses)
  else Raise KeyError.

(** [update_losses(student_out, teacher_out, losses)] *)
Definition update_losses (student_out teacher_out : model_out Tn) (losses : losses_dict)
  : outcome losses_dict :=
  let preds := logits student_out in
  let targs := logits teacher_out in
  losses ← dict_iadd "MSE" (tsum (mean_squared_error preds targs)) losses;
  let log_preds := log_softmax (logits student_out) in
  let targs := softmax (logits teacher_out) in
  losses ← dict_iadd "CE" (tsum (cross_entropy log_preds targs)) losses;
  losses ← dict_iadd "KL" (tsum (cross_entropy log_preds targs)) losses;
  dict_iadd "H" (tsum (entropy (texp log_preds) log_preds)) losses.

(** [{'MSE':0, 'CE':0, 'KL':0, 'H':0}] *)
Definition zero_losses : losses_dict :=
  [("MSE", PyInt 0); ("CE", PyInt 0); ("KL", PyInt 0); ("H", PyInt 0)].

(** A losses dictionary with its four keys, whose CE and KL sums agree. *)
Definition balanced (losses : losses_dict) : Prop :=
  exists m c h, losses = [("MSE", m); ("CE", c); ("KL", c); ("H", h)].

(** [batch = batch[0].to(device), batch[1].to(device) if device else batch]:
    the conditional expression is the second element of the tuple only,
    so with a falsy [device], such as the default [None], [batch[1]] is
    the whole batch. [device] is [None] or a [torch.device], which is
    truthy; [.to] leaves the entries of a tensor as they are. *)
Definition rebind (device : option Dev) (batch : Input * Label)
  : Input * (Label + Input * Label) :=
  (batch.1, match device with Some _ => inl batch.2 | None => inr batch end).

(** [batch[1]] where its [shape] is read: a label tensor has one, a
    batch, which is a tuple or a list, has no such attribute. *)
Definition label_tensor (b : Label + Input * Label) : outcome Label :=
  match b with
  | inl targets => Return targets
  | inr _ => Raise AttributeError
  end.

(** One pass over a data loader (lines 160-169 and 179-189): the number
    of examples, the collected (embedding, label) pairs, the loss sums. *)
Definition pass (device : option Dev) (student teacher : Input -> model_out Tn)
    (dl : list (Input * Label)) : outcome (Z * list (Tn * Label) * losses_dict) :=
  for_each
    (fun st batch =>
       let batch := rebind device batch in
       let teacher_out := teacher batch.1 in
       let student_out := student batch.1 in
       losses ← update_losses student_out teacher_out st.2;
       targets ← label_tensor batch.2;
       Return ((st.1.1 + label_count targets)%Z,
               st.1.2 ++ [(squeeze (embeddings student_out), targets)],
               losses))
    (0%Z, [], zero_losses) dl.

(** [loss_value / numel]: an [int / int] division by zero raises; a
    tensor divided by an integer does not. *)
Definition truediv (x : number Tn) (numel : Z) : outcome Tn :=
  match x with
  | PyInt _ => if decide (numel = 0%Z) then Raise ZeroDivisionError else Unmodelled
  | PyTensor t => Return (tdiv t numel)
  end.

(** [for loss_name, loss_value in losses.items(): out[prefix + loss_name] = loss_value / numel] *)
Definition averages (prefix : string) (losses : losses_dict) (numel : Z)
    (out : gmap string Tn) : outcome (gmap string Tn) :=
  for_each
    (fun out kv => q ← truediv kv.2 numel; Return (<[prefix +:+ kv.1 := q]> out))
    out losses.

(** [for key, val in probe.items(): out[prefix + key] = torch.tensor(val)] *)
Definition add_probe (prefix : string) (probe : list (string * Num))
    (out : gmap string Tn) : gmap string Tn :=
  foldl (fun out kv => <[prefix +:+ kv.1 := tensor_of kv.2]> out) out probe.

(** [eval_student(student, teacher, prober, train_dl, valid_dl, device)] *)
Definition eval_student (student teacher : Input -> model_out Tn)
    (train_dl valid_dl : list (Input * Label)) (device : option Dev)
  : outcome (gmap string Tn) :=
  tr ← pass device student teacher train_dl;
  out ← averages "train/" tr.2 tr.1.1 ∅;
  va ← pass device student teacher valid_dl;
  out ← averages "valid/" va.2 va.1.1 out;
  let out := add_probe "probe/" (eval_probe tr.1.2 va.1.2) out in
  let normalized := normalize_data tr.1.2 va.1.2 in
  let out := add_probe "probe/norm/" (eval_probe normalized.1 normalized.2) out in
  Return out.

(** The loop of [eval_coords] (lines 245-260): one ResultRecord per
    coordinate, in the order of the chunk. A model is the function its
    forward pass computes; [vector_to_module v] is the student once
    [U.vector_to_module(vec, student)] has overwritten its parameters;
    [device] is the [torch.device] of line 209. *)
Variable lstsq : mat2 -> vec -> vec.
Variable vector_to_module : vec -> Input -> model_out Tn.
Variable teacher : Input -> model_out Tn.
Variable coord_tensor : vec -> Tn.
Variable norm2 : vec -> Tn.
Variable device : Dev.

Definition eval_coord (P : ParamProjector) (train_dl valid_dl : list (Input * Label))
    (coord : vec) : outcome (gmap string Tn) :=
  v ← call_default lstsq P (vector coord);
  out ← eval_student (vector_to_module v) teacher train_dl valid_dl (Some device);
  let out : gmap string Tn := <["coord" := coord_tensor coord]> out in
  let out := <["l2norm" := norm2 v]> out in
  Return (cpu <$> out).

Definition eval_coords (P : ParamProjector) (train_dl valid_dl : list (Input * Label))
    (coords : list vec) : outcome (list (gmap string Tn)) :=
  collect (eval_coord P train_dl valid_dl) coords.

End Evaluator.

(** *** parse_tqdm_state *)

(** The line is a [str], so the classes of the pattern are the Unicode
    ones. [\s] matches the characters for which [str.isspace] holds. *)
Definition is_space (c : N) : bool :=
  (((9 <=? c) && (c <=? 13)) || ((28 <=? c) && (c <=? 32)) || (c =? 133) || (c =? 160)
   || (c =? 5760) || ((8192 <=? c) && (c <=? 8202)) || (c =? 8232) || (c =? 8233)
   || (c =? 8239) || (c =? 8287) || (c =? 12288))%N.
Definition is_newline (c : N) : bool := (c =? 10)%N.

(** [\d] matches the decimal digits, the characters [int] converts. They
    come in runs of ten, zero to nine; these are the code points of the
    zeros in Unicode 14.0, the table of CPython 3.11. *)
Definition decimal_zeros : list N :=
  [48; 1632; 1776; 1984; 2406; 2534; 2662; 2790; 2918; 3046; 3174; 3302; 3430;
   3558; 3664; 3792; 3872; 4160; 4240; 6112; 6160; 6470; 6608; 6784; 6800; 6992;
   7088; 7232; 7248; 42528; 43216; 43264; 43472; 43504; 43600; 44016; 65296;
   66720; 68912; 69734; 69872; 69942; 70096; 70384; 70736; 70864; 71248; 71360;
   71472; 71904; 72016; 72784; 73040; 73120; 92768; 92864; 93008; 120782; 120792;
   120802; 120812; 120822; 123200; 123632; 125264; 130032]%N.

(** The digit a character stands for, if it is a decimal digit. *)
Definition decimal (c : N) : option N :=
  z ← List.find (fun z => (z <=? c) && (c <=? z + 9))%N decimal_zeros;
  Some (c - z)%N.

Definition is_digit (c : N) : bool :=
  match decimal c with Some _ => true | None => false end.

Definition digit_value (c : N) : Z := default 0%Z (Z.of_N <$> decimal c).

(** [int(s)] of a run of digits [s]. CPython refuses to convert more
    than [sys.int_info.default_max_str_digits] digits and raises
    ValueError; [None] is that error, or the one for an [s] that is no
    run of digits. *)
Definition max_str_digits : N := 4300.

Definition py_int (digits : list N) : option Z :=
  match digits with
  | [] => None
  | _ :: _ =>
      if forallb is_digit digits && (N.of_nat (length digits) <=? max_str_digits)%N
      then Some (foldl (fun acc c => 10 * acc + digit_value c)%Z 0%Z digits)
      else None
  end.

(** The longest run of digits at the head of [s], and what follows it. *)
Fixpoint span_digits (s : list N) : list N * list N :=
  match s with
  | c :: s' =>
      if is_digit c then let dr := span_digits s' in (c :: dr.1, dr.2) else ([], s)
  | [] => ([], [])
  end.

(** What follows the literal [p] at the head of [s]. *)
Fixpoint after_literal (p s : list N) : option (list N) :=
  match p, s with
  | [], _ => Some s
  | a :: p', b :: s' => if (a =? b)%N then after_literal p' s' else None
  | _ :: _, [] => None
  end.

(** [unique\spostfix] at the head of [s]. *)
Definition at_unique_postfix (s : list N) : bool :=
  match after_literal (codes "unique") s with
  | Some (w :: s') =>
      is_space w &&
      match after_literal (codes "postfix") s' with Some _ => true | None => false end
  | _ => false
  end.

(** [.*unique\spostfix]: [.] is any character but a newline. *)
Fixpoint dots_unique_postfix (s : list N) : bool :=
  at_unique_postfix s ||
  match s with
  | c :: s' => negb (is_newline c) && dots_unique_postfix s'
  | [] => false
  end.

(** The lookahead [(?=/\d+\s\[.*unique\spostfix)]; 47 is the slash and
    91 the opening bracket. *)
Definition lookahead (s : list N) : bool :=
  match s with
  | c :: s1 =>
      (c =? 47)%N &&
      match span_digits s1 with
      | (_ :: _, w :: b :: s3) => is_space w && (b =? 91)%N && dots_unique_postfix s3
      | _ => false
      end
  | [] => false
  end.

(** The lookbehind [(?<=\|\s)] on the two characters before the
    position; 124 is the bar. *)
Definition lookbehind (p2 p1 : option N) : bool :=
  match p2, p1 with
  | Some b, Some w => (b =? 124)%N && is_space w
  | _, _ => false
  end.

(** [re.findall(r'(?<=\|\s)(\d+)(?=/\d+\s\[.*unique\spostfix)', s)]: the
    group can only be a whole run of digits (a shorter one is followed by
    a digit, not by [/]), and no match starts inside a run (the character
    before it is a digit, not a space), so scanning every position finds
    the matches of the regex engine, in order. *)
Fixpoint findall_from (p2 p1 : option N) (s : list N) : list (list N) :=
  match s with
  | [] => []
  | c :: s' =>
      (if lookbehind p2 p1 && is_digit c && lookahead (span_digits s).2
       then [(span_digits s).1] else [])
      ++ findall_from p1 (Some c) s'
  end.

Definition findall (s : list N) : list (list N) := findall_from None None s.

(** [parse_tqdm_state(fname)]: [file] is what [open(fname)] finds, [None]
    when it cannot be opened or read, else the lines the file iterates
    over. Any exception inside the [try] (no file, no last line, no
    match, a count [int] refuses) gives 0. *)
Definition parse_tqdm_state (file : option (list (list N))) : Z :=
  default 0%Z
    (lines ← file;
     lastline ← last lines;
     digits ← last (findall lastline);
     py_int digits).

(** *** main: grid and chunks (lines 273-280) *)

Section Builder.
Context {A : Type}.

(** Split, discard empty chunks, and the [len(coords[0])] of the printed
    summary, which raises on an empty list. *)
Definition build_chunks (X Y : list A) (num_jobs : Z) : outcome (list (list (A * A))) :=
  coords ← Torch.tensor_split (Grid.coords_of X Y) num_jobs;
  let coords := filter (fun c => 0 < Grid.nelement c) coords in
  match coords with
  | [] => Raise IndexError
  | _ :: _ => Return coords
  end.

End Builder.

(** *** main: progress tracking (lines 293-302) *)

(** What the orchestrator sees of a job when it polls: [job.done()] and
    the file at [job.paths.stderr]. *)
Record job_view : Type := { done : bool; stderr : option (list (list N)) }.

Definition parsed_total (jobs : list job_view) : Z :=
  foldr Z.add 0%Z (List.map (fun job => parse_tqdm_state (stderr job)) jobs).

(** The [while] loop over successive observations of the jobs, from
    [pbar.n = n]: the values [pbar.n] takes in the loop and, once no job
    is left running, the value of the final assignment. With no
    observation left the loop is still polling. *)
Fixpoint track (n : Z) (observations : list (list job_view)) : list Z * option Z :=
  match observations with
  | [] => ([], None)
  | jobs :: later =>
      if existsb (fun job => negb (done job)) jobs then
        let n' := Z.max n (parsed_total jobs) in
        let r := track n' later in (n' :: r.1, r.2)
      else ([], Some (parsed_total jobs))
  end.

(** Every value of [pbar.n] in order: the initial 0, the loop's, the final. *)
Definition progress_counts (observations : list (list job_view)) : list Z :=
  let r := track 0%Z observations in
  0%Z :: r.1 ++ match r.2 with Some n => [n] | None => [] end.

(** *** main: gathering and saving (lines 304-318) *)

Section Reducer.
Context {V : Type}.

(** [if key not in out.keys(): out[key] = []] then [out[key].append(val)]. *)
Definition gather_item (out : gmap string (list V)) (kv : string * V)
  : gmap string (list V) :=
  let out := if decide (kv.1 ∈ dom out) then out else <[kv.1 := []]> out in
  alter (fun l => l ++ [kv.2]) kv.1 out.

(** The three nested loops over jobs, results and items. *)
Definition gather (results : list (list (gmap string V))) : gmap string (list V) :=
  foldl (fun out job =>
           foldl (fun out res => foldl gather_item out (map_to_list res)) out job)
        ∅ results.

(** What the loops leave under [key] after one more record: its value, if
    it has one, behind those gathered before. *)
Definition appended (key : string) (o : option (list V)) (res : gmap string V)
  : option (list V) :=
  match res !! key with
  | Some v => Some (default [] o ++ [v])
  | None => o
  end.

End Reducer.

(** The shape of the tensor saved for a key whose values have the given
    shapes: [torch.stack(val, dim=0).reshape((len(X), len(Y), -1)).squeeze()]. *)
Definition saved_shape (lx ly : nat) (shapes : list (list nat)) : outcome (list nat) :=
  s ← Shape.stack shapes;
  s ← Shape.reshape_grid lx ly s;
  Return (Shape.squeeze s).

(** *** ParamProjector.error *)

Section ProjectorError.
Variable lstsq : mat2 -> vec -> vec.

(** [ParamProjector.error(vec, p=2)]: the residual of [vec] after it is
    projected and mapped back, measured in the norm [p] names; the string
    ['inf'] becomes [float('inf')], ['rms'] asks for the root mean square. *)
Definition error (P : ParamProjector) (v : vec) (p : norm_order) : outcome R :=
  coord ← project lstsq P v true;
  back ← map P coord true;
  diff ← vsub v back;
  let p := if decide (p = OrdStr "inf") then OrdInf else p in
  if decide (p = OrdStr "rms") then Return (rms diff) else norm p diff.

(** [P.error(vec)]: the call with the default [p]. *)
Definition error_default (P : ParamProjector) (v : vec) : outcome R :=
  error P v (OrdInt 2).

End ProjectorError.

(** The state the methods rely on: the affine point and the basis have
    [dim] rows, and the basis is orthonormal under an orthogonal scale, of
    full column rank otherwise. *)
Definition ready (P : ParamProjector) : Prop :=
  length (affine P) = dim P /\ length (basis P) = dim P /\ 0 < dim P /\
  (scale P ∈ ortho_options -> orthonormal (basis P)) /\
  (scale P ∉ ortho_options -> gram_det (basis P) <> 0%R).

(** *** load_model *)

(** What [DINO.load_from_checkpoint] leaves behind: the object bound to
    the local [student] that was handed in, and the two models of the
    [dino] it returns. *)
Record loaded (Model : Type) : Type :=
  { student_arg : Model; dino_student : Model; dino_teacher : Model }.
Arguments student_arg {Model} _.
Arguments dino_student {Model} _.
Arguments dino_teacher {Model} _.

Definition unknown_name_message (name : string) : string :=
  "Unkown name '" +:+ name +:+ "', should be either 'teacher' or 'student'.".

Section Loader.
Context {Config Model : Type}.

(** The calls into [configuration], [dinopl] and [torch]: the
    configuration stored beside a checkpoint (lines 110-111), the model
    built from a configuration (lines 114-123), the checkpoint loaded
    into it (line 126), and the fresh initialisation (line 130). *)
Variable config_beside : string -> outcome Config.
Variable build_student : Config -> outcome Model.
Variable load_from_checkpoint : string -> Config -> Model -> outcome (loaded Model).
Variable init_student_teacher : Config -> Model -> outcome (Model * Model).

(** [load_model(identifier, config=None)] *)
Definition load_model (identifier : string) (config : option Config) : outcome Model :=
  cn ← unpack2 (split ":" identifier);
  let ckpt_path := cn.1 in
  let name := cn.2 in
  config ← match config with
           | None => config_beside ckpt_path
           | Some config => Return config
           end;
  student ← build_student config;
  dino ← load_from_checkpoint ckpt_path config student;
  dino ← (if endswith ".init" name then
            st ← init_student_teacher config (student_arg dino);
            Return {| student_arg := st.1; dino_student := st.1; dino_teacher := st.2 |}
          else Return dino);
  if startswith "teacher" name then Return (dino_teacher dino)
  else if startswith "student" name then Return (dino_student dino)
  else Raise (ValueError (unknown_name_message name)).

End Loader.

(** *** main: the files written (lines 316-318) *)

(** [os.path.join(args['dir'], f"{key.replace('/', '_')}.pt")] *)
Definition saved_file (dir key : string) : string :=
  path_join dir (replace_char "/" "_" key +:+ ".pt").

(** *** eval_coords from the projector on (lines 228-260) *)

Section Job.
Context {Tn Input Label Num Dev : Type}.
Variables mean_squared_error cross_entropy entropy : Tn -> Tn -> Tn.
Variables log_softmax softmax texp tsum squeeze cpu : Tn -> Tn.
Variable tadd : Tn -> Tn -> Tn.
Variable radd : Z -> Tn -> Tn.
Variable tdiv : Tn -> Z -> Tn.
Variable label_count : Label -> Z.
Variable tensor_of : Num -> Tn.
Variable eval_probe : list (Tn * Label) -> list (Tn * Label) -> list (string * Num).
Variable normalize_data :
  list (Tn * Label) -> list (Tn * Label) -> list (Tn * Label) * list (Tn * Label).
Variable lstsq : mat2 -> vec -> vec.
Variable vector_to_module : vec -> Input -> model_out Tn.
Variable teacher : Input -> model_out Tn.
Variable coord_tensor : vec -> Tn.
Variable norm2 : vec -> Tn.
Variable device : Dev.

(** [coords[0]] of a chunk: an empty chunk has no row 0. *)
Definition first_row (coords : list vec) : outcome vec :=
  match coords with
  | [] => Raise IndexError
  | coord :: _ => Return coord
  end.

(** The printed norm of the origin, [P(torch.zeros_like(coords[0]))],
    then the loop over the coordinates. *)
Definition eval_coords_job (P : ParamProjector) (train_dl valid_dl : list (Input * Label))
    (coords : list vec) : outcome (list (gmap string Tn)) :=
  first ← first_row coords;
  origin ← call_default lstsq P (vector (List.map (fun _ => 0%R) first));
  eval_coords mean_squared_error cross_entropy entropy log_softmax softmax texp tsum
    squeeze cpu tadd radd tdiv label_count tensor_of eval_probe normalize_data
    lstsq vector_to_module teacher coord_tensor norm2 device P train_dl valid_dl coords.

End Job.

End Losslandscape.

(** ** paramplane.py *)

Module Paramplane.

Import Torch.

(** *** class ParamProjector *)

Record ParamProjector : Type := {
  center : option string;
  scale : option string;
  dim : nat;
  affine : vec;
  basis : mat2;
  affine_inv : vec
}.

Definition center_options : list (option string) :=
  [None; Some ""; Some "mean"; Some "minnorm"].
Definition scale_options : list (option string) :=
  [None; Some ""; Some "l2_ortho"; Some "rms_ortho"].
Definition ortho_options : list (option string) :=
  [Some "l2_ortho"; Some "rms_ortho"].

Definition option_message (value : option string) (argument : string) : string :=
  "Unkown option '" +:+ fstr value +:+ "' for argument '" +:+ argument +:+ "'.".
Definition infer_message : string := "Cannot infer whether to project or map input.".

Section PlaneProjector.
Variable lstsq : mat2 -> vec -> vec.
Variable svd_U : mat2 -> mat2.

Definition lstsq_solution (B : mat2) (v : vec) : outcome vec :=
  if decide (length B = length v) then Return (lstsq B v) else Unmodelled.
Definition svd_left (B : mat2) : outcome mat2 :=
  if decide (2 <= length B) then Return (svd_U B) else Unmodelled.

(** Lines 90-95. *)
Definition centered (center : option string) (v0 v1 v2 : vec) : outcome (vec * mat2) :=
  affine ← (if decide (center = Some "mean")
            then s ← vadd v0 v1; s ← vadd s v2; Return (List.map (fun x => x / 3)%R s)
            else Return v0);
  basis ← stack2 v1 v2;
  basis ← sub_column basis affine;
  Return (affine, basis).

(** Lines 97-100. *)
Definition recentered (center : option string) (ab : vec * mat2) : outcome (vec * mat2) :=
  if decide (center = Some "minnorm") then
    t ← lstsq_solution ab.2 (vneg ab.1);
    offset ← matvec ab.2 t;
    affine ← vadd ab.1 offset;
    basis ← sub_column ab.2 offset;
    Return (affine, basis)
  else Return ab.

(** Lines 102-105: [affine_inv] and the orthonormal basis. *)
Definition scaled (scale : option string) (ab : vec * mat2) : outcome (mat2 * vec) :=
  affine_inv ← lstsq_solution ab.2 ab.1;
  if decide (scale ∈ ortho_options) then
    basis ← svd_left ab.2;
    affine_inv ← tmatvec basis ab.1;
    Return (basis, affine_inv)
  else Return (ab.2, affine_inv).

(** The affine point and the basis as they stand before line 102. *)
Definition plane (center : option string) (v0 v1 v2 : vec) : outcome (vec * mat2) :=
  ab ← centered center v0 v1 v2;
  recentered center ab.

(** [ParamProjector.__init__]: the options are checked, the number of
    dimensions of the vectors is not. *)
Definition __init__ (vec0 vec1 vec2 : tensor) (center scale : option string)
  : outcome ParamProjector :=
  if decide (center ∉ center_options)
  then Raise (ValueError (option_message center "center"))
  else if decide (scale ∉ scale_options)
  then Raise (ValueError (option_message scale "scale"))
  else
    v0 ← as_vector vec0;
    v1 ← as_vector vec1;
    v2 ← as_vector vec2;
    ab ← plane center v0 v1 v2;
    bi ← scaled scale ab;
    Return {| center := center; scale := scale; dim := numel vec0;
              affine := ab.1; basis := bi.1; affine_inv := bi.2 |}.

(** [ParamProjector.project] *)
Definition project (P : ParamProjector) (v : vec) (is_position : bool) : outcome vec :=
  v ← (if is_position then vsub v (affine P) else Return v);
  coord ← (if decide (scale P ∈ ortho_options)
           then tmatvec (basis P) v
           else lstsq_solution (basis P) v);
  Return (if decide (scale P = Some "rms_ortho")
          then List.map (fun x => x / sqrt (INR (dim P)) * sqrt 2)%R coord
          else coord).

(** [ParamProjector.map] *)
Definition map (P : ParamProjector) (coord : vec) (is_position : bool) : outcome vec :=
  let coord := if decide (scale P = Some "rms_ortho")
               then List.map (fun x => x / sqrt 2 * sqrt (INR (dim P)))%R coord
               else coord in
  v ← matvec (basis P) coord;
  if is_position then vadd v (affine P) else Return v.

(** [ParamProjector.__call__(inp, is_direction=False)]: the flag is
    handed to [project] and [map] as their [is_position]. *)
Definition __call__ (P : ParamProjector) (inp : tensor) (is_direction : bool) : outcome vec :=
  match shape inp with
  | [] => Raise IndexError
  | n :: _ =>
      if decide (n = dim P) then v ← as_vector inp; project P v is_direction
      else if decide (n = 2) then v ← as_vector inp; map P v is_direction
      else Raise (ValueError infer_message)
  end.

(** [P(inp)]: the call with the default argument. *)
Definition call_default (P : ParamProjector) (inp : tensor) : outcome vec :=
  __call__ P inp false.

Inductive method_call : Type :=
| Project (v : vec) (is_position : bool)
| Map (coord : vec) (is_position : bool)
| Call (inp : tensor) (is_direction : bool).

Definition exec (P : ParamProjector) (m : method_call) : ParamProjector * outcome vec :=
  match m with
  | Project v b => (P, project P v b)
  | Map c b => (P, map P c b)
  | Call inp b => (P, __call__ P inp b)
  end.

Definition run (P : ParamProjector) (calls : list method_call) : ParamProjector :=
  foldl (fun P m => (exec P m).1) P calls.

End PlaneProjector.

(** *** main: grid and chunks (lines 250-256) *)

Section PlaneBuilder.
Context {A : Type}.

(** Split only: every chunk goes to a job; [len(coords[0])] as above. *)
Definition build_chunks (X Y : list A) (num_jobs : Z) : outcome (list (list (A * A))) :=
  coords ← Torch.tensor_split (Grid.coords_of X Y) num_jobs;
  match coords with
  | [] => Raise IndexError
  | _ :: _ => Return coords
  end.

End PlaneBuilder.

(** *** main: gathering and saving (lines 277-291) *)

Section PlaneReducer.
Context {V : Type}.
(** [torch.zeros(val.shape)]: the zero tensor of the shape of [val]. *)
Variable zeros_like : V -> V.

(** [if key not in out.keys(): out[key] = torch.zeros((n, *val.shape))]
    then [out[key][pos] = val]. *)
Definition gather_item (n pos : nat) (out : gmap string (list V)) (kv : string * V)
  : outcome (gmap string (list V)) :=
  let out := if decide (kv.1 ∈ dom out) then out
             else <[kv.1 := replicate n (zeros_like kv.2)]> out in
  match out !! kv.1 with
  | Some rows =>
      if decide (pos < length rows) then Return (<[kv.1 := <[pos := kv.2]> rows]> out)
      else Raise IndexError
  | None => Raise KeyError
  end.

(** The loops over [enumerate(jobs)] and [enumerate(job.results()[0])]:
    the row written is [idx + sub_idx]. *)
Definition gather (n : nat) (results : list (list (gmap string V)))
  : outcome (gmap string (list V)) :=
  for_each
    (fun out job =>
       for_each
         (fun out res => for_each (gather_item n (job.1 + res.1)) out (map_to_list res.2))
         out (imap pair job.2))
    ∅ (imap pair results).

End PlaneReducer.

(** The shape saved for a key whose first value has shape [s]:
    [torch.zeros((len(X)*len(Y), *val.shape)).reshape((len(X), len(Y), -1))]. *)
Definition saved_shape (lx ly : nat) (s : list nat) : outcome (list nat) :=
  Shape.reshape_grid lx ly ((lx * ly) :: s).

(** *** ParamProjector.error *)

Section PlaneProjectorError.
Variable lstsq : mat2 -> vec -> vec.

(** [ParamProjector.error(vec, p=2)] *)
Definition error (P : ParamProjector) (v : vec) (p : norm_order) : outcome R :=
  coord ← project lstsq P v true;
  back ← map P coord true;
  diff ← vsub v back;
  let p := if decide (p = OrdStr "inf") then OrdInf else p in
  if decide (p = OrdStr "rms") then Return (rms diff) else norm p diff.

Definition error_default (P : ParamProjector) (v : vec) : outcome R :=
  error P v (OrdInt 2).

End PlaneProjectorError.

(** The state the methods rely on, as for the sibling class. *)
Definition ready (P : ParamProjector) : Prop :=
  length (affine P) = dim P /\ length (basis P) = dim P /\ 0 < dim P /\
  (scale P ∈ ortho_options -> orthonormal (basis P)) /\
  (scale P ∉ ortho_options -> gram_det (basis P) <> 0%R).

(** *** load_dino and load_model *)

Definition unknown_name_message (name : string) : string :=
  "Unkown name '" +:+ name +:+ "', should be either 'teacher' or 'student'.".

Section PlaneLoader.
Context {Config Model : Type}.

(** The calls into [dinopl] and [torch], as for the sibling driver. *)
Variable build_student : Config -> outcome Model.
Variable load_from_checkpoint :
  string -> Config -> Model -> outcome (Losslandscape.loaded Model).
Variable init_student_teacher : Config -> Model -> outcome (Model * Model).

(** [load_dino(identifier, config)] *)
Definition load_dino (identifier : string) (config : Config)
  : outcome (Losslandscape.loaded Model) :=
  cn ← unpack2 (split ":" identifier);
  let ckpt_path := cn.1 in
  let name := cn.2 in
  student ← build_student config;
  dino ← load_from_checkpoint ckpt_path config student;
  if endswith ".init()" name then
    st ← init_student_teacher config (Losslandscape.student_arg dino);
    Return {| Losslandscape.student_arg := st.1; Losslandscape.dino_student := st.1;
              Losslandscape.dino_teacher := st.2 |}
  else Return dino.

(** [load_model(identifier, config)] *)
Definition load_model (identifier : string) (config : Config) : outcome Model :=
  dino ← load_dino identifier config;
  cn ← unpack2 (split ":" identifier);
  let name := cn.2 in
  if startswith "teacher" name then Return (Losslandscape.dino_teacher dino)
  else if startswith "student" name then Return (Losslandscape.dino_student dino)
  else Raise (ValueError (unknown_name_message name)).

End PlaneLoader.

(** *** main: the files written (lines 289-291) *)

(** [os.path.join(dir, f"{key.replace('/', '_')}.pt")] *)
Definition saved_file (dir key : string) : string :=
  path_join dir (replace_char "/" "_" key +:+ ".pt").

(** *** eval_student, the criteria and the loop of eval_coords *)

(** A value of the [out] dictionary of [eval_student]: the losses are
    tensors, the entries of the prober are numbers. *)
Inductive value (Tn Num : Type) : Type :=
| VTensor (t : Tn)
| VNum (x : Num).
Arguments VTensor {Tn Num} t.
Arguments VNum {Tn Num} x.

Section PlaneEvaluator.
Context {Tn Input Label Num Dev : Type}.

(** [dinopl.utils], [torch.nn.functional] and tensor arithmetic, as for
    the sibling driver; [log_softmax_dim1] is [F.log_softmax(_, dim=1)],
    and [tensor_copy] is [torch.tensor] applied to a tensor. *)
Variables mean_squared_error cross_entropy : Tn -> Tn -> Tn.
Variables log_softmax_dim1 softmax tsum squeeze cpu tensor_copy : Tn -> Tn.
Variable tadd : Tn -> Tn -> Tn.
Variable radd : Z -> Tn -> Tn.
Variable tdiv : Tn -> Z -> Tn.
Variable label_count : Label -> Z.
Variable tensor_of : Num -> Tn.
Variable eval_probe : list (Tn * Label) -> list (Tn * Label) -> list (string * Num).
Variable normalize_data :
  list (Tn * Label) -> list (Tn * Label) -> list (Tn * Label) * list (Tn * Label).

(** [mse_criterion] and [ce_criterion] *)
Definition mse_criterion (pred targ : Tn) : Tn := mean_squared_error pred targ.
Definition ce_criterion (pred targ : Tn) : Tn :=
  cross_entropy (log_softmax_dim1 pred) (softmax targ).

(** [mse_criterion if args['loss']=='MSE' else ce_criterion] *)
Definition criterion_of (loss : option string) : Tn -> Tn -> Tn :=
  if decide (loss = Some "MSE") then mse_criterion else ce_criterion.

(** One pass over a data loader (lines 149-159 and 163-175): the number
    of examples, the loss sum, the collected (embedding, label) pairs.
    The first line of the loop body is the one of the sibling driver:
    without a device [batch[1]] is the whole batch, and reading its
    [shape] raises. *)
Definition pass (device : option Dev) (criterion : Tn -> Tn -> Tn)
    (student teacher : Input -> Losslandscape.model_out Tn) (dl : list (Input * Label))
  : outcome (Z * Losslandscape.number Tn * list (Tn * Label)) :=
  for_each
    (fun st batch =>
       let batch := Losslandscape.rebind device batch in
       let model_out := student batch.1 in
       let teacher_out := teacher batch.1 in
       targets ← Losslandscape.label_tensor batch.2;
       Return ((st.1.1 + label_count targets)%Z,
               Losslandscape.iadd tadd radd st.1.2
                 (tsum (criterion (Losslandscape.logits model_out)
                          (Losslandscape.logits teacher_out))),
               st.2 ++ [(squeeze (Losslandscape.embeddings model_out), targets)]))
    (0%Z, Losslandscape.PyInt 0, []) dl.

(** [for key, val in probe.items(): out[prefix + key] = val] *)
Definition add_probe (prefix : string) (probe : list (string * Num))
    (out : gmap string (value Tn Num)) : gmap string (value Tn Num) :=
  foldl (fun out kv => <[prefix +:+ kv.1 := VNum kv.2]> out) out probe.

(** [eval_student(student, teacher, criterion, prober, train_dl, valid_dl, device)] *)
Definition eval_student (criterion : Tn -> Tn -> Tn)
    (student teacher : Input -> Losslandscape.model_out Tn)
    (train_dl valid_dl : list (Input * Label)) (device : option Dev)
  : outcome (gmap string (value Tn Num)) :=
  tr ← pass device criterion student teacher train_dl;
  q ← Losslandscape.truediv tdiv tr.1.2 tr.1.1;
  let out : gmap string (value Tn Num) := <["train/loss" := VTensor q]> ∅ in
  va ← pass device criterion student teacher valid_dl;
  q ← Losslandscape.truediv tdiv va.1.2 va.1.1;
  let out := <["valid/loss" := VTensor q]> out in
  let out := add_probe "probe/" (eval_probe tr.2 va.2) out in
  let normalized := normalize_data tr.2 va.2 in
  let out := add_probe "probe/norm/" (eval_probe normalized.1 normalized.2) out in
  Return out.

(** The loop of [eval_coords] (lines 229-245): [torch.tensor(v).cpu()]
    of every value of the record; [device] is the [torch.device] of
    line 198. *)
Variable lstsq : mat2 -> vec -> vec.
Variable vector_to_module : vec -> Input -> Losslandscape.model_out Tn.
Variable teacher : Input -> Losslandscape.model_out Tn.
Variable coord_tensor : vec -> Tn.
Variable norm2 : vec -> Tn.
Variable device : Dev.

Definition to_tensor (v : value Tn Num) : Tn :=
  match v with
  | VTensor t => tensor_copy t
  | VNum x => tensor_of x
  end.

Definition eval_coord (criterion : Tn -> Tn -> Tn) (P : ParamProjector)
    (train_dl valid_dl : list (Input * Label)) (coord : vec) : outcome (gmap string Tn) :=
  v ← call_default lstsq P (vector coord);
  out ← eval_student criterion (vector_to_module v) teacher train_dl valid_dl (Some device);
  let out : gmap string (value Tn Num) := <["coord" := VTensor (coord_tensor coord)]> out in
  let out := <["l2norm" := VTensor (norm2 v)]> out in
  Return ((fun v => cpu (to_tensor v)) <$> out).

Definition eval_coords (loss : option string) (P : ParamProjector)
    (train_dl valid_dl : list (Input * Label)) (coords : list vec)
  : outcome (list (gmap string Tn)) :=
  collect (eval_coord (criterion_of loss) P train_dl valid_dl) coords.

End PlaneEvaluator.

End Paramplane.

(** ** dinopl/probing.py *)

Module Probing.

(** The exceptions this file can raise by itself: an attribute looked up
    on [None] or not yet assigned, a local variable read before it is
    bound, an integer modulo by zero, a keyword argument given twice. *)
Inductive error : Type :=
| AttributeError
| UnboundLocalError (name : string)
| ZeroDivisionError
| TypeError.

Inductive result (A : Type) : Type :=
| Ok (a : A)
| Err (e : error).

Arguments Ok {A} a.
Arguments Err {A} e.

#[global] Instance result_ret : MRet result := @Ok.
#[global] Instance result_bind : MBind result :=
  fun A B k m => match m with Ok a => k a | Err e => Err e end.

(** A [for] loop whose body may raise, threading the loop state. *)
Fixpoint for_each {A S : Type} (body : S -> A -> result S) (s : S) (l : list A) : result S :=
  match l with
  | [] => Ok s
  | a :: l' => s' ← body s a; for_each body s' l'
  end.

(** [a % b] on integers: the result has the sign of [b]. *)
Definition py_mod (a b : Z) : result Z :=
  if decide (b = 0%Z) then Err ZeroDivisionError else Ok (a mod b)%Z.

(** The training flag of a module and those of its submodules, to any
    depth: [module.training] and [module.children()]. *)
#[local] Unset Elimination Schemes.
Inductive modes : Type :=
| Modes (flag : bool) (children : list modes).
#[local] Set Elimination Schemes.

Definition flag_of (m : modes) : bool := match m with Modes flag _ => flag end.

(** Every flag of the tree, the module's own first. *)
Fixpoint flags_of (m : modes) : list bool :=
  match m with
  | Modes flag children => flag :: concat (List.map flags_of children)
  end.

(** [nn.Module.train(mode)]: it sets the flag of the module and calls
    itself on every child. *)
Fixpoint set_modes (mode : bool) (m : modes) : modes :=
  match m with
  | Modes _ children => Modes mode (List.map (set_modes mode) children)
  end.

Section Probe.
Context {Dev Input Target Emb Clf Opt Acc Loss Num DL Dataset Arg Rng : Type}.

(** What torch, torchmetrics and the data loader do is external: moving
    a tensor to a device, the randomly initialised [nn.Linear], [AdamW]
    on its parameters, [Accuracy], the mode switch of the classifier,
    one optimisation step (zero_grad, forward, cross-entropy, backward,
    step), the update and the value of the metric, the construction of
    a [DataLoader], its truth value and one iteration over it. [Rng] is
    the state of the random generator, which the initialisation of a
    layer and a shuffling loader consume. These calls are taken to
    return. *)
Variable to_input : option Dev -> Input -> Input.
Variable to_target : option Dev -> Target -> Target.
Variable Linear : Z -> Z -> Dev -> Rng -> Clf * Rng.
Variable AdamW : Clf -> Opt.
Variable Accuracy : Dev -> Acc.
Variable clf_train : bool -> Clf -> Clf.
Variable step : Clf -> Opt -> Emb -> Target -> Clf * Opt * Loss.
Variable acc_update : Acc -> Clf -> Emb -> Target -> Acc.
Variable acc_compute : Acc -> Num.
Variable DataLoader : Dataset -> option bool -> gmap string Arg -> DL.
Variable truth : DL -> bool.
Variable iterate : DL -> Rng -> list (Input * Target) * Rng.

(** An encoder: what its forward pass computes, which depends on the
    modes of its submodules (dropout, batch normalisation), and the
    modes they are in. *)
Record encoder_module : Type := {
  forward : modes -> Input -> Emb;
  flags : modes;
}.

(** [encoder.training] *)
Definition training (m : encoder_module) : bool := flag_of (flags m).

(** [encoder.train(mode)], [encoder.eval()], which is [train(False)],
    and [encoder(inputs)] *)
Definition set_train (mode : bool) (m : encoder_module) : encoder_module :=
  {| forward := forward m; flags := set_modes mode (flags m) |}.
Definition eval (m : encoder_module) : encoder_module := set_train false m.
Definition call (m : encoder_module) (inputs : Input) : Emb :=
  forward m (flags m) inputs.

(** The attributes of a [LinearProbe]; [acc] is not assigned before
    [reset], which reads like [None] here. *)
Record LinearProbe : Type := {
  encoder : encoder_module;
  embed_dim : Z;
  n_classes : Z;
  dev : option Dev;
  clf : option Clf;
  opt : option Opt;
  acc : option Acc;
}.

(** [LinearProbe.__init__] *)
Definition __init__ (encoder : encoder_module) (embed_dim n_classes : Z) : LinearProbe :=
  {| encoder := encoder; embed_dim := embed_dim; n_classes := n_classes;
     dev := None; clf := None; opt := None; acc := None |}.

(** [LinearProbe.reset] *)
Definition reset (d : Dev) (self : LinearProbe) (rng : Rng) : LinearProbe * Rng :=
  let layer := Linear (embed_dim self) (n_classes self) d rng in
  ({| encoder := encoder self; embed_dim := embed_dim self; n_classes := n_classes self;
      dev := Some d; clf := Some layer.1; opt := Some (AdamW layer.1);
      acc := Some (Accuracy d) |}, layer.2).

Definition with_encoder (m : encoder_module) (self : LinearProbe) : LinearProbe :=
  {| encoder := m; embed_dim := embed_dim self; n_classes := n_classes self;
     dev := dev self; clf := clf self; opt := opt self; acc := acc self |}.

(** [LinearProbe.load_data] *)
Definition load_data (dl : DL) (self : LinearProbe) (rng : Rng)
  : LinearProbe * list (Emb * Target) * Rng :=
  let mode := training (encoder self) in
  let self := with_encoder (eval (encoder self)) self in
  let batches := iterate dl rng in
  let train_data :=
    foldl (fun train_data batch =>
             let inputs := to_input (dev self) batch.1 in
             let targets := to_target (dev self) batch.2 in
             let embeddings := call (encoder self) inputs in
             train_data ++ [(embeddings, targets)])
      [] batches.1 in
  let self := with_encoder (set_train mode (encoder self)) self in
  (self, train_data, batches.2).

(** The body of the inner loop of [train] (lines 69-74): the classifier,
    the optimizer and the local [loss] after it. *)
Definition fit (st : Clf * option Opt * option Loss) (pair : Emb * Target)
  : result (Clf * option Opt * option Loss) :=
  match st.1.2 with
  | None => Err AttributeError
  | Some o =>
      let r := step st.1.1 o pair.1 pair.2 in
      Ok (r.1.1, Some r.1.2, Some r.2)
  end.

(** [for epoch in range(epochs)]: the inner loop, then [float(loss)]. *)
Fixpoint epochs_loop (n : nat) (train_data : list (Emb * Target))
    (st : Clf * option Opt * option Loss) : result (Clf * option Opt * option Loss) :=
  match n with
  | O => Ok st
  | S n' =>
      st ← for_each fit st train_data;
      match st.2 with
      | None => Err (UnboundLocalError "loss")
      | Some _ => epochs_loop n' train_data st
      end
  end.

(** [LinearProbe.train] *)
Definition train (epochs : Z) (train_data : list (Emb * Target)) (self : LinearProbe)
  : result LinearProbe :=
  match clf self with
  | None => Err AttributeError
  | Some c =>
      st ← epochs_loop (Z.to_nat epochs) train_data (clf_train true c, opt self, None);
      Ok {| encoder := encoder self; embed_dim := embed_dim self;
            n_classes := n_classes self; dev := dev self;
            clf := Some st.1.1; opt := st.1.2; acc := acc self |}
  end.

Definition with_acc (a : Acc) (self : LinearProbe) : LinearProbe :=
  {| encoder := encoder self; embed_dim := embed_dim self; n_classes := n_classes self;
     dev := dev self; clf := clf self; opt := opt self; acc := Some a |}.

(** [LinearProbe.valid] *)
Definition valid (valid_data : list (Emb * Target)) (self : LinearProbe)
  : result (LinearProbe * Num) :=
  match clf self with
  | None => Err AttributeError
  | Some c =>
      let c := clf_train false c in
      let self := {| encoder := encoder self; embed_dim := embed_dim self;
                     n_classes := n_classes self; dev := dev self;
                     clf := Some c; opt := opt self; acc := acc self |} in
      self ← for_each
               (fun self pair =>
                  match acc self with
                  | None => Err AttributeError
                  | Some a => Ok (with_acc (acc_update a c pair.1 pair.2) self)
                  end)
               self valid_data;
      match acc self with
      | None => Err AttributeError
      | Some a => Ok (self, acc_compute a)
      end
  end.

(** The attributes of a [LinearProber]; [probes] is a dictionary, listed
    in its insertion order. *)
Record LinearProber : Type := {
  probe_every : Z;
  probing_epochs : Z;
  probes : list (string * LinearProbe);
  train_set : Dataset;
  valid_set : Dataset;
  dl_args : gmap string Arg;
  train_dl : option DL;
  valid_dl : option DL;
}.

(** [LinearProber.__init__] *)
Definition prober_init (probe_every probing_epochs : Z)
    (probes : list (string * LinearProbe)) (train_set valid_set : Dataset)
    (dl_args : gmap string Arg) : LinearProber :=
  {| probe_every := probe_every; probing_epochs := probing_epochs; probes := probes;
     train_set := train_set; valid_set := valid_set; dl_args := dl_args;
     train_dl := None; valid_dl := None |}.

(** [DataLoader(dataset=..., [shuffle=True,] **self.dl_args)]: a key of
    [dl_args] that repeats a keyword of the call is a TypeError. *)
Definition new_loader (dataset : Dataset) (shuffle : option bool)
    (dl_args : gmap string Arg) : result DL :=
  if decide (is_Some (dl_args !! "dataset")
             \/ (is_Some shuffle /\ is_Some (dl_args !! "shuffle")))
  then Err TypeError
  else Ok (DataLoader dataset shuffle dl_args).

(** [cached or DataLoader(...)] *)
Definition or_loader (cached : option DL) (dataset : Dataset) (shuffle : option bool)
    (dl_args : gmap string Arg) : result DL :=
  match cached with
  | Some dl => if truth dl then Ok dl else new_loader dataset shuffle dl_args
  | None => new_loader dataset shuffle dl_args
  end.

(** The body of the loop of [probe] (lines 120-132) for one probe. *)
Definition probe_one (epochs : Z) (train_dl valid_dl : DL) (device : Dev)
    (probe : LinearProbe) (rng : Rng) : result (LinearProbe * Num * Rng) :=
  let r := reset device probe rng in
  let t := load_data train_dl r.1 r.2 in
  let v := load_data valid_dl t.1.1 t.2 in
  probe ← train epochs t.1.2 v.1.1;
  a ← valid v.1.2 probe;
  Ok (a.1, a.2, v.2).

(** [LinearProber.probe] *)
Definition probe (device : Dev) (self : LinearProber) (rng : Rng)
  : result (LinearProber * list (string * Num) * Rng) :=
  tdl ← or_loader (train_dl self) (train_set self) (Some true) (dl_args self);
  vdl ← or_loader (valid_dl self) (valid_set self) None (dl_args self);
  st ← for_each
         (fun (st : list (string * LinearProbe) * list (string * Num) * Rng) item =>
            r ← probe_one (probing_epochs self) tdl vdl device item.2 st.2;
            Ok (st.1.1 ++ [(item.1, r.1.1)], st.1.2 ++ [(item.1, r.1.2)], r.2))
         ([], [], rng) (probes self);
  Ok ({| probe_every := probe_every self; probing_epochs := probing_epochs self;
         probes := st.1.1; train_set := train_set self; valid_set := valid_set self;
         dl_args := dl_args self; train_dl := Some tdl; valid_dl := Some vdl |},
      List.map (fun kv => ("probe/" +:+ kv.1, kv.2)) st.1.2, st.2).

(** [LinearProber.on_validation_epoch_end]; [logged] is what
    [pl_module.log_dict] has received. *)
Definition on_validation_epoch_end (current_epoch max_epochs : Z) (device : Dev)
    (self : LinearProber) (logged : list (list (string * Num))) (rng : Rng)
  : result (LinearProber * list (list (string * Num)) * Rng) :=
  r ← py_mod current_epoch (probe_every self);
  if decide (r = 0%Z) then
    out ← probe device self rng;
    Ok (out.1.1, logged ++ [out.1.2], out.2)
  else if decide (current_epoch = (max_epochs - 1)%Z) then
    out ← probe device self rng;
    Ok (out.1.1, logged ++ [out.1.2], out.2)
  else Ok (self, logged, rng).

End Probe.

End Probing.
(** Unfolding the Gram entries down to sums over the rows. *)
Ltac unfold_gram :=
  unfold Torch.gram_det, Torch.gram11, Torch.gram12, Torch.gram22,
    Torch.dot, Torch.Rsum, Torch.col1, Torch.col2 in *.

(** * Part II: facts *)

Import Torch.

(** ** torch.tensor_split *)

Section SplitFacts.
Context {T : Type}.
Implicit Types (l : list T) (q r i k : nat).

Lemma tensor_split_loop_length l q r i k :
  length (tensor_split_loop l q r i k) = k.
Proof.
  revert l i. induction k as [|k IH]; intros l i; simpl; [done|]. by rewrite IH.
Qed.

Lemma tensor_split_loop_concat l q r i k :
  length l <= q * k + (r - i) -> r <= i + k ->
  concat (tensor_split_loop l q r i k) = l.
Proof.
  revert l i. induction k as [|k IH]; intros l i Hlen Hr; simpl.
  - destruct l; simpl in *; [done|lia].
  - rewrite IH; [apply take_drop| |lia].
    rewrite length_drop. destruct (Nat.ltb_spec i r); lia.
Qed.

Lemma tensor_split_loop_sizes l q r i k j c :
  length l = q * k + (r - i) -> r <= i + k ->
  tensor_split_loop l q r i k !! j = Some c ->
  length c = if i + j <? r then S q else q.
Proof.
  revert l i j. induction k as [|k IH]; intros l i j Hlen Hr Hc; simpl in *; [done|].
  destruct j as [|j]; simpl in *.
  - injection Hc as <-. rewrite Nat.add_0_r, length_take.
    destruct (Nat.ltb_spec i r); lia.
  - replace (i + S j) with (S i + j) by lia.
    eapply IH; [|lia|exact Hc].
    rewrite length_drop. destruct (Nat.ltb_spec i r); lia.
Qed.

(** With a positive number of sections the split returns; its chunks,
    joined, are the input, and a chunk has the quotient or one more rows. *)
Lemma tensor_split_spec l (n : Z) :
  (0 < n)%Z ->
  exists chunks,
    tensor_split l n = Return chunks /\
    length chunks = Z.to_nat n /\
    concat chunks = l /\
    forall j c, chunks !! j = Some c ->
      length c = if j <? length l mod Z.to_nat n
                 then S (length l / Z.to_nat n) else length l / Z.to_nat n.
Proof.
  intros Hn. unfold tensor_split.
  destruct (Z.leb_spec n 0) as [|_]; [lia|].
  set (k := Z.to_nat n). assert (Hk : k <> 0) by lia.
  pose proof (Nat.div_mod (length l) k Hk) as Hdm.
  pose proof (Nat.mod_upper_bound (length l) k Hk) as Hub.
  eexists; split; [reflexivity|]. split; [apply tensor_split_loop_length|]. split.
  - apply tensor_split_loop_concat; lia.
  - intros j c Hc. apply tensor_split_loop_sizes in Hc; [exact Hc|lia|lia].
Qed.

Lemma tensor_split_raises l (n : Z) :
  (n <= 0)%Z -> tensor_split l n = Raise RuntimeError.
Proof. intros Hn. unfold tensor_split. by destruct (Z.leb_spec n 0); [|lia]. Qed.

End SplitFacts.

Lemma concat_filter_nonempty {A : Type} (chunks : list (list (A * A))) :
  concat (filter (fun c => 0 < Grid.nelement c) chunks) = concat chunks.
Proof.
  induction chunks as [|c chunks IH]; [done|].
  destruct (decide (0 < Grid.nelement c)) as [Hz|Hz].
  - rewrite filter_cons_True by done. cbn [concat]. by rewrite IH.
  - rewrite filter_cons_False by done. cbn [concat]. rewrite IH.
    destruct c; unfold Grid.nelement in Hz; simpl in *; [done|lia].
Qed.

(** ** The flattening order of the grid *)

Section GridFacts.
Context {A : Type}.
Implicit Types (X Y : list A).

Lemma coords_of_length X Y : length (Grid.coords_of X Y) = length X * length Y.
Proof.
  unfold Grid.coords_of, Grid.flatten, Grid.meshgrid_ij.
  induction X as [|x X IH]; simpl; [done|].
  by rewrite length_app, length_map, IH.
Qed.

(** Row-major order: coordinate [i * len(Y) + j] is [(X[i], Y[j])]. *)
Lemma coords_of_lookup X Y i j x y :
  X !! i = Some x -> Y !! j = Some y ->
  Grid.coords_of X Y !! (i * length Y + j) = Some (x, y).
Proof.
  unfold Grid.coords_of, Grid.flatten, Grid.meshgrid_ij.
  revert i. induction X as [|x0 X IH]; intros i Hx Hy; [done|].
  destruct i as [|i]; simpl in *.
  - injection Hx as ->. rewrite lookup_app_l.
    + by rewrite list_lookup_fmap, Hy.
    + rewrite length_map. by eapply lookup_lt_Some.
  - rewrite lookup_app_r; rewrite length_map; [|lia].
    replace (length Y + i * length Y + j - length Y) with (i * length Y + j) by lia.
    by apply IH.
Qed.

End GridFacts.

(** ** losslandscape: the chunks handed to the jobs *)

Section ChunkFacts.
Context {A : Type}.
Implicit Types (X Y : list A) (chunks : list (list (A * A))).

(** What [build_chunks] returns: the coordinates in order, cut into at
    most [num_jobs] non-empty chunks whose sizes differ by at most one. *)
Lemma losslandscape_build_chunks_spec X Y (num_jobs : Z) chunks :
  Losslandscape.build_chunks X Y num_jobs = Return chunks ->
  concat chunks = Grid.coords_of X Y /\
  Forall (fun c => c <> []) chunks /\
  list_sum (List.map length chunks) = length X * length Y /\
  length chunks <= Z.to_nat num_jobs /\
  (forall c1 c2, c1 ∈ chunks -> c2 ∈ chunks -> length c1 <= S (length c2)).
Proof.
  unfold Losslandscape.build_chunks. intros Hb.
  destruct (Z.leb_spec num_jobs 0) as [Hn|Hn].
  { rewrite tensor_split_raises in Hb by done. discriminate. }
  destruct (tensor_split_spec (Grid.coords_of X Y) num_jobs Hn)
    as (chunks0 & Hs & Hlen & Hcat & Hsz).
  rewrite Hs in Hb. unfold mbind, outcome_bind, bind in Hb.
  destruct (filter _ chunks0) as [|c0 cs] eqn:Hf; [discriminate|].
  injection Hb as <-. rewrite <- Hf.
  assert (Hcat' : concat (filter (fun c : list (A * A) => 0 < Grid.nelement c) chunks0)
                  = Grid.coords_of X Y).
  { by rewrite concat_filter_nonempty. }
  split; [exact Hcat'|]. split; [|split; [|split]].
  - apply Forall_forall. intros c Hc%list_elem_of_filter. destruct Hc as [Hpos _].
    intros ->. unfold Grid.nelement in Hpos. simpl in Hpos. lia.
  - by rewrite <- length_concat, Hcat', coords_of_length.
  - rewrite <- Hlen. apply length_filter.
  - intros c1 c2 [_ H1]%list_elem_of_filter [_ H2]%list_elem_of_filter.
    apply list_elem_of_lookup in H1 as [j1 H1], H2 as [j2 H2].
    rewrite (Hsz _ _ H1), (Hsz _ _ H2).
    repeat case_match; lia.
Qed.

(** It returns whenever there is a job and a coordinate. *)
Lemma losslandscape_build_chunks_returns X Y (num_jobs : Z) :
  (0 < num_jobs)%Z -> 0 < length X * length Y ->
  exists chunks, Losslandscape.build_chunks X Y num_jobs = Return chunks.
Proof.
  intros Hn Hpos. unfold Losslandscape.build_chunks.
  destruct (tensor_split_spec (Grid.coords_of X Y) num_jobs Hn)
    as (chunks0 & Hs & Hlen & Hcat & Hsz).
  rewrite Hs. unfold mbind, outcome_bind, bind.
  destruct (filter _ chunks0) as [|c0 cs] eqn:Hf; [|by eexists].
  exfalso.
  assert (Hc : concat (filter (fun c : list (A * A) => 0 < Grid.nelement c) chunks0) = [])
    by (by rewrite Hf).
  rewrite concat_filter_nonempty, Hcat in Hc.
  apply (f_equal length) in Hc. rewrite coords_of_length in Hc. simpl in Hc. lia.
Qed.

End ChunkFacts.

(** ** losslandscape: gathering the results *)

Section GatherFacts.
Context {V : Type}.
Implicit Types (out : gmap string (list V)) (res : gmap string V) (key : string).

Lemma gather_item_lookup out (kv : string * V) key :
  Losslandscape.gather_item out kv !! key =
  if decide (kv.1 = key) then Some (default [] (out !! key) ++ [kv.2]) else out !! key.
Proof.
  unfold Losslandscape.gather_item. destruct kv as [k v]; simpl.
  destruct (decide (k = key)) as [->|Hne].
  - rewrite lookup_alter_eq. destruct (decide (key ∈ dom out)) as [Hin|Hin].
    + apply elem_of_dom in Hin as [l Hl]. by rewrite Hl.
    + apply not_elem_of_dom in Hin. by rewrite lookup_insert_eq, Hin.
  - rewrite lookup_alter_ne by done.
    destruct (decide (k ∈ dom out)); [done|]. by rewrite lookup_insert_ne.
Qed.

Lemma gather_items_lookup (items : list (string * V)) out key :
  NoDup items.*1 ->
  foldl Losslandscape.gather_item out items !! key =
  Losslandscape.appended key (out !! key) (list_to_map items).
Proof.
  unfold Losslandscape.appended. revert out.
  induction items as [|[k v] items IH]; intros out Hnd; simpl.
  { by rewrite lookup_empty. }
  apply NoDup_cons in Hnd as [Hk Hnd].
  rewrite IH by done. rewrite gather_item_lookup. simpl.
  destruct (decide (k = key)) as [->|Hne].
  - rewrite lookup_insert_eq.
    by rewrite (not_elem_of_list_to_map_1 _ _ Hk).
  - by rewrite lookup_insert_ne.
Qed.

Lemma gather_record_lookup res out key :
  foldl Losslandscape.gather_item out (map_to_list res) !! key =
  Losslandscape.appended key (out !! key) res.
Proof.
  rewrite gather_items_lookup by apply NoDup_fst_map_to_list.
  by rewrite list_to_map_to_list.
Qed.

Lemma gather_records_lookup (records : list (gmap string V)) out key :
  foldl (fun out res => foldl Losslandscape.gather_item out (map_to_list res)) out records
    !! key
  = foldl (Losslandscape.appended key) (out !! key) records.
Proof.
  revert out. induction records as [|res records IH]; intros out; simpl; [done|].
  by rewrite IH, gather_record_lookup.
Qed.

Lemma gather_lookup (results : list (list (gmap string V))) key :
  Losslandscape.gather results !! key = foldl (Losslandscape.appended key) None (concat results).
Proof.
  unfold Losslandscape.gather.
  change None with ((∅ : gmap string (list V)) !! key).
  generalize (∅ : gmap string (list V)). 
  induction results as [|job results IH]; intros out; simpl; [done|].
  rewrite foldl_app, IH. by rewrite gather_records_lookup.
Qed.

(** When every record carries the key, its values line up in record order. *)
Lemma appended_all (records : list (gmap string V)) (vals : list V) key o :
  Forall2 (fun res v => res !! key = Some v) records vals ->
  records <> [] ->
  foldl (Losslandscape.appended key) o records = Some (default [] o ++ vals).
Proof.
  intros HF. revert o. induction HF as [|res v records vals Hv HF IH]; intros o Hne; [done|].
  simpl. unfold Losslandscape.appended at 2. rewrite Hv.
  destruct records as [|res' records].
  - inversion HF; subst. simpl. done.
  - rewrite IH by done. simpl. by rewrite <- app_assoc.
Qed.

End GatherFacts.

(** ** Reduction order *)

Lemma concat_lookup_offset {T : Type} (chunks : list (list T)) idx sub_idx chunk c :
  chunks !! idx = Some chunk -> chunk !! sub_idx = Some c ->
  concat chunks !! (list_sum (List.map length (take idx chunks)) + sub_idx) = Some c.
Proof.
  revert idx. induction chunks as [|c0 chunks IH]; intros idx Hi Hs; [done|].
  destruct idx as [|idx]; simpl in *.
  - injection Hi as ->. rewrite lookup_app_l; [done|]. by eapply lookup_lt_Some.
  - rewrite lookup_app_r by lia.
    replace (length c0 + list_sum (List.map length (take idx chunks)) + sub_idx - length c0)
      with (list_sum (List.map length (take idx chunks)) + sub_idx) by lia.
    by apply IH.
Qed.

(** losslandscape: for a key that every record carries, the list gathered
    under it has one value per grid coordinate, the value for [(X[i], Y[j])]
    at flat index [i * len(Y) + j], which is where the record [sub_idx] of
    chunk [idx] lands: after all records of the chunks before it. *)
Theorem losslandscape_reduction_order {A V : Type} (X Y : list A) (num_jobs : Z)
    (chunks : list (list (A * A))) (record_of : A * A -> gmap string V)
    (value_of : A * A -> V) (key : string) :
  Losslandscape.build_chunks X Y num_jobs = Return chunks ->
  (forall c, record_of c !! key = Some (value_of c)) ->
  exists flat,
    Losslandscape.gather (List.map (List.map record_of) chunks) !! key = Some flat /\
    length flat = length X * length Y /\
    (forall i j x y, X !! i = Some x -> Y !! j = Some y ->
       Grid.grid_at (length Y) flat i j = Some (value_of (x, y))) /\
    (forall idx sub_idx chunk c, chunks !! idx = Some chunk -> chunk !! sub_idx = Some c ->
       flat !! (list_sum (List.map length (take idx chunks)) + sub_idx) = Some (value_of c)).
Proof.
  intros Hb Hkey.
  pose proof (losslandscape_build_chunks_spec _ _ _ _ Hb) as (Hcat & Hne & _ & _ & _).
  exists (List.map value_of (concat chunks)). split; [|split; [|split]].
  - rewrite gather_lookup.
    assert (Hcm : concat (List.map (List.map record_of) chunks)
                  = List.map record_of (concat chunks)).
    { clear. induction chunks as [|c cs IH]; simpl; [done|]. by rewrite IH, map_app. }
    rewrite Hcm.
    rewrite (appended_all _ (List.map value_of (concat chunks))); [done| |].
    + clear -Hkey. induction (concat chunks); simpl; constructor; auto.
    + unfold Losslandscape.build_chunks in Hb.
      destruct chunks as [|c0 cs].
      { destruct (tensor_split _ _); simpl in Hb; try discriminate.
        unfold mbind, outcome_bind, bind in Hb.
        destruct (filter _ _); discriminate. }
      apply Forall_cons in Hne as [Hc0 _]. destruct c0; [done|]. simpl. discriminate.
  - by rewrite length_map, Hcat, coords_of_length.
  - intros i j x y Hx Hy. unfold Grid.grid_at.
    rewrite Hcat.
    by rewrite list_lookup_fmap, (coords_of_lookup X Y i j x y).
  - intros idx sub_idx chunk c Hi Hs.
    by rewrite list_lookup_fmap, (concat_lookup_offset chunks idx sub_idx chunk c).
Qed.

Lemma losslandscape_reduction_order_witness :
  exists flat,
    Losslandscape.gather
      (List.map (List.map (fun c : Z * Z => ({[ "id" := (2 * c.1 + c.2)%Z ]} : gmap string Z)))
                [[(0, 0); (0, 1)]; [(1, 0); (1, 1)]]%Z) !! "id" = Some flat /\
    length flat = 2 * 2 /\
    (forall i j x y, [0; 1]%Z !! i = Some x -> [0; 1]%Z !! j = Some y ->
       Grid.grid_at 2 flat i j = Some (2 * (x, y).1 + (x, y).2)%Z) /\
    (forall idx sub_idx chunk c,
       [[(0, 0); (0, 1)]; [(1, 0); (1, 1)]]%Z !! idx = Some chunk ->
       chunk !! sub_idx = Some c ->
       flat !! (list_sum (List.map length (take idx [[(0, 0); (0, 1)]; [(1, 0); (1, 1)]]%Z))
                + sub_idx) = Some (2 * c.1 + c.2)%Z).
Proof.
  apply (losslandscape_reduction_order [0; 1]%Z [0; 1]%Z 2
           [[(0, 0); (0, 1)]; [(1, 0); (1, 1)]]%Z
           (fun c => {[ "id" := (2 * c.1 + c.2)%Z ]}) (fun c => (2 * c.1 + c.2)%Z) "id").
  - reflexivity.
  - intros c. apply lookup_singleton_eq.
Defined.

(** C1: paramplane writes the record [sub_idx] of chunk [idx] to row
    [idx + sub_idx]. On the 2 x 2 grid split into two chunks, with records
    tagged 1..4 in flattening order, the second chunk overwrites row 1 and
    the last row keeps its zero: grid position (0, 1) holds the record of
    coordinate (1, 0); losslandscape gathers 1, 2, 3, 4. *)
Theorem paramplane_reduction_misplaces :
  exists chunks flat,
    Paramplane.build_chunks [0; 1]%Z [0; 1]%Z 2 = Return chunks /\
    chunks = [[(0, 0); (0, 1)]; [(1, 0); (1, 1)]]%Z /\
    Paramplane.gather (fun _ => 0%Z) (2 * 2)
      (List.map (List.map (fun c : Z * Z => ({[ "id" := (2 * c.1 + c.2 + 1)%Z ]} : gmap string Z)))
                chunks)
      = Return {[ "id" := flat ]} /\
    flat = [1; 3; 4; 0]%Z /\
    Grid.grid_at 2 flat 0 1 = Some 3%Z /\
    Losslandscape.gather
      (List.map (List.map (fun c : Z * Z => ({[ "id" := (2 * c.1 + c.2 + 1)%Z ]} : gmap string Z)))
                chunks)
      = {[ "id" := [1; 2; 3; 4]%Z ]}.
Proof.
  exists [[(0, 0); (0, 1)]; [(1, 0); (1, 1)]]%Z, [1; 3; 4; 0]%Z.
  repeat split; vm_compute; reflexivity.
Qed.

(** ** Linear algebra of D x 2 matrices *)

Section LinearAlgebra.
Local Open Scope R_scope.
Implicit Types (B U : mat2) (u v a c : vec) (x y : R).

Lemma zip_with_length_eq {X Y Z : Type} (f : X -> Y -> Z) (l : list X) (k : list Y) :
  length l = length k -> length (zip_with f l k) = length l.
Proof. intros H. rewrite length_zip_with. lia. Qed.

(** [B.T (B c)] is the Gram matrix applied to [c]. *)
Lemma dot_col1_matvec B x y :
  dot (col1 B) (List.map (fun b => b.1 * x + b.2 * y) B) = gram11 B * x + gram12 B * y.
Proof.
  unfold_gram. induction B as [|[b1 b2] B IH]; simpl in *; [lra|]. rewrite IH. lra.
Qed.

Lemma dot_col2_matvec B x y :
  dot (col2 B) (List.map (fun b => b.1 * x + b.2 * y) B) = gram12 B * x + gram22 B * y.
Proof.
  unfold_gram. induction B as [|[b1 b2] B IH]; simpl in *; [lra|]. rewrite IH. lra.
Qed.

(** The squared length of [B c] as a quadratic form in [c]. *)
Lemma sum_squares_matvec B x y :
  Rsum (List.map (fun t => t * t) (List.map (fun b => b.1 * x + b.2 * y) B))
  = x * x * gram11 B + 2 * (x * y) * gram12 B + y * y * gram22 B.
Proof.
  unfold_gram. induction B as [|[b1 b2] B IH]; simpl in *; [lra|]. rewrite IH. lra.
Qed.

Lemma sum_squares_nonneg v : 0 <= Rsum (List.map (fun t => t * t) v).
Proof.
  unfold Rsum. induction v as [|t v IH]; simpl; [lra|]. nra.
Qed.

Lemma sum_squares_zero v :
  Rsum (List.map (fun t => t * t) v) = 0 -> Forall (fun t => t = 0) v.
Proof.
  induction v as [|t v IH]; intros H; constructor.
  - pose proof (sum_squares_nonneg v). unfold Rsum in *. simpl in H. nra.
  - apply IH. pose proof (sum_squares_nonneg v). unfold Rsum in *. simpl in H. nra.
Qed.

(** Equality in the Cauchy-Schwarz inequality: a vanishing Gram
    determinant makes the columns dependent. *)
Lemma gram_det_zero_dependent B : gram_det B = 0 -> dependent B.
Proof.
  intros Hdet.
  assert (Hq : forall p q, Forall (fun r => p * r.1 + q * r.2 = 0) B <->
                 Forall (fun t => t = 0) (List.map (fun b => b.1 * p + b.2 * q) B)).
  { intros p q. rewrite Forall_fmap. apply Forall_proper; [|done].
    intros [r1 r2]; simpl. split; intros; lra. }
  destruct (Req_dec_T (gram11 B) 0) as [H11|H11].
  - exists 1, 0. split; [left; lra|]. apply Hq, sum_squares_zero.
    rewrite sum_squares_matvec. rewrite H11. lra.
  - exists (gram12 B), (- gram11 B). split; [right; lra|]. apply Hq, sum_squares_zero.
    rewrite sum_squares_matvec. unfold gram_det in Hdet. nra.
Qed.

Lemma independent_gram_det B : ~ dependent B -> gram_det B <> 0.
Proof. intros Hind Hdet. by apply Hind, gram_det_zero_dependent. Qed.

(** On a full-rank matrix the normal equations recover the coordinates. *)
Lemma lstsq_normal_matvec B x y :
  gram_det B <> 0 ->
  lstsq_normal B (List.map (fun b => b.1 * x + b.2 * y) B) = [x; y].
Proof.
  intros Hdet. unfold lstsq_normal.
  rewrite dot_col1_matvec, dot_col2_matvec.
  f_equal; [|f_equal]; unfold gram_det in *; field; exact Hdet.
Qed.

(** With orthonormal columns the transpose recovers the coordinates. *)
Lemma tmatvec_matvec U x y :
  orthonormal U ->
  tmatvec U (List.map (fun b => b.1 * x + b.2 * y) U) = Return [x; y].
Proof.
  intros (H11 & H12 & H22). unfold tmatvec.
  rewrite length_map. destruct (decide (length U = length U)); [|done].
  rewrite dot_col1_matvec, dot_col2_matvec, H11, H12, H22.
  do 2 f_equal; [lra|f_equal; lra].
Qed.

Lemma vsub_vadd u a :
  length u = length a ->
  vadd u a = Return (zip_with Rplus u a) /\
  vsub (zip_with Rplus u a) a = Return u.
Proof.
  intros Hlen. unfold vadd, vsub. rewrite zip_with_length_eq by done.
  destruct (decide (length u = length a)); [|done]. split; [done|]. f_equal.
  clear -Hlen. revert a Hlen. induction u as [|t u IH]; intros [|s a] Hlen; simpl in *;
    try done. rewrite IH by lia. f_equal. lra.
Qed.

(** The rescaling of [project] undoes the rescaling of [map]. *)
Lemma rescale_rms (D : nat) c :
  (0 < D)%nat ->
  List.map (fun t => t / sqrt (INR D) * sqrt 2)
    (List.map (fun t => t / sqrt 2 * sqrt (INR D)) c) = c.
Proof.
  intros HD.
  assert (0 < sqrt (INR D)) by (apply sqrt_lt_R0, lt_0_INR; lia).
  assert (0 < sqrt 2) by (apply sqrt_lt_R0; lra).
  induction c as [|t c IH]; simpl; [done|]. rewrite IH. f_equal. field. lra.
Qed.

End LinearAlgebra.

(** ** ParamProjector: project after map *)

Section ProjectorFacts.
Local Open Scope R_scope.
Variable lstsq : mat2 -> vec -> vec.
Variable svd_U : mat2 -> mat2.

Lemma matvec_pair B x y :
  matvec B [x; y] = Return (List.map (fun b => b.1 * x + b.2 * y) B).
Proof. reflexivity. Qed.

(** For a projector whose basis is invertible on the plane (orthonormal
    under an orthogonal scale, of full rank otherwise), [project] undoes
    [map], whether or not the affine point takes part. *)
Lemma losslandscape_project_map (P : Losslandscape.ParamProjector) x y (b : bool) :
  lstsq_spec lstsq ->
  length (Losslandscape.affine P) = length (Losslandscape.basis P) ->
  (0 < Losslandscape.dim P)%nat ->
  (Losslandscape.scale P ∈ Losslandscape.ortho_options ->
     orthonormal (Losslandscape.basis P)) ->
  (Losslandscape.scale P ∉ Losslandscape.ortho_options ->
     gram_det (Losslandscape.basis P) <> 0) ->
  exists v, Losslandscape.map P [x; y] b = Return v /\
            Losslandscape.project lstsq P v b = Return [x; y].
Proof.
  intros Hls Hlen Hdim Hortho Hrank.
  destruct P as [ctr scl D aff B]; simpl in *.
  unfold Losslandscape.map, Losslandscape.project.
  cbn [Losslandscape.scale Losslandscape.dim Losslandscape.affine Losslandscape.basis].
  set (c' := if decide (scl = Some "rms_ortho")
             then List.map (fun t => t / sqrt 2 * sqrt (INR D)) [x; y] else [x; y]).
  assert (Hc' : exists x' y', c' = [x'; y']).
  { unfold c'. destruct (decide (scl = Some "rms_ortho")); simpl; eauto. }
  destruct Hc' as (x' & y' & Hc'). rewrite Hc', matvec_pair.
  set (u := List.map (fun b0 => b0.1 * x' + b0.2 * y') B).
  assert (Hu : length u = length aff) by (unfold u; by rewrite length_map).
  assert (Hback : (if decide (scl ∈ Losslandscape.ortho_options)
                   then tmatvec B u else Losslandscape.lstsq_solution lstsq B u)
                  = Return [x'; y']).
  { destruct (decide (scl ∈ Losslandscape.ortho_options)) as [Ho|Ho].
    - by apply tmatvec_matvec, Hortho.
    - unfold Losslandscape.lstsq_solution.
      destruct (decide (length B = length u)) as [Hl|Hl]; [|congruence].
      rewrite (Hls B u Hl (Hrank Ho)). f_equal. by apply lstsq_normal_matvec, Hrank. }
  assert (Hres : (if decide (scl = Some "rms_ortho")
                  then List.map (fun t => t / sqrt (INR D) * sqrt 2) [x'; y']
                  else [x'; y']) = [x; y]).
  { rewrite <- Hc'. unfold c'. destruct (decide (scl = Some "rms_ortho")); [|done].
    by apply rescale_rms. }
  destruct b.
  - destruct (vsub_vadd u aff Hu) as [Ha Hs].
    exists (zip_with Rplus u aff). unfold mbind, outcome_bind, bind.
    rewrite Ha. split; [done|]. rewrite Hs. cbv beta iota. rewrite Hback.
    cbv beta iota. by rewrite Hres.
  - exists u. unfold mbind, outcome_bind, bind. split; [done|]. cbv beta iota.
    rewrite Hback. cbv beta iota. by rewrite Hres.
Qed.

(** *** What the constructor builds from three vectors of one length *)

Lemma as_vector_vector v : as_vector (vector v) = Return v.
Proof. unfold as_vector, vector; simpl. by destruct (decide _). Qed.

Lemma sub_column_rows (v0 v1 v2 a : vec) :
  length v1 = length v0 -> length v2 = length v0 -> length a = length v0 ->
  sub_column (zip v1 v2) a
  = Return (zip (zip_with Rminus v1 a) (zip_with Rminus v2 a)).
Proof.
  intros H1 H2 Ha. unfold sub_column.
  rewrite length_zip, H1, H2, Nat.min_id, Ha. destruct (decide _); [|done]. f_equal.
  clear -H1 H2 Ha. revert v1 v2 a H1 H2 Ha.
  induction v0 as [|t v0 IH]; intros [|t1 v1] [|t2 v2] [|s a] H1 H2 Ha; simpl in *;
    try done. f_equal. apply IH; lia.
Qed.

(** Subtracting the mean instead of [v0]: an invertible change of columns. *)
Lemma mean_rows (v0 v1 v2 : vec) :
  length v1 = length v0 -> length v2 = length v0 ->
  let m := List.map (fun t => t / 3) (zip_with Rplus (zip_with Rplus v0 v1) v2) in
  zip (zip_with Rminus v1 m) (zip_with Rminus v2 m)
  = List.map (fun r => ((2 * r.1 - r.2) / 3, (2 * r.2 - r.1) / 3)) (differences v0 v1 v2).
Proof.
  intros H1 H2. unfold differences. revert v1 v2 H1 H2.
  induction v0 as [|t v0 IH]; intros [|t1 v1] [|t2 v2] H1 H2; simpl in *; try done.
  f_equal; [f_equal; lra|]. apply IH; lia.
Qed.

Lemma dependent_mean_rows (B : mat2) :
  dependent (List.map (fun r => ((2 * r.1 - r.2) / 3, (2 * r.2 - r.1) / 3)) B) ->
  dependent B.
Proof.
  intros (a & b & Hab & Hrows).
  exists ((2 * a - b) / 3), ((2 * b - a) / 3). split.
  - destruct (Req_dec_T ((2 * a - b) / 3) 0) as [Ha|Ha]; [|by left].
    right. intros Hb. destruct Hab as [Hab|Hab]; apply Hab; lra.
  - rewrite Forall_fmap in Hrows. eapply Forall_impl; [exact Hrows|].
    intros [r1 r2]; simpl. intros; lra.
Qed.

(** Non-collinear points live in dimension two at least. *)
Lemma noncollinear_dim (v0 v1 v2 : vec) :
  length v1 = length v0 -> length v2 = length v0 ->
  ~ collinear v0 v1 v2 -> (2 <= length v0)%nat.
Proof.
  intros H1 H2 Hnc. destruct (decide (2 <= length v0)%nat) as [|Hsmall]; [done|].
  exfalso. apply Hnc. unfold collinear. apply gram_det_zero_dependent.
  destruct v0 as [|t0 [|t0' v0]], v1 as [|t1 [|t1' v1]], v2 as [|t2 [|t2' v2]];
    simpl in *; try lia;
    unfold differences, gram_det, gram11, gram12, gram22, dot, Rsum, col1, col2;
    simpl; lra.
Qed.

End ProjectorFacts.

(** ** ParamProjector: the constructor on three vectors of one length *)

Section InitFacts.
Local Open Scope R_scope.
Variable lstsq : mat2 -> vec -> vec.
Variable svd_U : mat2 -> mat2.

Lemma tdim_vector v : tdim (vector v) = 1%nat.
Proof. reflexivity. Qed.

Lemma numel_vector v : numel (vector v) = length v.
Proof. unfold numel, vector; simpl. lia. Qed.

(** The plane before recentring: [v0] or the mean as affine point, and
    columns that are independent when the points are not collinear. *)
Lemma centered_spec (center : option string) (v0 v1 v2 : vec) :
  length v1 = length v0 -> length v2 = length v0 ->
  ~ collinear v0 v1 v2 ->
  exists ab, Losslandscape.centered center v0 v1 v2 = Return ab /\
             length ab.1 = length v0 /\ length ab.2 = length v0 /\
             ~ dependent ab.2 /\
             (center <> Some "mean" -> ab = (v0, differences v0 v1 v2)).
Proof.
  intros H1 H2 Hnc. unfold Losslandscape.centered.
  assert (Hst : stack2 v1 v2 = Return (zip v1 v2)).
  { unfold stack2. destruct (decide _); [done|lia]. }
  destruct (decide (center = Some "mean")) as [Hm|Hm].
  - unfold vadd. rewrite decide_True by lia. cbn [mbind outcome_bind bind].
    rewrite decide_True by (rewrite length_zip_with; lia). cbn [mbind outcome_bind bind].
    rewrite Hst. cbn [mbind outcome_bind bind].
    rewrite (sub_column_rows v0) by (rewrite ?length_map, ?length_zip_with; lia).
    cbn [mbind outcome_bind bind]. eexists; split; [reflexivity|]. simpl.
    rewrite length_map, length_zip, !length_zip_with, length_map, !length_zip_with.
    repeat split; try lia.
    + rewrite mean_rows by done. intros Hd. by apply Hnc, dependent_mean_rows.
    + done.
  - cbn [mbind outcome_bind bind]. rewrite Hst. cbn [mbind outcome_bind bind].
    rewrite (sub_column_rows v0) by done. cbn [mbind outcome_bind bind].
    eexists; split; [reflexivity|]. simpl.
    rewrite length_zip, !length_zip_with. repeat split; try lia; done.
Qed.

(** The plane the constructor arrives at (before any SVD). *)
Lemma plane_spec (center : option string) (v0 v1 v2 : vec) :
  lstsq_spec lstsq ->
  length v1 = length v0 -> length v2 = length v0 ->
  ~ collinear v0 v1 v2 ->
  exists ab, Losslandscape.plane lstsq center v0 v1 v2 = Return ab /\
             length ab.1 = length v0 /\ length ab.2 = length v0 /\
             (center <> Some "minnorm" -> ~ dependent ab.2).
Proof.
  intros Hls H1 H2 Hnc. unfold Losslandscape.plane.
  destruct (centered_spec center v0 v1 v2 H1 H2 Hnc) as ([a B] & Hc & Ha & HB & Hind & _).
  rewrite Hc. cbn [mbind outcome_bind bind]. unfold Losslandscape.recentered.
  simpl in Ha, HB, Hind. cbn [fst snd].
  destruct (decide (center = Some "minnorm")) as [Hm|Hm]; [|by eexists].
  unfold Losslandscape.lstsq_solution, vneg.
  rewrite decide_True by (rewrite length_map; lia). cbn [mbind outcome_bind bind].
  rewrite (Hls B); [|rewrite length_map; lia|by apply independent_gram_det].
  unfold lstsq_normal. rewrite matvec_pair. cbn [mbind outcome_bind bind].
  unfold vadd. rewrite decide_True by (rewrite length_map; lia).
  cbn [mbind outcome_bind bind].
  unfold sub_column. rewrite decide_True by (by rewrite length_map).
  cbn [mbind outcome_bind bind]. eexists; split; [reflexivity|]. simpl.
  rewrite !length_zip_with, length_map. repeat split; try lia. done.
Qed.

(** On 1-D tensors and recognised options the constructor is the plane
    followed by the optional SVD. *)
Lemma losslandscape_init_vectors (v0 v1 v2 : vec) (center scale : option string) :
  center ∈ Losslandscape.center_options -> scale ∈ Losslandscape.scale_options ->
  Losslandscape.__init__ lstsq svd_U (vector v0) (vector v1) (vector v2) center scale =
  (ab ← Losslandscape.plane lstsq center v0 v1 v2;
   basis ← (if decide (scale ∈ Losslandscape.ortho_options)
            then Losslandscape.svd_left svd_U ab.2 else Return ab.2);
   Return {| Losslandscape.center := center; Losslandscape.scale := scale;
             Losslandscape.dim := length v0;
             Losslandscape.affine := ab.1; Losslandscape.basis := basis |}).
Proof.
  intros Hc Hs. unfold Losslandscape.__init__.
  rewrite !tdim_vector. rewrite decide_False by lia.
  rewrite decide_False by (by intros H; apply H).
  rewrite decide_False by (by intros H; apply H).
  rewrite !as_vector_vector. cbn [mbind outcome_bind bind].
  by rewrite numel_vector.
Qed.

Lemma paramplane_init_vectors (v0 v1 v2 : vec) (center scale : option string) :
  center ∈ Paramplane.center_options -> scale ∈ Paramplane.scale_options ->
  Paramplane.__init__ lstsq svd_U (vector v0) (vector v1) (vector v2) center scale =
  (ab ← Paramplane.plane lstsq center v0 v1 v2;
   bi ← Paramplane.scaled lstsq svd_U scale ab;
   Return {| Paramplane.center := center; Paramplane.scale := scale;
             Paramplane.dim := length v0;
             Paramplane.affine := ab.1; Paramplane.basis := bi.1;
             Paramplane.affine_inv := bi.2 |}).
Proof.
  intros Hc Hs. unfold Paramplane.__init__.
  rewrite decide_False by (by intros H; apply H).
  rewrite decide_False by (by intros H; apply H).
  rewrite !as_vector_vector. cbn [mbind outcome_bind bind].
  by rewrite numel_vector.
Qed.

Lemma paramplane_plane_eq : Paramplane.plane = Losslandscape.plane.
Proof. reflexivity. Qed.

End InitFacts.

(** ** Round trip, orthonormal basis and RMS scaling *)

Section RoundTrip.
Local Open Scope R_scope.

(** C2, amended: [project] undoes [map] for every non-collinear triple,
    every centre and scale policy, every coordinate and both values of
    [is_position], provided that under centre [minnorm] with a scale that
    is not orthogonal the recentred basis still has independent columns.
    The SVD contract is needed only where the SVD is called. *)
Theorem project_map_roundtrip (lstsq : mat2 -> vec -> vec) (svd_U : mat2 -> mat2)
    (v0 v1 v2 : vec) (center scale : option string) (x y : R) (b : bool) :
  lstsq_spec lstsq ->
  length v1 = length v0 -> length v2 = length v0 ->
  ~ collinear v0 v1 v2 ->
  center ∈ Losslandscape.center_options ->
  scale ∈ Losslandscape.scale_options ->
  (scale ∈ Losslandscape.ortho_options ->
     forall ab, Losslandscape.plane lstsq center v0 v1 v2 = Return ab ->
                svd_spec_at svd_U ab.2) ->
  (center = Some "minnorm" -> scale ∉ Losslandscape.ortho_options ->
     forall ab, Losslandscape.plane lstsq center v0 v1 v2 = Return ab ->
                ~ dependent ab.2) ->
  exists P v,
    Losslandscape.__init__ lstsq svd_U (vector v0) (vector v1) (vector v2) center scale
      = Return P /\
    Losslandscape.map P [x; y] b = Return v /\
    Losslandscape.project lstsq P v b = Return [x; y].
Proof.
  intros Hls H1 H2 Hnc Hc Hs Hsvd Hmin.
  pose proof (noncollinear_dim v0 v1 v2 H1 H2 Hnc) as HD.
  destruct (plane_spec lstsq center v0 v1 v2 Hls H1 H2 Hnc) as ([a B] & Hp & Ha & HB & Hind).
  simpl in Ha, HB, Hind.
  rewrite losslandscape_init_vectors by done. rewrite Hp. cbn [mbind outcome_bind bind fst snd].
  destruct (decide (scale ∈ Losslandscape.ortho_options)) as [Ho|Ho].
  - destruct (Hsvd Ho _ Hp) as [HUlen HU]. simpl in HUlen, HU.
    unfold Losslandscape.svd_left. rewrite decide_True by lia.
    cbn [mbind outcome_bind bind].
    set (P := {| Losslandscape.center := center; Losslandscape.scale := scale;
                 Losslandscape.dim := length v0; Losslandscape.affine := a;
                 Losslandscape.basis := svd_U B |}).
    destruct (losslandscape_project_map lstsq P x y b) as (v & Hm & Hpr); simpl;
      try done; try lia.
    by exists P, v.
  - set (P := {| Losslandscape.center := center; Losslandscape.scale := scale;
                 Losslandscape.dim := length v0; Losslandscape.affine := a;
                 Losslandscape.basis := B |}).
    destruct (losslandscape_project_map lstsq P x y b) as (v & Hm & Hpr); simpl;
      try done; try lia.
    { intros _. apply independent_gram_det.
      destruct (decide (center = Some "minnorm")) as [Hmn|Hmn].
      - exact (Hmin Hmn Ho _ Hp).
      - by apply Hind. }
    by exists P, v.
Qed.

Lemma lstsq_normal_meets_spec : lstsq_spec lstsq_normal.
Proof. by intros B v _ _. Qed.

Lemma project_map_roundtrip_witness :
  exists P v,
    Losslandscape.__init__ lstsq_normal (fun B => B)
      (vector [1; 0; 1]) (vector [0; 1; 1]) (vector [1; 1; 1]) (Some "minnorm") None
      = Return P /\
    Losslandscape.map P [3; 4] true = Return v /\
    Losslandscape.project lstsq_normal P v true = Return [3; 4].
Proof.
  apply (project_map_roundtrip lstsq_normal (fun B => B)
           [1; 0; 1] [0; 1; 1] [1; 1; 1] (Some "minnorm") None 3 4 true).
  - exact lstsq_normal_meets_spec.
  - reflexivity.
  - reflexivity.
  - intros (a & b & Hab & Hrows). unfold differences in Hrows; simpl in Hrows.
    apply Forall_cons in Hrows as [Hr1 Hrows]. apply Forall_cons in Hrows as [Hr2 _].
    simpl in Hr1, Hr2. destruct Hab as [Hab|Hab]; apply Hab; lra.
  - compute_done.
  - compute_done.
  - intros Hs. exfalso. revert Hs. compute_done.
  - intros _ _ ab Hab.
    unfold Losslandscape.plane, Losslandscape.centered, Losslandscape.recentered,
      Losslandscape.lstsq_solution, lstsq_normal, stack2, sub_column, vadd, vneg in Hab.
    simpl in Hab. injection Hab as <-. simpl.
    intros (a & b & Hab & Hrows).
    apply Forall_cons in Hrows as [Hr1 Hrows]. apply Forall_cons in Hrows as [Hr2 _].
    simpl in Hr1, Hr2. unfold_gram. simpl in Hr1, Hr2.
    destruct Hab as [Hab|Hab]; apply Hab; lra.
Defined.

(** C2 as stated fails: the points (0,1,1), (1,0,1), (-1,0,1) are not
    collinear, yet the point of their plane closest to the origin,
    (0,0,1), lies on the line through the last two. Centre [minnorm]
    with no orthogonal scale then leaves the basis columns (1,0,0) and
    (-1,0,0): the coordinates (1,1) and (0,0) map to the same vector, so
    whatever least-squares routine is used, [project] cannot return both. *)
Lemma roundtrip_fails_after_recentring :
  lstsq_spec lstsq_normal /\
  ~ collinear [0; 1; 1] [1; 0; 1] [-1; 0; 1] /\
  forall (lstsq : mat2 -> vec -> vec) (svd_U : mat2 -> mat2),
    lstsq_spec lstsq ->
    exists P,
      Losslandscape.__init__ lstsq svd_U (vector [0; 1; 1]) (vector [1; 0; 1])
        (vector [-1; 0; 1]) (Some "minnorm") None = Return P /\
      exists c v, length c = 2%nat /\
                  Losslandscape.map P c true = Return v /\
                  Losslandscape.project lstsq P v true <> Return c.
Proof.
  split; [exact lstsq_normal_meets_spec|]. split.
  { intros (a & b & Hab & Hrows). unfold differences in Hrows; simpl in Hrows.
    apply Forall_cons in Hrows as [Hr1 Hrows]. apply Forall_cons in Hrows as [Hr2 _].
    simpl in Hr1, Hr2. destruct Hab as [Hab|Hab]; apply Hab; lra. }
  intros lstsq svd_U Hls.
  rewrite losslandscape_init_vectors by compute_done.
  unfold Losslandscape.plane, Losslandscape.centered.
  rewrite decide_False by discriminate.
  cbn [mbind outcome_bind bind].
  unfold stack2. rewrite decide_True by reflexivity. cbn [mbind outcome_bind bind].
  unfold sub_column at 1. rewrite decide_True by reflexivity.
  cbn [mbind outcome_bind bind zip zip_with fst snd].
  unfold Losslandscape.recentered. rewrite decide_True by reflexivity.
  cbn [fst snd].
  unfold Losslandscape.lstsq_solution. rewrite decide_True by reflexivity.
  cbn [mbind outcome_bind bind].
  assert (Ht : lstsq [(1 - 0, -1 - 0); (0 - 1, 0 - 1); (1 - 1, 1 - 1)] (vneg [0; 1; 1])
               = [1 / 2; 1 / 2]).
  { rewrite Hls; [|reflexivity|].
    - unfold lstsq_normal, gram_det, gram11, gram12, gram22, dot, Rsum, col1, col2; simpl.
      f_equal; [|f_equal]; lra.
    - unfold gram_det, gram11, gram12, gram22, dot, Rsum, col1, col2; simpl. lra. }
  rewrite Ht. rewrite matvec_pair. cbn [mbind outcome_bind bind List.map fst snd].
  unfold vadd. rewrite decide_True by reflexivity. cbn [mbind outcome_bind bind zip_with].
  unfold sub_column. rewrite decide_True by reflexivity.
  cbn [mbind outcome_bind bind zip_with fst snd].
  rewrite decide_False by compute_done.
  cbn [mbind outcome_bind bind fst snd].
  eexists; split; [reflexivity|].
  match goal with |- context [Losslandscape.map ?Q _ _] => set (P := Q) end.
  assert (Hm : exists v, Losslandscape.map P [1; 1] true = Return v /\
                         Losslandscape.map P [0; 0] true = Return v).
  { unfold Losslandscape.map, P.
    cbn [Losslandscape.scale Losslandscape.dim Losslandscape.affine Losslandscape.basis].
    rewrite !decide_False by discriminate. rewrite !matvec_pair.
    cbn [mbind outcome_bind bind List.map fst snd].
    unfold vadd. rewrite !decide_True by reflexivity. cbn [zip_with].
    eexists; split; [reflexivity|]. apply (f_equal Return).
    repeat (apply (f_equal2 cons); [lra|]). reflexivity. }
  destruct Hm as (v & Hm1 & Hm0).
  destruct (Losslandscape.project lstsq P v true) as [c| |] eqn:Hp.
  - destruct (List.list_eq_dec Req_dec_T c [1; 1]) as [->|Hne].
    + exists [0; 0], v. rewrite Hp. repeat split; [done|]. intros [=]; lra.
    + exists [1; 1], v. rewrite Hp. repeat split; [done|]. congruence.
  - exists [1; 1], v. rewrite Hp. by repeat split.
  - exists [1; 1], v. rewrite Hp. by repeat split.
Qed.

End RoundTrip.

(** ** The orthonormal basis and the RMS scale *)

Section Orthonormal.
Local Open Scope R_scope.

Lemma losslandscape_run_fixed lstsq (P : Losslandscape.ParamProjector) calls :
  Losslandscape.run lstsq P calls = P.
Proof.
  unfold Losslandscape.run. induction calls as [|m calls IH]; [done|].
  simpl. by destruct m.
Qed.

Lemma paramplane_run_fixed lstsq (P : Paramplane.ParamProjector) calls :
  Paramplane.run lstsq P calls = P.
Proof.
  unfold Paramplane.run. induction calls as [|m calls IH]; [done|].
  simpl. by destruct m.
Qed.

Lemma ortho_scale_option (scale : option string) :
  scale ∈ Losslandscape.ortho_options -> scale ∈ Losslandscape.scale_options.
Proof.
  unfold Losslandscape.ortho_options. intros H.
  apply elem_of_cons in H as [->|H]; [compute_done|].
  apply elem_of_cons in H as [->|H]; [compute_done|].
  by apply elem_of_nil in H.
Qed.

(** C5: a projector built with an orthogonal scale from non-collinear
    vectors has [basis.T @ basis = I(2)], in both drivers, and keeps that
    basis through any sequence of [project], [map] and [__call__]. *)
Theorem orthonormal_basis_kept (lstsq : mat2 -> vec -> vec) (svd_U : mat2 -> mat2)
    (v0 v1 v2 : vec) (center scale : option string) :
  lstsq_spec lstsq ->
  length v1 = length v0 -> length v2 = length v0 ->
  ~ collinear v0 v1 v2 ->
  center ∈ Losslandscape.center_options ->
  scale ∈ Losslandscape.ortho_options ->
  (forall ab, Losslandscape.plane lstsq center v0 v1 v2 = Return ab ->
              svd_spec_at svd_U ab.2) ->
  (exists P,
     Losslandscape.__init__ lstsq svd_U (vector v0) (vector v1) (vector v2) center scale
       = Return P /\
     forall calls, orthonormal (Losslandscape.basis (Losslandscape.run lstsq P calls))) /\
  (exists P,
     Paramplane.__init__ lstsq svd_U (vector v0) (vector v1) (vector v2) center scale
       = Return P /\
     forall calls, orthonormal (Paramplane.basis (Paramplane.run lstsq P calls))).
Proof.
  intros Hls H1 H2 Hnc Hc Ho Hsvd.
  pose proof (noncollinear_dim v0 v1 v2 H1 H2 Hnc) as HD.
  destruct (plane_spec lstsq center v0 v1 v2 Hls H1 H2 Hnc) as ([a B] & Hp & Ha & HB & _).
  simpl in Ha, HB. destruct (Hsvd _ Hp) as [HUlen HU]. simpl in HUlen, HU.
  split.
  - rewrite losslandscape_init_vectors by (try done; by apply ortho_scale_option).
    rewrite Hp. cbn [mbind outcome_bind bind fst snd].
    rewrite decide_True by done. unfold Losslandscape.svd_left.
    rewrite decide_True by lia. cbn [mbind outcome_bind bind].
    eexists; split; [reflexivity|]. intros calls.
    by rewrite losslandscape_run_fixed.
  - rewrite paramplane_init_vectors by (try done; by apply ortho_scale_option).
    rewrite paramplane_plane_eq, Hp. cbn [mbind outcome_bind bind fst snd].
    unfold Paramplane.scaled, Paramplane.lstsq_solution. cbn [fst snd].
    rewrite decide_True by lia. cbn [mbind outcome_bind bind].
    rewrite decide_True by done. unfold Paramplane.svd_left.
    rewrite decide_True by lia. cbn [mbind outcome_bind bind].
    unfold tmatvec. rewrite decide_True by lia. cbn [mbind outcome_bind bind fst snd].
    eexists; split; [reflexivity|]. intros calls.
    by rewrite paramplane_run_fixed.
Qed.

Lemma orthonormal_basis_kept_witness :
  (exists P,
     Losslandscape.__init__ lstsq_normal (fun _ => [(1, 0); (0, 1)])
       (vector [0; 0]) (vector [2; 0]) (vector [0; 1]) (Some "mean") (Some "l2_ortho")
       = Return P /\
     forall calls,
       orthonormal (Losslandscape.basis (Losslandscape.run lstsq_normal P calls))) /\
  (exists P,
     Paramplane.__init__ lstsq_normal (fun _ => [(1, 0); (0, 1)])
       (vector [0; 0]) (vector [2; 0]) (vector [0; 1]) (Some "mean") (Some "l2_ortho")
       = Return P /\
     forall calls,
       orthonormal (Paramplane.basis (Paramplane.run lstsq_normal P calls))).
Proof.
  apply (orthonormal_basis_kept lstsq_normal (fun _ => [(1, 0); (0, 1)])
           [0; 0] [2; 0] [0; 1] (Some "mean") (Some "l2_ortho")).
  - exact lstsq_normal_meets_spec.
  - reflexivity.
  - reflexivity.
  - intros (a & b & Hab & Hrows). unfold differences in Hrows; simpl in Hrows.
    apply Forall_cons in Hrows as [Hr1 Hrows]. apply Forall_cons in Hrows as [Hr2 _].
    simpl in Hr1, Hr2. destruct Hab as [Hab|Hab]; apply Hab; lra.
  - compute_done.
  - compute_done.
  - intros ab Hab. vm_compute in Hab. injection Hab as <-.
    split; [reflexivity|].
    unfold orthonormal, gram11, gram12, gram22, dot, Rsum, col1, col2; simpl.
    repeat split; lra.
Defined.

End Orthonormal.

Section RmsScale.
Local Open Scope R_scope.

Lemma rms_pair x y : rms [x; y] = sqrt ((x * x + y * y) / 2).
Proof. unfold rms, Rsum; simpl. f_equal. lra. Qed.

(** The root mean square of [U c] for an orthonormal [U] with [D] rows. *)
Lemma rms_matvec_orthonormal (U : mat2) x y :
  orthonormal U -> (0 < length U)%nat ->
  rms (List.map (fun b => b.1 * x + b.2 * y) U)
  = sqrt ((x * x + y * y) / INR (length U)).
Proof.
  intros (H11 & H12 & H22) HD. unfold rms.
  rewrite sum_squares_matvec, H11, H12, H22, length_map. f_equal. lra.
Qed.

(** C6: under [rms_ortho] the vector [map(c, is_position=False)] has
    the root mean square of [c]; [map] multiplies the coordinate by
    [sqrt(dim / 2)] before the basis, [project] multiplies by
    [sqrt(2 / dim)] after the transposed basis. *)
Theorem rms_ortho_preserves_rms (lstsq : mat2 -> vec -> vec) (svd_U : mat2 -> mat2)
    (v0 v1 v2 : vec) (center : option string) (x y : R) :
  lstsq_spec lstsq ->
  length v1 = length v0 -> length v2 = length v0 ->
  ~ collinear v0 v1 v2 ->
  center ∈ Losslandscape.center_options ->
  (forall ab, Losslandscape.plane lstsq center v0 v1 v2 = Return ab ->
              svd_spec_at svd_U ab.2) ->
  exists P v,
    Losslandscape.__init__ lstsq svd_U (vector v0) (vector v1) (vector v2)
      center (Some "rms_ortho") = Return P /\
    Losslandscape.map P [x; y] false = Return v /\
    rms v = rms [x; y] /\
    matvec (Losslandscape.basis P)
      [x * sqrt (INR (Losslandscape.dim P) / 2); y * sqrt (INR (Losslandscape.dim P) / 2)]
      = Return v /\
    forall w, Losslandscape.project lstsq P w false =
              (c ← tmatvec (Losslandscape.basis P) w;
               Return (List.map (fun t => t * sqrt (2 / INR (Losslandscape.dim P))) c)).
Proof.
  intros Hls H1 H2 Hnc Hc Hsvd.
  pose proof (noncollinear_dim v0 v1 v2 H1 H2 Hnc) as HD.
  destruct (plane_spec lstsq center v0 v1 v2 Hls H1 H2 Hnc) as ([a B] & Hp & Ha & HB & _).
  simpl in Ha, HB. destruct (Hsvd _ Hp) as [HUlen HU]. simpl in HUlen, HU.
  rewrite losslandscape_init_vectors by (try done; compute_done).
  rewrite Hp. cbn [mbind outcome_bind bind fst snd].
  rewrite decide_True by compute_done. unfold Losslandscape.svd_left.
  rewrite decide_True by lia. cbn [mbind outcome_bind bind].
  assert (HDpos : 0 < INR (length v0)) by (apply lt_0_INR; lia).
  assert (Hs2 : 0 < sqrt 2) by (apply sqrt_lt_R0; lra).
  assert (HsD : 0 < sqrt (INR (length v0))) by (by apply sqrt_lt_R0).
  assert (Hup : sqrt (INR (length v0) / 2) = sqrt (INR (length v0)) / sqrt 2).
  { apply sqrt_div_alt. lra. }
  assert (Hdown : sqrt (2 / INR (length v0)) = sqrt 2 / sqrt (INR (length v0))).
  { by apply sqrt_div_alt. }
  eexists; eexists; split; [reflexivity|].
  unfold Losslandscape.map, Losslandscape.project.
  cbn [Losslandscape.scale Losslandscape.dim Losslandscape.affine Losslandscape.basis].
  rewrite !decide_True by done. cbn [List.map]. rewrite matvec_pair.
  cbn [mbind outcome_bind bind]. split; [reflexivity|]. split; [|split].
  - rewrite rms_matvec_orthonormal by (try done; lia). rewrite rms_pair, HUlen, HB.
    f_equal.
    pose proof (sqrt_sqrt (INR (length v0)) (Rlt_le _ _ HDpos)) as HsqD.
    pose proof (sqrt_sqrt 2 ltac:(lra)) as Hsq2.
    assert (Hsq : forall t, t / sqrt 2 * sqrt (INR (length v0))
                            * (t / sqrt 2 * sqrt (INR (length v0)))
                            = t * t * INR (length v0) / 2).
    { intros t.
      replace (t / sqrt 2 * sqrt (INR (length v0)) * (t / sqrt 2 * sqrt (INR (length v0))))
        with (t * t * (sqrt (INR (length v0)) * sqrt (INR (length v0)))
              / (sqrt 2 * sqrt 2)) by (field; lra).
      by rewrite HsqD, Hsq2. }
    rewrite !Hsq. field. lra.
  - rewrite matvec_pair, Hup. apply (f_equal Return).
    apply map_ext. intros [b1 b2]; simpl. field. lra.
  - intros w. rewrite decide_True by compute_done.
    destruct (tmatvec (svd_U B) w) as [c| |]; cbn [mbind outcome_bind bind]; try done.
    apply (f_equal Return). apply map_ext. intros t. rewrite Hdown. field. lra.
Qed.

(** Eight parameters: the coordinate is rescaled by [sqrt (8 / 2) = 2]
    before the basis is applied. *)
Lemma rms_ortho_preserves_rms_witness :
  exists P v,
    Losslandscape.__init__ lstsq_normal
      (fun _ => [(1, 0); (0, 1); (0, 0); (0, 0); (0, 0); (0, 0); (0, 0); (0, 0)])
      (vector [0; 0; 0; 0; 0; 0; 0; 0]) (vector [2; 0; 0; 0; 0; 0; 0; 0])
      (vector [0; 1; 0; 0; 0; 0; 0; 0]) None (Some "rms_ortho") = Return P /\
    Losslandscape.dim P = 8%nat /\
    Losslandscape.map P [3; 4] false = Return v /\
    rms v = rms [3; 4] /\
    matvec (Losslandscape.basis P)
      [3 * sqrt (INR (Losslandscape.dim P) / 2); 4 * sqrt (INR (Losslandscape.dim P) / 2)]
      = Return v /\
    forall w, Losslandscape.project lstsq_normal P w false =
              (c ← tmatvec (Losslandscape.basis P) w;
               Return (List.map (fun t => t * sqrt (2 / INR (Losslandscape.dim P))) c)).
Proof.
  destruct (rms_ortho_preserves_rms lstsq_normal
              (fun _ => [(1, 0); (0, 1); (0, 0); (0, 0); (0, 0); (0, 0); (0, 0); (0, 0)])
              [0; 0; 0; 0; 0; 0; 0; 0] [2; 0; 0; 0; 0; 0; 0; 0] [0; 1; 0; 0; 0; 0; 0; 0]
              None 3 4) as (P & v & HP & Hmap & Hrms & Hmat & Hproj).
  - exact lstsq_normal_meets_spec.
  - reflexivity.
  - reflexivity.
  - intros (a & b & Hab & Hrows). unfold differences in Hrows; simpl in Hrows.
    apply Forall_cons in Hrows as [Hr1 Hrows]. apply Forall_cons in Hrows as [Hr2 _].
    simpl in Hr1, Hr2. destruct Hab as [Hab|Hab]; apply Hab; lra.
  - compute_done.
  - intros ab Hab. vm_compute in Hab. injection Hab as <-.
    split; [reflexivity|].
    unfold orthonormal, gram11, gram12, gram22, dot, Rsum, col1, col2; simpl.
    repeat split; lra.
  - exists P, v. split; [exact HP|]. split; [|done].
    revert HP. rewrite losslandscape_init_vectors by (try done; compute_done).
    destruct (Losslandscape.plane _ _ _ _ _) as [ab| |]; [|done..].
    cbn [mbind outcome_bind bind].
    destruct (if decide _ then _ else _) as [B| |]; [|done..].
    cbn [mbind outcome_bind bind]. by intros [= <-].
Defined.

End RmsScale.

(** ** The two drivers' projectors *)

Section TwoDrivers.
Local Open Scope R_scope.

(** Built from the same arguments, the two projectors hold the same
    scale, dimension, affine point and basis. *)
Lemma inits_agree lstsq svd_U vec0 vec1 vec2 center scale
    (Pl : Losslandscape.ParamProjector) (Pp : Paramplane.ParamProjector) :
  Losslandscape.__init__ lstsq svd_U vec0 vec1 vec2 center scale = Return Pl ->
  Paramplane.__init__ lstsq svd_U vec0 vec1 vec2 center scale = Return Pp ->
  Paramplane.scale Pp = Losslandscape.scale Pl /\ Losslandscape.scale Pl = scale /\
  Paramplane.dim Pp = Losslandscape.dim Pl /\ Losslandscape.dim Pl = numel vec0 /\
  Paramplane.affine Pp = Losslandscape.affine Pl /\
  Paramplane.basis Pp = Losslandscape.basis Pl.
Proof.
  unfold Losslandscape.__init__, Paramplane.__init__. intros Hl Hp.
  destruct (decide (1 < tdim vec0 ∨ 1 < tdim vec1 ∨ 1 < tdim vec2)%nat); [discriminate|].
  change Paramplane.center_options with Losslandscape.center_options in Hp.
  change Paramplane.scale_options with Losslandscape.scale_options in Hp.
  destruct (decide (center ∉ Losslandscape.center_options)); [discriminate|].
  destruct (decide (scale ∉ Losslandscape.scale_options)); [discriminate|].
  destruct (as_vector vec0) as [v0| |]; [|discriminate..].
  destruct (as_vector vec1) as [v1| |]; [|discriminate..].
  destruct (as_vector vec2) as [v2| |]; [|discriminate..].
  cbn [mbind outcome_bind bind] in Hl, Hp.
  rewrite paramplane_plane_eq in Hp.
  destruct (Losslandscape.plane lstsq center v0 v1 v2) as [[a B]| |]; [|discriminate..].
  cbn [mbind outcome_bind bind fst snd] in Hl, Hp.
  unfold Paramplane.scaled in Hp. cbn [fst snd] in Hp.
  destruct (Paramplane.lstsq_solution lstsq B a) as [ai| |]; [|discriminate..].
  cbn [mbind outcome_bind bind] in Hp.
  change Paramplane.ortho_options with Losslandscape.ortho_options in Hp.
  change Paramplane.svd_left with Losslandscape.svd_left in Hp.
  destruct (decide (scale ∈ Losslandscape.ortho_options)).
  - destruct (Losslandscape.svd_left svd_U B) as [U| |]; [|discriminate..].
    cbn [mbind outcome_bind bind] in Hl, Hp.
    destruct (tmatvec U a) as [ai'| |]; [|discriminate..].
    cbn [mbind outcome_bind bind fst snd] in Hp.
    injection Hl as <-. injection Hp as <-. done.
  - cbn [mbind outcome_bind bind fst snd] in Hl, Hp.
    injection Hl as <-. injection Hp as <-. done.
Qed.

(** C3, amended: for projectors built from the same arguments over a
    parameter space of dimension other than 2, paramplane's [P(c)] is
    [basis @ c'] and losslandscape's [P(c)] is [basis @ c' + affine],
    where [c'] is [c], rescaled by [sqrt(dim) / sqrt(2)] under
    [rms_ortho]: the materialised vectors differ by [affine]. *)
Theorem drivers_differ_by_affine (lstsq : mat2 -> vec -> vec) (svd_U : mat2 -> mat2)
    (vec0 vec1 vec2 : tensor) (center scale : option string)
    (Pl : Losslandscape.ParamProjector) (Pp : Paramplane.ParamProjector) (x y : R) :
  Losslandscape.__init__ lstsq svd_U vec0 vec1 vec2 center scale = Return Pl ->
  Paramplane.__init__ lstsq svd_U vec0 vec1 vec2 center scale = Return Pp ->
  numel vec0 <> 2%nat ->
  exists u,
    matvec (Losslandscape.basis Pl)
      (if decide (scale = Some "rms_ortho")
       then [x / sqrt 2 * sqrt (INR (numel vec0)); y / sqrt 2 * sqrt (INR (numel vec0))]
       else [x; y]) = Return u /\
    Paramplane.basis Pp = Losslandscape.basis Pl /\
    Paramplane.affine Pp = Losslandscape.affine Pl /\
    Paramplane.call_default lstsq Pp (vector [x; y]) = Return u /\
    Losslandscape.call_default lstsq Pl (vector [x; y])
      = vadd u (Losslandscape.affine Pl).
Proof.
  intros Hl Hp Hdim.
  destruct (inits_agree _ _ _ _ _ _ _ _ _ Hl Hp) as (Hs & Hs' & Hd & Hd' & Ha & Hb).
  unfold Paramplane.call_default, Losslandscape.call_default,
    Paramplane.__call__, Losslandscape.__call__.
  cbn [shape vector]. change (length [x; y]) with 2%nat.
  rewrite Hd, Hd'.
  rewrite !(decide_False (P := 2%nat = numel vec0)) by lia.
  rewrite !(decide_True (P := 2%nat = 2%nat)) by lia.
  rewrite !as_vector_vector. cbn [mbind outcome_bind bind].
  unfold Paramplane.map, Losslandscape.map. rewrite Hs, Hs', Hd, Hd', Hb.
  destruct (decide (scale = Some "rms_ortho")); cbn [List.map];
    rewrite !matvec_pair; cbn [mbind outcome_bind bind]; by eexists.
Qed.

Lemma drivers_differ_by_affine_witness :
  exists Pl Pp u,
    Losslandscape.__init__ lstsq_normal (fun B => B)
      (vector [0; 0; 5]) (vector [1; 0; 5]) (vector [0; 1; 5]) None None = Return Pl /\
    Paramplane.__init__ lstsq_normal (fun B => B)
      (vector [0; 0; 5]) (vector [1; 0; 5]) (vector [0; 1; 5]) None None = Return Pp /\
    Paramplane.call_default lstsq_normal Pp (vector [3; 4]) = Return u /\
    Losslandscape.call_default lstsq_normal Pl (vector [3; 4])
      = vadd u (Losslandscape.affine Pl).
Proof.
  destruct (Losslandscape.__init__ lstsq_normal (fun B => B)
              (vector [0; 0; 5]) (vector [1; 0; 5]) (vector [0; 1; 5]) None None)
    as [Pl| |] eqn:Hl; [|vm_compute in Hl; discriminate..].
  destruct (Paramplane.__init__ lstsq_normal (fun B => B)
              (vector [0; 0; 5]) (vector [1; 0; 5]) (vector [0; 1; 5]) None None)
    as [Pp| |] eqn:Hp; [|vm_compute in Hp; discriminate..].
  destruct (drivers_differ_by_affine lstsq_normal (fun B => B)
              (vector [0; 0; 5]) (vector [1; 0; 5]) (vector [0; 1; 5]) None None
              Pl Pp 3 4 Hl Hp) as (u & _ & _ & _ & Hcp & Hcl).
  - vm_compute. lia.
  - by exists Pl, Pp, u.
Defined.

(** C3 as stated fails twice. In a two-dimensional parameter space a
    coordinate has the length of a parameter vector and [__call__]
    projects it instead of mapping it; and under [rms_ortho] the basis is
    applied to the rescaled coordinate, here twice the coordinate. *)
Lemma call_is_not_basis_times_coordinate :
  (exists Pl Pp,
     Losslandscape.__init__ lstsq_normal (fun B => B)
       (vector [1; 1]) (vector [3; 1]) (vector [1; 3]) None None = Return Pl /\
     Paramplane.__init__ lstsq_normal (fun B => B)
       (vector [1; 1]) (vector [3; 1]) (vector [1; 3]) None None = Return Pp /\
     Paramplane.call_default lstsq_normal Pp (vector [2; 4]) = Return [1; 2] /\
     matvec (Paramplane.basis Pp) [2; 4] = Return [4; 8] /\
     Losslandscape.call_default lstsq_normal Pl (vector [2; 4]) = Return [1 / 2; 3 / 2] /\
     (v ← matvec (Losslandscape.basis Pl) [2; 4]; vadd v (Losslandscape.affine Pl))
       = Return [5; 9]) /\
  (exists Pp,
     Paramplane.__init__ lstsq_normal
       (fun _ => [(1, 0); (0, 1); (0, 0); (0, 0); (0, 0); (0, 0); (0, 0); (0, 0)])
       (vector [0; 0; 0; 0; 0; 0; 0; 0]) (vector [2; 0; 0; 0; 0; 0; 0; 0])
       (vector [0; 1; 0; 0; 0; 0; 0; 0]) None (Some "rms_ortho") = Return Pp /\
     Paramplane.call_default lstsq_normal Pp (vector [1; 0])
       = Return [2; 0; 0; 0; 0; 0; 0; 0] /\
     matvec (Paramplane.basis Pp) [1; 0] = Return [1; 0; 0; 0; 0; 0; 0; 0]).
Proof.
  split.
  - exists {| Losslandscape.center := None; Losslandscape.scale := None;
              Losslandscape.dim := 2; Losslandscape.affine := [1; 1];
              Losslandscape.basis := [(3 - 1, 1 - 1); (1 - 1, 3 - 1)] |},
           {| Paramplane.center := None; Paramplane.scale := None;
              Paramplane.dim := 2; Paramplane.affine := [1; 1];
              Paramplane.basis := [(3 - 1, 1 - 1); (1 - 1, 3 - 1)];
              Paramplane.affine_inv :=
                lstsq_normal [(3 - 1, 1 - 1); (1 - 1, 3 - 1)] [1; 1] |}.
    split; [reflexivity|]. split; [reflexivity|].
    unfold Paramplane.call_default, Losslandscape.call_default,
      Paramplane.__call__, Losslandscape.__call__, Paramplane.project, Losslandscape.project,
      Paramplane.lstsq_solution, Losslandscape.lstsq_solution, lstsq_normal,
      gram_det, gram11, gram12, gram22, dot, Rsum, col1, col2, vsub; simpl.
    repeat split; apply (f_equal Return);
      repeat (apply (f_equal2 cons); [lra|]); reflexivity.
  - exists {| Paramplane.center := None; Paramplane.scale := Some "rms_ortho";
              Paramplane.dim := 8; Paramplane.affine := [0; 0; 0; 0; 0; 0; 0; 0];
              Paramplane.basis :=
                [(1, 0); (0, 1); (0, 0); (0, 0); (0, 0); (0, 0); (0, 0); (0, 0)];
              Paramplane.affine_inv :=
                [dot (col1 [(1, 0); (0, 1); (0, 0); (0, 0); (0, 0); (0, 0); (0, 0); (0, 0)])
                     [0; 0; 0; 0; 0; 0; 0; 0];
                 dot (col2 [(1, 0); (0, 1); (0, 0); (0, 0); (0, 0); (0, 0); (0, 0); (0, 0)])
                     [0; 0; 0; 0; 0; 0; 0; 0]] |}.
    split; [reflexivity|].
    assert (H8 : sqrt 8 = 2 * sqrt 2).
    { replace 8 with (2 * 2 * 2) by lra. rewrite sqrt_mult by lra.
      by rewrite sqrt_square by lra. }
    assert (Hs2 : 0 < sqrt 2) by (apply sqrt_lt_R0; lra).
    unfold Paramplane.call_default, Paramplane.__call__, Paramplane.map; simpl.
    replace (1 + 1 + 1 + 1 + 1 + 1 + 1 + 1) with 8 by lra. rewrite H8.
    split; apply (f_equal Return);
      repeat (apply (f_equal2 cons); [try lra; field; lra|]); reflexivity.
Qed.

End TwoDrivers.

(** ** The constructor's shape check *)

Section ShapeCheck.
Variable lstsq : mat2 -> vec -> vec.
Variable svd_U : mat2 -> mat2.

(** The only [ValueError]s paramplane's constructor raises are the two
    about the options. *)
Lemma paramplane_init_value_errors vec0 vec1 vec2 center scale msg :
  Paramplane.__init__ lstsq svd_U vec0 vec1 vec2 center scale = Raise (ValueError msg) ->
  msg = Paramplane.option_message center "center" \/
  msg = Paramplane.option_message scale "scale".
Proof.
  unfold Paramplane.__init__, Paramplane.plane, Paramplane.centered, Paramplane.recentered,
    Paramplane.scaled, Paramplane.lstsq_solution, Paramplane.svd_left, as_vector,
    vadd, sub_column, stack2, matvec, tmatvec.
  intros H.
  repeat (case_decide || case_match || (cbn [mbind outcome_bind bind fst snd] in H));
    simplify_eq; auto.
Qed.

Lemma losslandscape_init_value_errors vec0 vec1 vec2 center scale msg :
  Losslandscape.__init__ lstsq svd_U vec0 vec1 vec2 center scale = Raise (ValueError msg) ->
  (msg = Losslandscape.dims_message vec0 /\
   (1 < tdim vec0 \/ 1 < tdim vec1 \/ 1 < tdim vec2)) \/
  msg = Losslandscape.option_message center "center" \/
  msg = Losslandscape.option_message scale "scale".
Proof.
  unfold Losslandscape.__init__, Losslandscape.plane, Losslandscape.centered,
    Losslandscape.recentered, Losslandscape.lstsq_solution, Losslandscape.svd_left,
    as_vector, vadd, sub_column, stack2, matvec, tmatvec.
  intros H.
  repeat (case_decide || case_match || (cbn [mbind outcome_bind bind fst snd] in H));
    simplify_eq; auto.
Qed.

Lemma option_message_not_dims value argument vec0 :
  Losslandscape.option_message value argument <> Losslandscape.dims_message vec0.
Proof. unfold Losslandscape.option_message, Losslandscape.dims_message. simpl. discriminate. Qed.

(** losslandscape: the constructor raises its shape error exactly when
    one of the three tensors has more than one dimension, before anything
    else is looked at; no projector is returned then. *)
Theorem losslandscape_init_shape_error_iff vec0 vec1 vec2 center scale :
  Losslandscape.__init__ lstsq svd_U vec0 vec1 vec2 center scale
    = Raise (ValueError (Losslandscape.dims_message vec0))
  <-> (1 < tdim vec0 \/ 1 < tdim vec1 \/ 1 < tdim vec2).
Proof.
  split.
  - intros H. apply losslandscape_init_value_errors in H as [[_ H]|[H|H]]; [done|..];
      symmetry in H; by apply option_message_not_dims in H.
  - intros H. unfold Losslandscape.__init__. by rewrite decide_True.
Qed.

(** C7: on three 2 x 2 tensors losslandscape raises the shape error.
    paramplane has no such check: with an unknown centre option it raises
    the option error instead, and it never raises the shape error. *)
Theorem paramplane_init_has_no_shape_check :
  Losslandscape.__init__ lstsq svd_U (Tensor [2; 2] [1; 2; 3; 4]%R) (Tensor [2; 2] [1; 2; 3; 4]%R)
    (Tensor [2; 2] [1; 2; 3; 4]%R) (Some "sum") None
    = Raise (ValueError "Vectors need to be 1D, but are of dims 2, 2, 2.") /\
  Paramplane.__init__ lstsq svd_U (Tensor [2; 2] [1; 2; 3; 4]%R) (Tensor [2; 2] [1; 2; 3; 4]%R)
    (Tensor [2; 2] [1; 2; 3; 4]%R) (Some "sum") None
    = Raise (ValueError "Unkown option 'sum' for argument 'center'.") /\
  forall vec0 vec1 vec2 center scale,
    Paramplane.__init__ lstsq svd_U vec0 vec1 vec2 center scale
    <> Raise (ValueError (Losslandscape.dims_message vec0)).
Proof.
  split; [reflexivity|]. split; [reflexivity|].
  intros vec0 vec1 vec2 center scale H.
  apply paramplane_init_value_errors in H as [H|H];
    symmetry in H; by apply option_message_not_dims in H.
Qed.

End ShapeCheck.

(** ** Empty chunks *)

(** C4: with one coordinate and two jobs paramplane hands the second job
    an empty chunk; losslandscape drops it. *)
Theorem paramplane_hands_out_empty_chunk :
  Paramplane.build_chunks [0%Z] [0%Z] 2 = Return [[(0%Z, 0%Z)]; []] /\
  Losslandscape.build_chunks [0%Z] [0%Z] 2 = Return [[(0%Z, 0%Z)]].
Proof. split; reflexivity. Qed.

(** paramplane passes on every chunk of the split, [num_jobs] of them. *)
Lemma paramplane_build_chunks_spec {A : Type} (X Y : list A) (num_jobs : Z) chunks :
  Paramplane.build_chunks X Y num_jobs = Return chunks ->
  tensor_split (Grid.coords_of X Y) num_jobs = Return chunks /\
  length chunks = Z.to_nat num_jobs /\
  concat chunks = Grid.coords_of X Y.
Proof.
  unfold Paramplane.build_chunks. intros Hb.
  destruct (Z.leb_spec num_jobs 0) as [Hn|Hn].
  { rewrite tensor_split_raises in Hb by done. discriminate. }
  destruct (tensor_split_spec (Grid.coords_of X Y) num_jobs Hn)
    as (chunks0 & Hs & Hlen & Hcat & _).
  rewrite Hs in Hb |- *. unfold mbind, outcome_bind, bind in Hb.
  destruct chunks0; [discriminate|]. by injection Hb as <-.
Qed.

(** ** The shape of the saved tensors *)

Lemma shape_prod_cons n s : Shape.prod (n :: s) = n * Shape.prod s.
Proof. reflexivity. Qed.

Lemma reshape_grid_rows lx ly s :
  0 < lx -> 0 < ly ->
  Shape.reshape_grid lx ly ((lx * ly) :: s) = Return [lx; ly; Shape.prod s].
Proof.
  intros Hx Hy. unfold Shape.reshape_grid. rewrite shape_prod_cons.
  assert (Hn : lx * ly <> 0) by lia.
  rewrite decide_False by done.
  rewrite Nat.mul_comm, Nat.Div0.mod_mul, decide_True by done.
  by rewrite Nat.div_mul.
Qed.

Lemma stack_replicate n s :
  0 < n -> Shape.stack (replicate n s) = Return (n :: s).
Proof.
  intros Hn. destruct n as [|n]; [lia|]. unfold Shape.stack. cbn [replicate].
  rewrite decide_True.
  - by rewrite length_cons, length_replicate.
  - apply Forall_forall. by intros s' ->%elem_of_replicate_inv.
Qed.

(** C8, amended: for a grid with at least one row and one column
    paramplane saves shape [(len(X), len(Y), m)], [m] being the number of
    entries of one value, and drops nothing, so a scalar metric has a
    last axis of size 1; losslandscape, when neither [len(X)] nor
    [len(Y)] is 1, saves [(len(X), len(Y), m)] with the last axis dropped
    when [m] is 1, so a scalar metric has shape [(len(X), len(Y))]. *)
Theorem saved_shapes (lx ly : nat) (s : list nat) :
  0 < lx -> 0 < ly ->
  Paramplane.saved_shape lx ly s = Return [lx; ly; Shape.prod s] /\
  (lx <> 1 -> ly <> 1 ->
   Losslandscape.saved_shape lx ly (replicate (lx * ly) s)
   = Return ([lx; ly] ++ if decide (Shape.prod s = 1) then [] else [Shape.prod s])).
Proof.
  intros Hx Hy. split.
  - by apply reshape_grid_rows.
  - intros Hx1 Hy1. unfold Losslandscape.saved_shape.
    rewrite stack_replicate by lia. cbn [mbind outcome_bind bind].
    rewrite reshape_grid_rows by done. cbn [mbind outcome_bind bind].
    unfold Shape.squeeze.
    rewrite filter_cons_True by done. rewrite filter_cons_True by done.
    destruct (decide (Shape.prod s = 1)) as [Hp|Hp].
    + by rewrite filter_cons_False by (by intros H; apply H).
    + by rewrite filter_cons_True by done.
Qed.

Lemma saved_shapes_witness :
  Paramplane.saved_shape 2 3 [] = Return [2; 3; Shape.prod []] /\
  (2 <> 1 -> 3 <> 1 ->
   Losslandscape.saved_shape 2 3 (replicate (2 * 3) [])
   = Return ([2; 3] ++ if decide (Shape.prod [] = 1) then [] else [Shape.prod []])).
Proof. apply (saved_shapes 2 3 []); lia. Defined.

(** C8 as stated fails in both drivers: losslandscape's [squeeze()] also
    drops a first axis of size 1 (a 1 x 3 grid of scalars is saved with
    shape (3)), and paramplane keeps the last axis of a scalar metric
    (shape (2, 2, 1) on a 2 x 2 grid). *)
Lemma saved_shape_not_grid_shape :
  Losslandscape.saved_shape 1 3 (replicate (1 * 3) []) = Return [3] /\
  Paramplane.saved_shape 2 2 [] = Return [2; 2; 1].
Proof. split; reflexivity. Qed.

(** ** Progress tracking *)

Section Progress.
Local Open Scope Z_scope.

Lemma digit_value_nonneg c : 0 <= Losslandscape.digit_value c.
Proof.
  unfold Losslandscape.digit_value. destruct (Losslandscape.decimal c); simpl; lia.
Qed.

Lemma py_int_nonneg digits n : Losslandscape.py_int digits = Some n -> 0 <= n.
Proof.
  unfold Losslandscape.py_int. destruct digits as [|d ds]; [done|].
  destruct (_ && _); [|done]. intros [= <-].
  assert (Hgen : forall l acc, 0 <= acc ->
              0 <= foldl (fun acc c => 10 * acc + Losslandscape.digit_value c) acc l).
  { clear. induction l as [|c l IH]; intros acc Hacc; simpl; [done|].
    apply IH. pose proof (digit_value_nonneg c). lia. }
  exact (Hgen (d :: ds) 0 ltac:(lia)).
Qed.

Lemma parse_tqdm_state_nonneg file : 0 <= Losslandscape.parse_tqdm_state file.
Proof.
  unfold Losslandscape.parse_tqdm_state.
  destruct file as [lines|]; simpl; [|done].
  destruct (last lines) as [lastline|]; simpl; [|done].
  destruct (last (Losslandscape.findall lastline)) as [digits|]; simpl; [|done].
  destruct (Losslandscape.py_int digits) as [n|] eqn:Hn; simpl; [|done].
  by eapply py_int_nonneg.
Qed.

(** Inside the polling loop the count never goes down: from any start
    value, the values [pbar.n] takes are in non-decreasing order. *)
Theorem track_loop_monotone observations n :
  Sorted Z.le (n :: (Losslandscape.track n observations).1).
Proof.
  revert n. induction observations as [|jobs later IH]; intros n; simpl.
  { repeat constructor. }
  destruct (existsb _ jobs); simpl; [|repeat constructor].
  constructor; [apply IH|]. constructor. lia.
Qed.

(** C9: the final assignment takes the parsed total as it is. One job
    is seen running with the bar at 3 of 4; when it is done a warning
    follows the last bar line in its stderr (or the file cannot be
    opened), the parse gives 0 and the count drops from 3 to 0. *)
Theorem final_progress_update_can_decrease :
  Losslandscape.progress_counts
    [ [ {| Losslandscape.done := false;
           Losslandscape.stderr :=
             Some [codes " 75%|#######5  | 3/4 [00:10<00:03,  3.33s/it, unique postfix]"] |} ];
      [ {| Losslandscape.done := true;
           Losslandscape.stderr :=
             Some [codes "100%|##########| 4/4 [00:13<00:00,  3.33s/it, unique postfix]";
                   codes "UserWarning: resource_tracker: leaked semaphore objects"] |} ] ]
  = [0; 3; 0] /\
  Losslandscape.progress_counts
    [ [ {| Losslandscape.done := false;
           Losslandscape.stderr :=
             Some [codes " 75%|#######5  | 3/4 [00:10<00:03,  3.33s/it, unique postfix]"] |} ];
      [ {| Losslandscape.done := true; Losslandscape.stderr := None |} ] ]
  = [0; 3; 0].
Proof. split; reflexivity. Qed.

End Progress.

(** ** The losslandscape evaluator *)

Section EvaluatorFacts.
Context {Tn Input Label Num Dev : Type}.
Variables mean_squared_error cross_entropy entropy : Tn -> Tn -> Tn.
Variables log_softmax softmax texp tsum squeeze cpu : Tn -> Tn.
Variable tadd : Tn -> Tn -> Tn.
Variable radd : Z -> Tn -> Tn.
Variable tdiv : Tn -> Z -> Tn.
Variable label_count : Label -> Z.
Variable tensor_of : Num -> Tn.
Variable eval_probe : list (Tn * Label) -> list (Tn * Label) -> list (string * Num).
Variable normalize_data :
  list (Tn * Label) -> list (Tn * Label) -> list (Tn * Label) * list (Tn * Label).
Variable lstsq : mat2 -> vec -> vec.
Variable vector_to_module : vec -> Input -> Losslandscape.model_out Tn.
Variable teacher : Input -> Losslandscape.model_out Tn.
Variable coord_tensor : vec -> Tn.
Variable norm2 : vec -> Tn.
Variable device : Dev.

Local Abbreviation iadd := (Losslandscape.iadd tadd radd).
Local Abbreviation update_losses :=
  (Losslandscape.update_losses mean_squared_error cross_entropy entropy
     log_softmax softmax texp tsum tadd radd).
Local Abbreviation pass :=
  (Losslandscape.pass (Dev := Dev) mean_squared_error cross_entropy entropy
     log_softmax softmax texp tsum squeeze tadd radd label_count).
Local Abbreviation averages := (Losslandscape.averages tdiv).
Local Abbreviation add_probe := (Losslandscape.add_probe tensor_of).
Local Abbreviation eval_student :=
  (Losslandscape.eval_student (Dev := Dev) mean_squared_error cross_entropy entropy
     log_softmax softmax texp tsum squeeze tadd radd tdiv label_count tensor_of
     eval_probe normalize_data).
Local Abbreviation eval_coord :=
  (Losslandscape.eval_coord mean_squared_error cross_entropy entropy
     log_softmax softmax texp tsum squeeze cpu tadd radd tdiv label_count tensor_of
     eval_probe normalize_data lstsq vector_to_module teacher coord_tensor norm2 device).
Local Abbreviation eval_coords :=
  (Losslandscape.eval_coords mean_squared_error cross_entropy entropy
     log_softmax softmax texp tsum squeeze cpu tadd radd tdiv label_count tensor_of
     eval_probe normalize_data lstsq vector_to_module teacher coord_tensor norm2 device).

(** [update_losses] adds one and the same value to the CE and KL sums. *)
Lemma update_losses_adds_same (student_out teacher_out : Losslandscape.model_out Tn)
    (m c k h : Losslandscape.number Tn) :
  update_losses student_out teacher_out [("MSE", m); ("CE", c); ("KL", k); ("H", h)]
  = Return
      [("MSE", iadd m (tsum (mean_squared_error (Losslandscape.logits student_out)
                                                (Losslandscape.logits teacher_out))));
       ("CE", iadd c (tsum (cross_entropy
                              (log_softmax (Losslandscape.logits student_out))
                              (softmax (Losslandscape.logits teacher_out)))));
       ("KL", iadd k (tsum (cross_entropy
                              (log_softmax (Losslandscape.logits student_out))
                              (softmax (Losslandscape.logits teacher_out)))));
       ("H", iadd h (tsum (entropy (texp (log_softmax (Losslandscape.logits student_out)))
                                   (log_softmax (Losslandscape.logits student_out)))))].
Proof. reflexivity. Qed.

Lemma update_losses_balanced student_out teacher_out losses :
  Losslandscape.balanced losses ->
  exists losses', update_losses student_out teacher_out losses = Return losses' /\
                  Losslandscape.balanced losses'.
Proof.
  intros (m & c & h & ->). rewrite update_losses_adds_same.
  eexists; split; [reflexivity|]. by eexists _, _, _.
Qed.

Lemma add_probe_lookup_other prefix probe (out : gmap string Tn) key :
  (forall k, prefix +:+ k <> key) ->
  add_probe prefix probe out !! key = out !! key.
Proof.
  intros Hne. unfold Losslandscape.add_probe. revert out.
  induction probe as [|kv probe IH]; intros out; simpl; [done|].
  rewrite IH. by apply lookup_insert_ne.
Qed.

(** *** The evaluator returns on non-empty loaders *)

Lemma update_losses_tensors student_out teacher_out losses :
  Losslandscape.balanced losses ->
  exists m c h,
    update_losses student_out teacher_out losses
    = Return [("MSE", Losslandscape.PyTensor m); ("CE", Losslandscape.PyTensor c); ("KL", Losslandscape.PyTensor c);
              ("H", Losslandscape.PyTensor h)].
Proof.
  intros (m & c & h & ->). rewrite update_losses_adds_same.
  destruct m, c, h; simpl; by eexists _, _, _.
Qed.

Lemma pass_loop_tensors (student : Input -> Losslandscape.model_out Tn)
    (dl : list (Input * Label)) st :
  (exists m c h, st.2 = [("MSE", Losslandscape.PyTensor m); ("CE", Losslandscape.PyTensor c); ("KL", Losslandscape.PyTensor c);
                         ("H", Losslandscape.PyTensor h)]) ->
  exists st',
    for_each
      (fun st batch =>
         losses ← update_losses (student batch.1) (teacher batch.1) st.2;
         Return ((st.1.1 + label_count batch.2)%Z,
                 st.1.2 ++ [(squeeze (Losslandscape.embeddings (student batch.1)), batch.2)],
                 losses))
      st dl = Return st' /\
    exists m c h, st'.2 = [("MSE", Losslandscape.PyTensor m); ("CE", Losslandscape.PyTensor c); ("KL", Losslandscape.PyTensor c);
                           ("H", Losslandscape.PyTensor h)].
Proof.
  revert st. induction dl as [|batch dl IH]; intros st Hst; simpl.
  - by exists st.
  - assert (Hb : Losslandscape.balanced st.2).
    { destruct Hst as (m & c & h & ->). by eexists _, _, _. }
    destruct (update_losses_tensors (student batch.1) (teacher batch.1) st.2 Hb)
      as (m & c & h & ->).
    cbn [mbind outcome_bind bind]. apply IH. simpl. by eexists _, _, _.
Qed.

Lemma pass_tensors d student dl :
  dl <> [] ->
  exists r, pass (Some d) student teacher dl = Return r /\
    exists m c h, r.2 = [("MSE", Losslandscape.PyTensor m); ("CE", Losslandscape.PyTensor c); ("KL", Losslandscape.PyTensor c);
                         ("H", Losslandscape.PyTensor h)].
Proof.
  intros Hne. destruct dl as [|batch dl]; [done|].
  unfold Losslandscape.pass.
  cbn [for_each fst snd Losslandscape.rebind Losslandscape.label_tensor].
  destruct (update_losses_tensors (student batch.1) (teacher batch.1)
              Losslandscape.zero_losses) as (m & c & h & Hu).
  { by eexists _, _, _. }
  rewrite Hu. cbn [mbind outcome_bind bind].
  apply pass_loop_tensors. simpl. by eexists _, _, _.
Qed.

Lemma averages_tensors prefix losses numel (out : gmap string Tn) :
  (exists m c h, losses = [("MSE", Losslandscape.PyTensor m); ("CE", Losslandscape.PyTensor c); ("KL", Losslandscape.PyTensor c);
                           ("H", Losslandscape.PyTensor h)]) ->
  exists out', averages prefix losses numel out = Return out'.
Proof. intros (m & c & h & ->). by eexists. Qed.

Lemma eval_student_returns d student train_dl valid_dl :
  train_dl <> [] -> valid_dl <> [] ->
  exists out, eval_student student teacher train_dl valid_dl (Some d) = Return out.
Proof.
  intros Ht Hv. unfold Losslandscape.eval_student.
  destruct (pass_tensors d student train_dl Ht) as (tr & -> & Htr).
  cbn [mbind outcome_bind bind].
  destruct (averages_tensors "train/" tr.2 tr.1.1 ∅ Htr) as (out1 & ->).
  cbn [mbind outcome_bind bind].
  destruct (pass_tensors d student valid_dl Hv) as (va & -> & Hva).
  cbn [mbind outcome_bind bind].
  destruct (averages_tensors "valid/" va.2 va.1.1 out1 Hva) as (out2 & ->).
  cbn [mbind outcome_bind bind]. by eexists.
Qed.

(** [eval_coords] returns one record per coordinate whenever both
    loaders have a batch and the projector maps every coordinate. *)
Lemma eval_coords_returns (P : Losslandscape.ParamProjector)
    (train_dl valid_dl : list (Input * Label)) (coords : list vec) :
  train_dl <> [] -> valid_dl <> [] ->
  Forall (fun coord => returns (Losslandscape.call_default lstsq P (vector coord))) coords ->
  exists records, eval_coords P train_dl valid_dl coords = Return records /\
                  length records = length coords.
Proof.
  intros Ht Hv Hall. unfold Losslandscape.eval_coords.
  induction Hall as [|coord coords [v Hc] Hall (records & IH & Hlen)]; simpl.
  { by exists []. }
  unfold Losslandscape.eval_coord at 1. rewrite Hc. cbn [mbind outcome_bind bind].
  destruct (eval_student_returns device (vector_to_module v) train_dl valid_dl Ht Hv)
    as (out & ->).
  cbn [mbind outcome_bind bind]. rewrite IH. cbn [bind].
  eexists; split; [reflexivity|]. simpl. by rewrite Hlen.
Qed.

End EvaluatorFacts.

(** ** losslandscape: the chunks handed to the jobs *)

(** The chunks losslandscape hands to its jobs: the grid coordinates in
    flattening order, cut into at most [num_jobs] chunks, none empty, of
    sizes that differ by at most one and add up to [len(X) * len(Y)]. *)
Theorem losslandscape_chunks {A : Type} (X Y : list A) (num_jobs : Z)
    (chunks : list (list (A * A))) :
  Losslandscape.build_chunks X Y num_jobs = Return chunks ->
  concat chunks = Grid.coords_of X Y /\
  Forall (fun c => c <> []) chunks /\
  list_sum (List.map length chunks) = length X * length Y /\
  length chunks <= Z.to_nat num_jobs /\
  (forall c1 c2, c1 ∈ chunks -> c2 ∈ chunks -> length c1 <= S (length c2)).
Proof. apply losslandscape_build_chunks_spec. Qed.

Lemma losslandscape_chunks_witness :
  concat [[(0, 0); (0, 1)]; [(1, 0)]; [(1, 1)]]%Z = Grid.coords_of [0; 1]%Z [0; 1]%Z /\
  Forall (fun c => c <> []) [[(0, 0); (0, 1)]; [(1, 0)]; [(1, 1)]]%Z /\
  list_sum (List.map length [[(0, 0); (0, 1)]; [(1, 0)]; [(1, 1)]]%Z) = 2 * 2 /\
  length [[(0, 0); (0, 1)]; [(1, 0)]; [(1, 1)]]%Z <= Z.to_nat 3 /\
  (forall c1 c2, c1 ∈ [[(0, 0); (0, 1)]; [(1, 0)]; [(1, 1)]]%Z ->
                 c2 ∈ [[(0, 0); (0, 1)]; [(1, 0)]; [(1, 1)]]%Z ->
                 length c1 <= S (length c2)).
Proof.
  apply (losslandscape_chunks [0; 1]%Z [0; 1]%Z 3 [[(0, 0); (0, 1)]; [(1, 0)]; [(1, 1)]]%Z).
  reflexivity.
Defined.

(** ** Distances in the parameter space *)

Section Quadratics.
Local Open Scope R_scope.
Implicit Types (B : mat2) (w a v u o : vec) (x y : R).

Local Abbreviation rows_times B x y := (List.map (fun b => b.1 * x + b.2 * y) B).

(** The squared length of [w - B c] and of [B c + a], expanded. *)
Lemma sum_squares_sub_matvec B w x y :
  length B = length w ->
  sum_squares (zip_with Rminus w (rows_times B x y))
  = sum_squares w - 2 * (x * dot (col1 B) w + y * dot (col2 B) w)
    + (x * x * gram11 B + 2 * (x * y) * gram12 B + y * y * gram22 B).
Proof.
  unfold sum_squares. unfold_gram. revert w.
  induction B as [|[b1 b2] B IH]; intros [|t w] Hlen; simpl in *; try done; [lra|].
  rewrite IH by lia. ring.
Qed.

Lemma sum_squares_add_matvec B a x y :
  length B = length a ->
  sum_squares (zip_with Rplus (rows_times B x y) a)
  = sum_squares a + 2 * (x * dot (col1 B) a + y * dot (col2 B) a)
    + (x * x * gram11 B + 2 * (x * y) * gram12 B + y * y * gram22 B).
Proof.
  unfold sum_squares. unfold_gram. revert a.
  induction B as [|[b1 b2] B IH]; intros [|t a] Hlen; simpl in *; try done; [lra|].
  rewrite IH by lia. ring.
Qed.

(** The Gram form is a sum of squares. *)
Lemma gram_form_nonneg B x y :
  0 <= x * x * gram11 B + 2 * (x * y) * gram12 B + y * y * gram22 B.
Proof. rewrite <- sum_squares_matvec. apply sum_squares_nonneg. Qed.

Lemma dot_sub u o a :
  length u = length o -> length u = length a ->
  dot (zip_with Rminus u o) a = dot u a - dot o a.
Proof.
  unfold dot, Rsum. revert o a.
  induction u as [|t u IH]; intros [|s o] [|r a] H1 H2; simpl in *; try done; [lra|].
  rewrite IH by lia. lra.
Qed.

Lemma dot_add_r u a o :
  length u = length a -> length u = length o ->
  dot u (zip_with Rplus a o) = dot u a + dot u o.
Proof.
  unfold dot, Rsum. revert a o.
  induction u as [|t u IH]; intros [|s a] [|r o] H1 H2; simpl in *; try done; [lra|].
  rewrite IH by lia. lra.
Qed.

Lemma dot_sub_r u a o :
  length u = length a -> length u = length o ->
  dot u (zip_with Rminus a o) = dot u a - dot u o.
Proof.
  unfold dot, Rsum. revert a o.
  induction u as [|t u IH]; intros [|s a] [|r o] H1 H2; simpl in *; try done; [lra|].
  rewrite IH by lia. lra.
Qed.

Lemma dot_neg_r u a : dot u (vneg a) = - dot u a.
Proof.
  unfold dot, Rsum, vneg. revert a.
  induction u as [|t u IH]; intros [|s a]; simpl in *; try lra.
  rewrite IH. lra.
Qed.

Lemma dot_matvec_l B a x y :
  length B = length a ->
  dot (rows_times B x y) a = x * dot (col1 B) a + y * dot (col2 B) a.
Proof.
  unfold_gram. revert a.
  induction B as [|[b1 b2] B IH]; intros [|t a] Hlen; simpl in *; try done; [lra|].
  rewrite IH by lia. lra.
Qed.

Lemma dot_comm u a : dot u a = dot a u.
Proof.
  unfold dot, Rsum. revert a.
  induction u as [|t u IH]; intros [|s a]; simpl in *; try lra.
  rewrite IH. lra.
Qed.

(** Columns after [B - o.unsqueeze(1)] and after a change of columns. *)
Lemma col1_sub_column B o :
  col1 (zip_with (fun b t => (b.1 - t, b.2 - t)) B o) = zip_with Rminus (col1 B) o.
Proof.
  unfold col1. revert o. induction B as [|b B IH]; intros [|t o]; simpl; try done.
  by rewrite IH.
Qed.

Lemma col2_sub_column B o :
  col2 (zip_with (fun b t => (b.1 - t, b.2 - t)) B o) = zip_with Rminus (col2 B) o.
Proof.
  unfold col2. revert o. induction B as [|b B IH]; intros [|t o]; simpl; try done.
  by rewrite IH.
Qed.

Lemma dot_col1_combination B a m11 m12 m21 m22 :
  dot (col1 (List.map (fun b => (b.1 * m11 + b.2 * m21, b.1 * m12 + b.2 * m22)) B)) a
  = m11 * dot (col1 B) a + m21 * dot (col2 B) a.
Proof.
  unfold_gram. revert a.
  induction B as [|[b1 b2] B IH]; intros [|t a]; simpl in *; try lra.
  rewrite IH. lra.
Qed.

Lemma dot_col2_combination B a m11 m12 m21 m22 :
  dot (col2 (List.map (fun b => (b.1 * m11 + b.2 * m21, b.1 * m12 + b.2 * m22)) B)) a
  = m12 * dot (col1 B) a + m22 * dot (col2 B) a.
Proof.
  unfold_gram. revert a.
  induction B as [|[b1 b2] B IH]; intros [|t a]; simpl in *; try lra.
  rewrite IH. lra.
Qed.

(** The normal equations: what [lstsq_normal] leaves of [w] is
    orthogonal to both columns. *)
Lemma normal_equations B w :
  gram_det B <> 0 ->
  let t1 := (gram22 B * dot (col1 B) w - gram12 B * dot (col2 B) w) / gram_det B in
  let t2 := (gram11 B * dot (col2 B) w - gram12 B * dot (col1 B) w) / gram_det B in
  gram11 B * t1 + gram12 B * t2 = dot (col1 B) w /\
  gram12 B * t1 + gram22 B * t2 = dot (col2 B) w.
Proof.
  intros Hdet t1 t2. unfold t1, t2, gram_det in *. split; field; exact Hdet.
Qed.

Lemma length_col1 B : length (col1 B) = length B.
Proof. unfold col1. by rewrite length_map. Qed.

Lemma length_col2 B : length (col2 B) = length B.
Proof. unfold col2. by rewrite length_map. Qed.

End Quadratics.

(** ** ParamProjector: the plane the constructor lays out *)

Section PlaneFacts.
Local Open Scope R_scope.
Variable lstsq : mat2 -> vec -> vec.
Variable svd_U : mat2 -> mat2.
Implicit Types (a o : vec) (B : mat2) (center scale : option string).

Lemma sub_rows (v0 v1 v2 : vec) a :
  length v1 = length v0 -> length v2 = length v0 -> length a = length v0 ->
  zip_with (fun b x => (b.1 - x, b.2 - x)) (zip v1 v2) a
  = zip (zip_with Rminus v1 a) (zip_with Rminus v2 a).
Proof.
  intros H1 H2 Ha. pose proof (sub_column_rows v0 v1 v2 a H1 H2 Ha) as Hs.
  unfold sub_column in Hs. rewrite decide_True in Hs by (rewrite length_zip; lia).
  by injection Hs.
Qed.

(** Whatever the centre, the two columns of the basis are [vec1 - affine]
    and [vec2 - affine]. *)
Lemma centered_columns center (v0 v1 v2 : vec) ab :
  Losslandscape.centered center v0 v1 v2 = Return ab ->
  length v1 = length v0 /\ length v2 = length v0 /\ length ab.1 = length v0 /\
  ab.2 = zip (zip_with Rminus v1 ab.1) (zip_with Rminus v2 ab.1) /\
  (center <> Some "mean" -> ab.1 = v0) /\
  (center = Some "mean" ->
   ab.1 = List.map (fun t => t / 3) (zip_with Rplus (zip_with Rplus v0 v1) v2)).
Proof.
  unfold Losslandscape.centered, vadd, stack2, sub_column. intros H.
  destruct (decide (center = Some "mean")) as [Hm|Hm].
  - destruct (decide (length v0 = length v1)) as [H01|]; [|done].
    cbn [mbind outcome_bind bind] in H.
    rewrite length_zip_with in H.
    destruct (decide (length v0 `min` length v1 = length v2)) as [H2|]; [|done].
    cbn [mbind outcome_bind bind] in H.
    destruct (decide (length v1 = length v2)) as [H12|]; [|done].
    cbn [mbind outcome_bind bind] in H.
    destruct (decide _) as [Hl|] in H; [|done].
    cbn [mbind outcome_bind bind] in H. injection H as <-. cbn [fst snd].
    rewrite length_map, !length_zip_with. repeat split; try lia; try done.
    apply (sub_rows v0); rewrite ?length_map, ?length_zip_with; lia.
  - cbn [mbind outcome_bind bind] in H.
    destruct (decide (length v1 = length v2)) as [H12|]; [|done].
    cbn [mbind outcome_bind bind] in H.
    destruct (decide _) as [Hl|] in H; [|done].
    cbn [mbind outcome_bind bind] in H. injection H as <-. cbn [fst snd].
    rewrite length_zip in Hl.
    repeat split; try lia; try done.
    apply (sub_rows v0); lia.
Qed.

Lemma recentre_rows (v1 v2 : vec) a o :
  length v1 = length a -> length v2 = length a -> length o = length a ->
  zip_with (fun b t => (b.1 - t, b.2 - t))
    (zip (zip_with Rminus v1 a) (zip_with Rminus v2 a)) o
  = zip (zip_with Rminus v1 (zip_with Rplus a o)) (zip_with Rminus v2 (zip_with Rplus a o)).
Proof.
  revert v1 v2 o.
  induction a as [|t a IH]; intros [|t1 v1] [|t2 v2] [|s o] H1 H2 Ho; simpl in *; try done.
  rewrite IH by lia. f_equal. f_equal; lra.
Qed.

Lemma plane_columns center (v0 v1 v2 : vec) ab :
  Losslandscape.plane lstsq center v0 v1 v2 = Return ab ->
  length v1 = length v0 /\ length v2 = length v0 /\ length ab.1 = length v0 /\
  ab.2 = zip (zip_with Rminus v1 ab.1) (zip_with Rminus v2 ab.1) /\
  (center <> Some "mean" -> center <> Some "minnorm" -> ab.1 = v0) /\
  (center = Some "mean" ->
   ab.1 = List.map (fun t => t / 3) (zip_with Rplus (zip_with Rplus v0 v1) v2)).
Proof.
  unfold Losslandscape.plane. intros H.
  destruct (Losslandscape.centered center v0 v1 v2) as [[a B]| |] eqn:Hc; try done.
  cbn [mbind outcome_bind bind] in H.
  destruct (centered_columns _ _ _ _ _ Hc) as (H1 & H2 & Ha & HB & Hv0 & Hmean).
  cbn [fst snd] in *. unfold Losslandscape.recentered in H. cbn [fst snd] in H.
  destruct (decide (center = Some "minnorm")) as [Hm|Hm].
  - destruct (Losslandscape.lstsq_solution lstsq B (vneg a)) as [t| |]; try done.
    cbn [mbind outcome_bind bind] in H.
    destruct (matvec B t) as [o| |] eqn:Ho; try done.
    cbn [mbind outcome_bind bind] in H.
    assert (Hlo : length o = length a).
    { unfold matvec in Ho. destruct t as [|x [|y [|]]]; try done. injection Ho as <-.
      rewrite length_map, HB, length_zip, !length_zip_with. lia. }
    unfold vadd, sub_column in H.
    rewrite (decide_True (P := length a = length o)) in H by lia.
    cbn [mbind outcome_bind bind] in H.
    rewrite (decide_True (P := length B = length o)) in H
      by (rewrite HB, length_zip, !length_zip_with; lia).
    cbn [mbind outcome_bind bind] in H. injection H as <-. cbn [fst snd].
    rewrite length_zip_with. repeat split; try lia.
    + rewrite HB. apply recentre_rows; lia.
    + done.
    + intros ->. done.
  - injection H as <-. cbn [fst snd]. repeat split; try done. intros ? _. by apply Hv0.
Qed.

(** What a successful constructor call has checked and stored. *)
Lemma losslandscape_init_inv (v0 v1 v2 : vec) center scale P :
  Losslandscape.__init__ lstsq svd_U (vector v0) (vector v1) (vector v2) center scale
    = Return P ->
  center ∈ Losslandscape.center_options /\ scale ∈ Losslandscape.scale_options /\
  Losslandscape.scale P = scale /\ Losslandscape.dim P = length v0 /\
  exists ab, Losslandscape.plane lstsq center v0 v1 v2 = Return ab /\
             Losslandscape.affine P = ab.1 /\
             Losslandscape.basis P
             = (if decide (scale ∈ Losslandscape.ortho_options) then svd_U ab.2 else ab.2).
Proof.
  intros H.
  destruct (decide (center ∈ Losslandscape.center_options)) as [Hc|Hc]; cycle 1.
  { unfold Losslandscape.__init__ in H. rewrite !tdim_vector in H.
    rewrite decide_False in H by lia. by rewrite decide_True in H. }
  destruct (decide (scale ∈ Losslandscape.scale_options)) as [Hs|Hs]; cycle 1.
  { unfold Losslandscape.__init__ in H. rewrite !tdim_vector in H.
    rewrite decide_False in H by lia.
    rewrite decide_False in H by (by intros H'; apply H').
    by rewrite decide_True in H. }
  rewrite losslandscape_init_vectors in H by done.
  destruct (Losslandscape.plane lstsq center v0 v1 v2) as [ab| |] eqn:Hp; try done.
  cbn [mbind outcome_bind bind] in H.
  destruct (decide (scale ∈ Losslandscape.ortho_options)) as [Ho|Ho].
  - unfold Losslandscape.svd_left in H. destruct (decide _) in H; [|done].
    cbn [mbind outcome_bind bind] in H. injection H as <-. cbn.
    repeat split; try done. by exists ab.
  - cbn [mbind outcome_bind bind] in H. injection H as <-. cbn.
    repeat split; try done. by exists ab.
Qed.

Lemma rows_back_to_points (v1 v2 : vec) a :
  length v1 = length a -> length v2 = length a ->
  zip_with Rplus
    (List.map (fun b => b.1 * 1 + b.2 * 0) (zip (zip_with Rminus v1 a) (zip_with Rminus v2 a)))
    a = v1 /\
  zip_with Rplus
    (List.map (fun b => b.1 * 0 + b.2 * 1) (zip (zip_with Rminus v1 a) (zip_with Rminus v2 a)))
    a = v2 /\
  zip_with Rplus
    (List.map (fun b => b.1 * 0 + b.2 * 0) (zip (zip_with Rminus v1 a) (zip_with Rminus v2 a)))
    a = a.
Proof.
  revert v1 v2.
  induction a as [|t a IH]; intros [|t1 v1] [|t2 v2] H1 H2; simpl in *; try done.
  destruct (IH v1 v2) as (E1 & E2 & E0); [lia..|]. rewrite E1, E2, E0.
  repeat split; f_equal; lra.
Qed.

Lemma rows_back_to_first (v0 v1 v2 : vec) :
  length v1 = length v0 -> length v2 = length v0 ->
  let a := List.map (fun t => t / 3) (zip_with Rplus (zip_with Rplus v0 v1) v2) in
  zip_with Rplus
    (List.map (fun b => b.1 * -1 + b.2 * -1)
       (zip (zip_with Rminus v1 a) (zip_with Rminus v2 a)))
    a = v0.
Proof.
  revert v1 v2.
  induction v0 as [|t v0 IH]; intros [|t1 v1] [|t2 v2] H1 H2; simpl in *; try done.
  rewrite IH by lia. f_equal. lra.
Qed.

(** With no orthogonal scale the plane is laid out on the reference
    vectors: the coordinates (1,0) and (0,1) are [vec1] and [vec2], the
    origin is the affine point, which is [vec0] unless the centre moves
    it; under centre [mean] it is the centroid and [vec0] sits at (-1,-1). *)
Theorem map_reference_points (v0 v1 v2 : vec) center scale (P : Losslandscape.ParamProjector) :
  Losslandscape.__init__ lstsq svd_U (vector v0) (vector v1) (vector v2) center scale
    = Return P ->
  scale ∉ Losslandscape.ortho_options ->
  Losslandscape.map P [1; 0] true = Return v1 /\
  Losslandscape.map P [0; 1] true = Return v2 /\
  Losslandscape.map P [0; 0] true = Return (Losslandscape.affine P) /\
  (center <> Some "mean" -> center <> Some "minnorm" -> Losslandscape.affine P = v0) /\
  (center = Some "mean" -> Losslandscape.map P [-1; -1] true = Return v0).
Proof.
  intros Hinit Ho.
  destruct (losslandscape_init_inv _ _ _ _ _ _ Hinit)
    as (Hc & Hs & Hscale & Hdim & [a B] & Hp & Ha & HB).
  destruct (plane_columns _ _ _ _ _ Hp) as (H1 & H2 & Hla & Hcols & Hv0 & Hmean).
  cbn [fst snd] in *. rewrite decide_False in HB by done.
  assert (Hrms : scale <> Some "rms_ortho").
  { intros ->. apply Ho. compute_done. }
  destruct (rows_back_to_points v1 v2 a) as (E1 & E2 & E0); [lia..|].
  unfold Losslandscape.map. rewrite Hscale, HB, Ha, Hcols.
  rewrite !decide_False by done. rewrite !matvec_pair.
  cbn [mbind outcome_bind bind]. unfold vadd.
  rewrite !decide_True by (rewrite length_map, length_zip, !length_zip_with; lia).
  rewrite E1, E2, E0. repeat split; try done.
  intros Hm. specialize (Hmean Hm). rewrite Hmean. f_equal.
  by apply rows_back_to_first.
Qed.

End PlaneFacts.

Section PlaneWitness.
Local Open Scope R_scope.

Lemma map_reference_points_witness :
  exists P,
    Losslandscape.__init__ lstsq_normal (fun B => B)
      (vector [1; 0; 1]) (vector [0; 1; 1]) (vector [1; 1; 1]) (Some "mean") None
      = Return P /\
    Losslandscape.map P [1; 0] true = Return [0; 1; 1] /\
    Losslandscape.map P [0; 1] true = Return [1; 1; 1] /\
    Losslandscape.map P [-1; -1] true = Return [1; 0; 1].
Proof.
  destruct (Losslandscape.__init__ lstsq_normal (fun B => B)
              (vector [1; 0; 1]) (vector [0; 1; 1]) (vector [1; 1; 1]) (Some "mean") None)
    as [P| |] eqn:HP; [|vm_compute in HP; discriminate..].
  destruct (map_reference_points lstsq_normal (fun B => B)
              [1; 0; 1] [0; 1; 1] [1; 1; 1] (Some "mean") None P HP)
    as (E1 & E2 & _ & _ & E0).
  - compute_done.
  - exists P. repeat split; try done. by apply E0.
Defined.

End PlaneWitness.

(** ** ParamProjector: the invariant of the class *)

Section Invariant.
Local Open Scope R_scope.
Variable lstsq : mat2 -> vec -> vec.
Variable svd_U : mat2 -> mat2.

(** From three non-collinear vectors of one length the constructor of
    either driver builds a projector in the state its methods rely on
    (affine point and basis of [dim] rows, the basis orthonormal or of
    full rank), and no method call changes that state. The full rank
    after recentring on the closest point is a hypothesis, as in the
    round trip. *)
Theorem constructor_establishes_invariant (v0 v1 v2 : vec) (center scale : option string) :
  lstsq_spec lstsq ->
  length v1 = length v0 -> length v2 = length v0 ->
  ~ collinear v0 v1 v2 ->
  center ∈ Losslandscape.center_options ->
  scale ∈ Losslandscape.scale_options ->
  (scale ∈ Losslandscape.ortho_options ->
     forall ab, Losslandscape.plane lstsq center v0 v1 v2 = Return ab ->
                svd_spec_at svd_U ab.2) ->
  (center = Some "minnorm" -> scale ∉ Losslandscape.ortho_options ->
     forall ab, Losslandscape.plane lstsq center v0 v1 v2 = Return ab ->
                ~ dependent ab.2) ->
  (exists P,
     Losslandscape.__init__ lstsq svd_U (vector v0) (vector v1) (vector v2) center scale
       = Return P /\
     forall calls, Losslandscape.ready (Losslandscape.run lstsq P calls)) /\
  (exists P,
     Paramplane.__init__ lstsq svd_U (vector v0) (vector v1) (vector v2) center scale
       = Return P /\
     forall calls, Paramplane.ready (Paramplane.run lstsq P calls)).
Proof.
  intros Hls H1 H2 Hnc Hc Hs Hsvd Hmin.
  pose proof (noncollinear_dim v0 v1 v2 H1 H2 Hnc) as HD.
  destruct (plane_spec lstsq center v0 v1 v2 Hls H1 H2 Hnc) as ([a B] & Hp & Ha & HB & Hind).
  cbn [fst snd] in Ha, HB, Hind.
  assert (Hrank : scale ∉ Losslandscape.ortho_options -> gram_det B <> 0).
  { intros Ho. apply independent_gram_det.
    destruct (decide (center = Some "minnorm")) as [Hmn|Hmn].
    - exact (Hmin Hmn Ho _ Hp).
    - by apply Hind. }
  split.
  - rewrite losslandscape_init_vectors by done. rewrite Hp.
    cbn [mbind outcome_bind bind fst snd].
    destruct (decide (scale ∈ Losslandscape.ortho_options)) as [Ho|Ho].
    + destruct (Hsvd Ho _ Hp) as [HUlen HU]. cbn [fst snd] in HUlen, HU.
      unfold Losslandscape.svd_left. rewrite decide_True by lia.
      cbn [mbind outcome_bind bind]. eexists; split; [reflexivity|]. intros calls.
      rewrite losslandscape_run_fixed. unfold Losslandscape.ready; cbn.
      split; [lia|]. split; [lia|]. split; [lia|]. split; [by intros _|by intros Hn].
    + cbn [mbind outcome_bind bind]. eexists; split; [reflexivity|]. intros calls.
      rewrite losslandscape_run_fixed. unfold Losslandscape.ready; cbn.
      split; [lia|]. split; [lia|]. split; [lia|]. split; [by intros Hn|by intros _; apply Hrank].
  - rewrite paramplane_init_vectors by done.
    rewrite paramplane_plane_eq, Hp. cbn [mbind outcome_bind bind fst snd].
    unfold Paramplane.scaled, Paramplane.lstsq_solution. cbn [fst snd].
    rewrite decide_True by lia. cbn [mbind outcome_bind bind].
    destruct (decide (scale ∈ Paramplane.ortho_options)) as [Ho|Ho].
    + destruct (Hsvd Ho _ Hp) as [HUlen HU]. cbn [fst snd] in HUlen, HU.
      unfold Paramplane.svd_left. rewrite decide_True by lia.
      cbn [mbind outcome_bind bind].
      unfold tmatvec. rewrite decide_True by lia. cbn [mbind outcome_bind bind fst snd].
      eexists; split; [reflexivity|]. intros calls.
      rewrite paramplane_run_fixed. unfold Paramplane.ready; cbn.
      split; [lia|]. split; [lia|]. split; [lia|]. split; [by intros _|by intros Hn].
    + eexists; split; [reflexivity|]. intros calls.
      rewrite paramplane_run_fixed. unfold Paramplane.ready; cbn.
      split; [lia|]. split; [lia|]. split; [lia|]. split; [by intros Hn|by intros _; apply Hrank].
Qed.

End Invariant.

Section InvariantWitness.
Local Open Scope R_scope.

Lemma constructor_establishes_invariant_witness :
  (exists P,
     Losslandscape.__init__ lstsq_normal (fun _ => [(1, 0); (0, 1)])
       (vector [0; 0]) (vector [2; 0]) (vector [0; 1]) (Some "mean") (Some "l2_ortho")
       = Return P /\
     forall calls, Losslandscape.ready (Losslandscape.run lstsq_normal P calls)) /\
  (exists P,
     Paramplane.__init__ lstsq_normal (fun _ => [(1, 0); (0, 1)])
       (vector [0; 0]) (vector [2; 0]) (vector [0; 1]) (Some "mean") (Some "l2_ortho")
       = Return P /\
     forall calls, Paramplane.ready (Paramplane.run lstsq_normal P calls)).
Proof.
  apply (constructor_establishes_invariant lstsq_normal (fun _ => [(1, 0); (0, 1)])
           [0; 0] [2; 0] [0; 1] (Some "mean") (Some "l2_ortho")).
  - exact lstsq_normal_meets_spec.
  - reflexivity.
  - reflexivity.
  - intros (a & b & Hab & Hrows). unfold differences in Hrows; simpl in Hrows.
    apply Forall_cons in Hrows as [Hr1 Hrows]. apply Forall_cons in Hrows as [Hr2 _].
    simpl in Hr1, Hr2. destruct Hab as [Hab|Hab]; apply Hab; lra.
  - compute_done.
  - compute_done.
  - intros _ ab Hab. vm_compute in Hab. injection Hab as <-.
    split; [reflexivity|].
    unfold orthonormal, gram11, gram12, gram22, dot, Rsum, col1, col2; simpl.
    repeat split; lra.
  - intros [=].
Defined.

End InvariantWitness.

(** ** ParamProjector: centre [minnorm] *)

Section MinNorm.
Local Open Scope R_scope.
Variable lstsq : mat2 -> vec -> vec.
Variable svd_U : mat2 -> mat2.

(** After recentring, the affine point is orthogonal to both columns of
    the basis: it is the foot of the perpendicular from the origin. *)
Lemma minnorm_plane_orthogonal (v0 v1 v2 : vec) ab :
  lstsq_spec lstsq -> ~ collinear v0 v1 v2 ->
  Losslandscape.plane lstsq (Some "minnorm") v0 v1 v2 = Return ab ->
  length ab.2 = length ab.1 /\
  dot (col1 ab.2) ab.1 = 0 /\ dot (col2 ab.2) ab.1 = 0.
Proof.
  intros Hls Hnc. unfold Losslandscape.plane. intros H.
  destruct (Losslandscape.centered (Some "minnorm") v0 v1 v2) as [[a B]| |] eqn:Hc; try done.
  cbn [mbind outcome_bind bind] in H.
  destruct (centered_columns _ _ _ _ _ Hc) as (H1 & H2 & Ha & HB & Hv0 & _).
  cbn [fst snd] in *. specialize (Hv0 ltac:(done)). subst a.
  assert (Hdiff : B = differences v0 v1 v2) by done.
  assert (HlB : length B = length v0).
  { rewrite HB, length_zip, !length_zip_with. lia. }
  assert (Hdet : gram_det B <> 0).
  { apply independent_gram_det. by rewrite Hdiff. }
  unfold Losslandscape.recentered in H. cbn [fst snd] in H.
  rewrite decide_True in H by done.
  unfold Losslandscape.lstsq_solution, vneg in H.
  rewrite decide_True in H by (rewrite length_map; lia).
  cbn [mbind outcome_bind bind] in H.
  rewrite (Hls B) in H; [|rewrite length_map; lia|done].
  unfold lstsq_normal in H. rewrite matvec_pair in H.
  cbn [mbind outcome_bind bind] in H.
  destruct (normal_equations B (List.map Ropp v0) Hdet) as [N1 N2].
  cbv zeta in N1, N2.
  set (t1 := (gram22 B * dot (col1 B) (List.map Ropp v0)
              - gram12 B * dot (col2 B) (List.map Ropp v0)) / gram_det B) in *.
  set (t2 := (gram11 B * dot (col2 B) (List.map Ropp v0)
              - gram12 B * dot (col1 B) (List.map Ropp v0)) / gram_det B) in *.
  set (o := List.map (fun b => b.1 * t1 + b.2 * t2) B) in *.
  assert (Hlo : length o = length v0) by (unfold o; rewrite length_map; lia).
  unfold vadd, sub_column in H.
  rewrite (decide_True (P := length v0 = length o)) in H by lia.
  cbn [mbind outcome_bind bind] in H.
  rewrite (decide_True (P := length B = length o)) in H by lia.
  cbn [mbind outcome_bind bind] in H. injection H as <-. cbn [fst snd].
  change (List.map Ropp v0) with (vneg v0) in N1, N2.
  rewrite dot_neg_r in N1, N2.
  assert (K1 : dot (col1 B) (zip_with Rplus v0 o) = 0).
  { rewrite dot_add_r by (rewrite ?length_col1; lia).
    unfold o. rewrite dot_col1_matvec. lra. }
  assert (K2 : dot (col2 B) (zip_with Rplus v0 o) = 0).
  { rewrite dot_add_r by (rewrite ?length_col2; lia).
    unfold o. rewrite dot_col2_matvec. lra. }
  assert (Ko : dot o (zip_with Rplus v0 o) = 0).
  { unfold o at 1. rewrite dot_matvec_l by (rewrite length_zip_with; lia).
    rewrite K1, K2. lra. }
  rewrite !length_zip_with. split; [lia|].
  rewrite col1_sub_column, col2_sub_column.
  rewrite !dot_sub by (rewrite ?length_col1, ?length_col2, ?length_zip_with; lia).
  rewrite K1, K2, Ko. split; lra.
Qed.

(** Under centre [minnorm] the affine point, which is what the origin
    of the coordinates maps to, is orthogonal to the basis and no point
    of the plane is closer to the origin of the parameter space. Under
    an orthogonal scale this needs the columns of [U] to lie in the
    plane. *)
Theorem minnorm_affine_is_closest_to_origin (v0 v1 v2 : vec) (scale : option string)
    (P : Losslandscape.ParamProjector) :
  lstsq_spec lstsq -> ~ collinear v0 v1 v2 ->
  Losslandscape.__init__ lstsq svd_U (vector v0) (vector v1) (vector v2)
    (Some "minnorm") scale = Return P ->
  (scale ∈ Losslandscape.ortho_options ->
     forall ab, Losslandscape.plane lstsq (Some "minnorm") v0 v1 v2 = Return ab ->
                svd_range_at svd_U ab.2) ->
  dot (col1 (Losslandscape.basis P)) (Losslandscape.affine P) = 0 /\
  dot (col2 (Losslandscape.basis P)) (Losslandscape.affine P) = 0 /\
  forall c u, Losslandscape.map P c true = Return u ->
    exists n0 n, norm (OrdInt 2) (Losslandscape.affine P) = Return n0 /\
                 norm (OrdInt 2) u = Return n /\ n0 <= n.
Proof.
  intros Hls Hnc Hinit Hrange.
  destruct (losslandscape_init_inv _ _ _ _ _ _ _ _ Hinit)
    as (_ & _ & Hscale & Hdim & [a B] & Hp & Ha & HB).
  destruct (minnorm_plane_orthogonal _ _ _ _ Hls Hnc Hp) as (Hlen & O1 & O2).
  cbn [fst snd] in *.
  assert (Hb : length (Losslandscape.basis P) = length a /\
               dot (col1 (Losslandscape.basis P)) a = 0 /\
               dot (col2 (Losslandscape.basis P)) a = 0).
  { rewrite HB. destruct (decide (scale ∈ Losslandscape.ortho_options)) as [Ho|Ho]; [|done].
    destruct (Hrange Ho _ Hp) as (m11 & m12 & m21 & m22 & HU). cbn [fst snd] in HU.
    rewrite HU, length_map, dot_col1_combination, dot_col2_combination, O1, O2.
    split; [done|]. split; lra. }
  destruct Hb as (Hlb & Q1 & Q2). rewrite Ha. split; [done|]. split; [done|].
  intros c u Hmap. unfold Losslandscape.map in Hmap. rewrite Ha in Hmap.
  destruct (matvec (Losslandscape.basis P) _) as [w| |] eqn:Hw in Hmap; try done.
  cbn [mbind outcome_bind bind] in Hmap.
  unfold matvec in Hw.
  destruct (if decide (Losslandscape.scale P = Some "rms_ortho") then _ else c)
    as [|x [|y [|]]] in Hw; try done.
  injection Hw as <-. unfold vadd in Hmap.
  destruct (decide _) in Hmap; [|done]. injection Hmap as <-.
  exists (sqrt (sum_squares a)), (sqrt (sum_squares
    (zip_with Rplus (List.map (fun b => b.1 * x + b.2 * y) (Losslandscape.basis P)) a))).
  split; [done|]. split; [done|]. apply sqrt_le_1_alt.
  rewrite sum_squares_add_matvec by done. rewrite Q1, Q2.
  pose proof (gram_form_nonneg (Losslandscape.basis P) x y). lra.
Qed.

End MinNorm.

Section MinNormWitness.
Local Open Scope R_scope.

Lemma minnorm_affine_is_closest_to_origin_witness :
  exists P,
    Losslandscape.__init__ lstsq_normal (fun B => B)
      (vector [1; 0; 1]) (vector [0; 1; 1]) (vector [1; 1; 1]) (Some "minnorm") None
      = Return P /\
    dot (col1 (Losslandscape.basis P)) (Losslandscape.affine P) = 0 /\
    dot (col2 (Losslandscape.basis P)) (Losslandscape.affine P) = 0 /\
    forall c u, Losslandscape.map P c true = Return u ->
      exists n0 n, norm (OrdInt 2) (Losslandscape.affine P) = Return n0 /\
                   norm (OrdInt 2) u = Return n /\ n0 <= n.
Proof.
  destruct (Losslandscape.__init__ lstsq_normal (fun B => B)
              (vector [1; 0; 1]) (vector [0; 1; 1]) (vector [1; 1; 1]) (Some "minnorm") None)
    as [P| |] eqn:HP; [|vm_compute in HP; discriminate..].
  exists P. split; [done|].
  apply (minnorm_affine_is_closest_to_origin lstsq_normal (fun B => B)
           [1; 0; 1] [0; 1; 1] [1; 1; 1] None P).
  - exact lstsq_normal_meets_spec.
  - intros (a & b & Hab & Hrows). unfold differences in Hrows; simpl in Hrows.
    apply Forall_cons in Hrows as [Hr1 Hrows]. apply Forall_cons in Hrows as [Hr2 _].
    simpl in Hr1, Hr2. destruct Hab as [Hab|Hab]; apply Hab; lra.
  - exact HP.
  - intros Hs. exfalso. revert Hs. compute_done.
Defined.

End MinNormWitness.

(** ** ParamProjector.error *)

Section ErrorFacts.
Local Open Scope R_scope.
Variable lstsq : mat2 -> vec -> vec.
Implicit Types (P : Losslandscape.ParamProjector) (v u a d : vec).

Lemma sub_add_rows v u a :
  length u = length v -> length a = length v ->
  zip_with Rminus v (zip_with Rplus u a) = zip_with Rminus (zip_with Rminus v a) u.
Proof.
  revert u a. induction v as [|t v IH]; intros [|s u] [|r a] H1 H2; simpl in *; try done.
  rewrite IH by lia. f_equal. lra.
Qed.

Lemma sum_squares_sub_self v : sum_squares (zip_with Rminus v v) = 0.
Proof.
  unfold sum_squares, Rsum. induction v as [|t v IH]; simpl; [done|]. rewrite IH. lra.
Qed.

Lemma sub_zero_eq v u :
  length v = length u -> Forall (fun t => t = 0) (zip_with Rminus v u) -> v = u.
Proof.
  revert u. induction v as [|t v IH]; intros [|s u] Hlen H; simpl in *; try done.
  apply Forall_cons in H as [H0 H]. f_equal; [lra|]. apply IH; [lia|done].
Qed.

(** The Euclidean norm, as [norm] computes it for the default order. *)
Lemma norm_two d : norm (OrdInt 2) d = Return (sqrt (sum_squares d)).
Proof. unfold norm. by rewrite decide_True by (by left). Qed.

Lemma error_default_unfold P v :
  Losslandscape.error_default lstsq P v =
  (coord ← Losslandscape.project lstsq P v true;
   back ← Losslandscape.map P coord true;
   diff ← vsub v back;
   Return (sqrt (sum_squares diff))).
Proof. reflexivity. Qed.

(** A coordinate that [map] accepts has two entries, and what it
    returns is the basis applied to them (rescaled under [rms_ortho])
    plus the affine point. *)
Lemma map_position_inv P c u :
  Losslandscape.map P c true = Return u ->
  exists x y, length c = 2%nat /\
    length (Losslandscape.basis P) = length (Losslandscape.affine P) /\
    u = zip_with Rplus (List.map (fun b => b.1 * x + b.2 * y) (Losslandscape.basis P))
          (Losslandscape.affine P).
Proof.
  unfold Losslandscape.map. intros H.
  destruct (matvec (Losslandscape.basis P) _) as [w| |] eqn:Hw in H; try done.
  cbn [mbind outcome_bind bind] in H. unfold matvec in Hw.
  destruct (if decide (Losslandscape.scale P = Some "rms_ortho") then _ else c)
    as [|x [|y [|]]] eqn:Hc in Hw; try done.
  injection Hw as <-. unfold vadd in H. destruct (decide _) as [Hl|] in H; [|done].
  injection H as <-. rewrite length_map in Hl. exists x, y. split; [|done].
  destruct (decide (Losslandscape.scale P = Some "rms_ortho")).
  - apply (f_equal length) in Hc. by rewrite length_map in Hc.
  - by subst c.
Qed.

(** The coordinate [project] finds solves the normal equations, and
    [map] takes it back to a point of the plane. *)
Lemma project_then_map P v :
  lstsq_spec lstsq -> Losslandscape.ready P -> length v = Losslandscape.dim P ->
  let B := Losslandscape.basis P in
  let w := zip_with Rminus v (Losslandscape.affine P) in
  exists coord t1 t2,
    Losslandscape.project lstsq P v true = Return coord /\
    Losslandscape.map P coord true
      = Return (zip_with Rplus (List.map (fun b => b.1 * t1 + b.2 * t2) B)
                  (Losslandscape.affine P)) /\
    gram11 B * t1 + gram12 B * t2 = dot (col1 B) w /\
    gram12 B * t1 + gram22 B * t2 = dot (col2 B) w.
Proof.
  intros Hls (Hla & Hlb & Hdim & Hortho & Hrank) Hlv B w.
  destruct P as [ctr scl D a B0].
  cbn [Losslandscape.scale Losslandscape.dim Losslandscape.affine Losslandscape.basis] in *.
  subst B.
  unfold Losslandscape.project, Losslandscape.map.
  cbn [Losslandscape.scale Losslandscape.dim Losslandscape.affine Losslandscape.basis].
  unfold vsub. rewrite decide_True by lia. cbn [mbind outcome_bind bind]. fold w.
  assert (Hlw : length B0 = length w) by (unfold w; rewrite length_zip_with; lia).
  assert (0 < sqrt (INR D)) by (apply sqrt_lt_R0, lt_0_INR; lia).
  assert (0 < sqrt 2) by (apply sqrt_lt_R0; lra).
  destruct (decide (scl ∈ Losslandscape.ortho_options)) as [Ho|Ho].
  - destruct (Hortho Ho) as (G11 & G12 & G22).
    unfold tmatvec. rewrite decide_True by done. cbn [mbind outcome_bind bind].
    destruct (decide (scl = Some "rms_ortho")) as [Hr|Hr].
    + eexists _, _, _. split; [reflexivity|]. cbn [List.map]. rewrite matvec_pair.
      cbn [mbind outcome_bind bind]. unfold vadd.
      rewrite decide_True by (rewrite length_map; lia).
      split; [reflexivity|]. rewrite G11, G12, G22. split; field; lra.
    + eexists _, _, _. split; [reflexivity|]. rewrite matvec_pair.
      cbn [mbind outcome_bind bind]. unfold vadd.
      rewrite decide_True by (rewrite length_map; lia).
      split; [reflexivity|]. rewrite G11, G12, G22. split; lra.
  - assert (Hr : scl <> Some "rms_ortho") by (intros ->; apply Ho; compute_done).
    unfold Losslandscape.lstsq_solution. rewrite decide_True by done.
    cbn [mbind outcome_bind bind].
    rewrite (Hls B0 w Hlw (Hrank Ho)). rewrite !decide_False by done.
    unfold lstsq_normal. eexists _, _, _. split; [reflexivity|].
    rewrite decide_False by done. rewrite matvec_pair.
    cbn [mbind outcome_bind bind]. unfold vadd.
    rewrite decide_True by (rewrite length_map; lia).
    split; [reflexivity|]. apply normal_equations, Hrank, Ho.
Qed.

(** [error] is the distance from the vector to the plane: it returns
    on every vector of the right size, and no point [map] can reach is
    closer to the vector than the one [error] measures against. *)
Theorem error_is_distance_to_plane P v :
  lstsq_spec lstsq -> Losslandscape.ready P -> length v = Losslandscape.dim P ->
  exists e, Losslandscape.error_default lstsq P v = Return e /\ 0 <= e /\
    forall c u, Losslandscape.map P c true = Return u ->
      exists d n, vsub v u = Return d /\ norm (OrdInt 2) d = Return n /\ e <= n.
Proof.
  intros Hls Hready Hlv.
  destruct (project_then_map P v Hls Hready Hlv) as (coord & t1 & t2 & Hp & Hm & N1 & N2).
  destruct Hready as (Hla & Hlb & Hdim & _).
  cbv zeta in *.
  set (B := Losslandscape.basis P) in *. set (a := Losslandscape.affine P) in *.
  rewrite error_default_unfold, Hp. cbn [mbind outcome_bind bind]. rewrite Hm.
  cbn [mbind outcome_bind bind]. unfold vsub at 1.
  rewrite decide_True by (rewrite length_zip_with, length_map; lia).
  cbn [mbind outcome_bind bind]. eexists; split; [reflexivity|].
  split; [apply sqrt_pos|].
  intros c u Hu. destruct (map_position_inv _ _ _ Hu) as (x & y & _ & _ & ->).
  fold B a. unfold vsub. rewrite decide_True by (rewrite length_zip_with, length_map; lia).
  eexists _, _. split; [reflexivity|]. split; [apply norm_two|].
  apply sqrt_le_1_alt.
  rewrite !sub_add_rows by (rewrite ?length_map; lia).
  rewrite !sum_squares_sub_matvec by (rewrite length_zip_with; lia).
  rewrite <- N1, <- N2.
  pose proof (gram_form_nonneg B (x - t1) (y - t2)). nra.
Qed.

(** [error] vanishes exactly on the points of the plane. *)
Theorem error_zero_iff_on_plane P v :
  lstsq_spec lstsq -> Losslandscape.ready P ->
  Losslandscape.error_default lstsq P v = Return 0 <->
  exists c, Losslandscape.map P c true = Return v.
Proof.
  intros Hls Hready. rewrite error_default_unfold. split.
  - intros H.
    destruct (Losslandscape.project lstsq P v true) as [coord| |]; try done.
    cbn [mbind outcome_bind bind] in H.
    destruct (Losslandscape.map P coord true) as [back| |] eqn:Hm; try done.
    cbn [mbind outcome_bind bind] in H. unfold vsub in H.
    destruct (decide (length v = length back)) as [Hl|]; [|done].
    cbn [mbind outcome_bind bind] in H. injection H as H.
    exists coord. rewrite Hm. f_equal. symmetry. apply sub_zero_eq; [done|].
    apply sum_squares_zero, sqrt_eq_0; [apply sum_squares_nonneg|done].
  - intros (c & Hc).
    destruct (map_position_inv _ _ _ Hc) as (x & y & Hlc & _ & _).
    destruct c as [|x' [|y' [|]]]; try done.
    destruct Hready as (Hla & Hlb & Hdim & Hortho & Hrank).
    destruct (losslandscape_project_map lstsq P x' y' true) as (v' & Hm & Hp);
      try done; [lia|].
    rewrite Hc in Hm. injection Hm as <-. rewrite Hp. cbn [mbind outcome_bind bind].
    rewrite Hc. cbn [mbind outcome_bind bind]. unfold vsub. rewrite decide_True by done.
    cbn [mbind outcome_bind bind]. by rewrite sum_squares_sub_self, sqrt_0.
Qed.

(** The named norms: ['rms'] is the default error divided by the square
    root of the number of entries, ['fro'] is the default error, and the
    string ['inf'] stands for [float('inf')]. *)
Theorem error_named_norms P v e :
  Losslandscape.error_default lstsq P v = Return e -> v <> [] ->
  Losslandscape.error lstsq P v (OrdStr "rms") = Return (e / sqrt (INR (length v))) /\
  Losslandscape.error lstsq P v (OrdStr "fro") = Return e /\
  Losslandscape.error lstsq P v (OrdStr "inf") = Losslandscape.error lstsq P v OrdInf.
Proof.
  rewrite error_default_unfold. unfold Losslandscape.error. intros H Hne.
  destruct (Losslandscape.project lstsq P v true) as [coord| |]; try done.
  cbn [mbind outcome_bind bind] in *.
  destruct (Losslandscape.map P coord true) as [back| |]; try done.
  cbn [mbind outcome_bind bind] in *. unfold vsub in *.
  destruct (decide (length v = length back)) as [Hl|]; [|done].
  cbn [mbind outcome_bind bind] in *. injection H as <-.
  rewrite (decide_False (P := OrdStr "rms" = OrdStr "inf")) by done.
  rewrite (decide_False (P := OrdStr "fro" = OrdStr "inf")) by done.
  rewrite (decide_True (P := OrdStr "inf" = OrdStr "inf")) by done.
  rewrite (decide_True (P := OrdStr "rms" = OrdStr "rms")) by done.
  rewrite (decide_False (P := OrdStr "fro" = OrdStr "rms")) by done.
  rewrite (decide_False (P := OrdInf = OrdStr "inf")) by done.
  split; [|split; [|done]].
  - f_equal. unfold rms. rewrite length_zip_with, <- Hl, Nat.min_id.
    apply sqrt_div_alt, lt_0_INR. destruct v; [done|simpl; lia].
  - unfold norm. by rewrite decide_True by (by right).
Qed.

End ErrorFacts.

Section ErrorWitness.
Local Open Scope R_scope.

Lemma plane_z1_ready :
  Losslandscape.ready
    {| Losslandscape.center := None; Losslandscape.scale := None; Losslandscape.dim := 3;
       Losslandscape.affine := [0; 0; 1]; Losslandscape.basis := [(1, 0); (0, 1); (0, 0)] |}.
Proof.
  unfold Losslandscape.ready; cbn.
  split; [reflexivity|]. split; [reflexivity|]. split; [lia|]. split.
  - intros Hs. exfalso. revert Hs. compute_done.
  - intros _. unfold_gram. simpl. lra.
Qed.

Lemma error_is_distance_to_plane_witness :
  exists e,
    Losslandscape.error_default lstsq_normal
      {| Losslandscape.center := None; Losslandscape.scale := None; Losslandscape.dim := 3;
         Losslandscape.affine := [0; 0; 1]; Losslandscape.basis := [(1, 0); (0, 1); (0, 0)] |}
      [3; 4; 5] = Return e /\ 0 <= e /\
    forall c u,
      Losslandscape.map
        {| Losslandscape.center := None; Losslandscape.scale := None; Losslandscape.dim := 3;
           Losslandscape.affine := [0; 0; 1]; Losslandscape.basis := [(1, 0); (0, 1); (0, 0)] |}
        c true = Return u ->
      exists d n, vsub [3; 4; 5] u = Return d /\ norm (OrdInt 2) d = Return n /\ e <= n.
Proof.
  apply (error_is_distance_to_plane lstsq_normal _ [3; 4; 5]).
  - exact lstsq_normal_meets_spec.
  - exact plane_z1_ready.
  - reflexivity.
Defined.

Lemma error_zero_iff_on_plane_witness :
  Losslandscape.error_default lstsq_normal
    {| Losslandscape.center := None; Losslandscape.scale := None; Losslandscape.dim := 3;
       Losslandscape.affine := [0; 0; 1]; Losslandscape.basis := [(1, 0); (0, 1); (0, 0)] |}
    [3; 4; 1] = Return 0 <->
  exists c,
    Losslandscape.map
      {| Losslandscape.center := None; Losslandscape.scale := None; Losslandscape.dim := 3;
         Losslandscape.affine := [0; 0; 1]; Losslandscape.basis := [(1, 0); (0, 1); (0, 0)] |}
      c true = Return [3; 4; 1].
Proof.
  apply (error_zero_iff_on_plane lstsq_normal _ [3; 4; 1]).
  - exact lstsq_normal_meets_spec.
  - exact plane_z1_ready.
Defined.

Lemma error_named_norms_witness :
  exists e,
    Losslandscape.error_default lstsq_normal
      {| Losslandscape.center := None; Losslandscape.scale := None; Losslandscape.dim := 3;
         Losslandscape.affine := [0; 0; 1]; Losslandscape.basis := [(1, 0); (0, 1); (0, 0)] |}
      [3; 4; 5] = Return e /\
    Losslandscape.error lstsq_normal
      {| Losslandscape.center := None; Losslandscape.scale := None; Losslandscape.dim := 3;
         Losslandscape.affine := [0; 0; 1]; Losslandscape.basis := [(1, 0); (0, 1); (0, 0)] |}
      [3; 4; 5] (OrdStr "rms") = Return (e / sqrt (INR (length [3; 4; 5]))).
Proof.
  destruct (Losslandscape.error_default lstsq_normal
              {| Losslandscape.center := None; Losslandscape.scale := None;
                 Losslandscape.dim := 3; Losslandscape.affine := [0; 0; 1];
                 Losslandscape.basis := [(1, 0); (0, 1); (0, 0)] |} [3; 4; 5])
    as [e| |] eqn:He; [|vm_compute in He; discriminate..].
  exists e. split; [done|].
  by apply (error_named_norms lstsq_normal _ [3; 4; 5] e He).
Defined.

End ErrorWitness.

(** ** ParamProjector.__call__ and the methods of the two classes *)

Section CallFacts.
Variable lstsq : mat2 -> vec -> vec.

Lemma losslandscape_project_raises (P : Losslandscape.ParamProjector) v b e :
  Losslandscape.project lstsq P v b = Raise e -> e = RuntimeError.
Proof.
  unfold Losslandscape.project, vsub, tmatvec, Losslandscape.lstsq_solution.
  destruct b; repeat (destruct (decide _); cbn [mbind outcome_bind bind]);
    intros [=]; done.
Qed.

Lemma losslandscape_map_raises (P : Losslandscape.ParamProjector) c b e :
  Losslandscape.map P c b = Raise e -> e = RuntimeError.
Proof.
  unfold Losslandscape.map, vadd.
  destruct (matvec _ _) as [w| |] eqn:Hw; cbn [mbind outcome_bind bind].
  - destruct b; repeat (destruct (decide _)); intros [=].
  - intros [= <-]. unfold matvec in Hw.
    destruct (if decide _ then _ else c) as [|x [|y [|]]] in Hw; congruence.
  - done.
Qed.

Lemma paramplane_project_eq (Pp : Paramplane.ParamProjector)
    (Pl : Losslandscape.ParamProjector) v b :
  Paramplane.scale Pp = Losslandscape.scale Pl ->
  Paramplane.dim Pp = Losslandscape.dim Pl ->
  Paramplane.affine Pp = Losslandscape.affine Pl ->
  Paramplane.basis Pp = Losslandscape.basis Pl ->
  Paramplane.project lstsq Pp v b = Losslandscape.project lstsq Pl v b /\
  Paramplane.map Pp v b = Losslandscape.map Pl v b.
Proof.
  intros Hs Hd Ha Hb. unfold Paramplane.project, Losslandscape.project,
    Paramplane.map, Losslandscape.map. by rewrite Hs, Hd, Ha, Hb.
Qed.

(** [__call__] of either class decides by the first size of its input:
    it fails on a tensor without dimensions, complains when the size is
    neither [dim] nor 2, and projects whatever has [dim] entries, so that
    in a two-dimensional parameter space no coordinate is ever mapped. *)
Theorem call_dispatch (Pl : Losslandscape.ParamProjector) (Pp : Paramplane.ParamProjector)
    (inp : tensor) (b : bool) :
  (Losslandscape.__call__ lstsq Pl inp b = Raise IndexError <-> shape inp = []) /\
  (Losslandscape.__call__ lstsq Pl inp b = Raise (ValueError Losslandscape.infer_message)
   <-> exists n rest, shape inp = n :: rest /\ n <> Losslandscape.dim Pl /\ n <> 2) /\
  (Paramplane.__call__ lstsq Pp inp b = Raise IndexError <-> shape inp = []) /\
  (Paramplane.__call__ lstsq Pp inp b = Raise (ValueError Paramplane.infer_message)
   <-> exists n rest, shape inp = n :: rest /\ n <> Paramplane.dim Pp /\ n <> 2) /\
  (forall c, length c = Losslandscape.dim Pl ->
     Losslandscape.__call__ lstsq Pl (vector c) b = Losslandscape.project lstsq Pl c b) /\
  (forall c, length c = Paramplane.dim Pp ->
     Paramplane.__call__ lstsq Pp (vector c) b = Paramplane.project lstsq Pp c b).
Proof.
  assert (Hl : forall e, e <> RuntimeError ->
            (Losslandscape.__call__ lstsq Pl inp b = Raise e <->
             match shape inp with
             | [] => e = IndexError
             | n :: _ => n <> Losslandscape.dim Pl /\ n <> 2 /\
                         e = ValueError Losslandscape.infer_message
             end)).
  { intros e He. unfold Losslandscape.__call__. destruct (shape inp) as [|n rest].
    - split; [by intros [= <-]|by intros ->].
    - destruct (decide (n = Losslandscape.dim Pl)) as [Hn|Hn].
      + split; [|by intros [? _]]. unfold as_vector.
        destruct (shape inp) as [|m [|]]; try done.
        destruct (decide _); try done. cbn [mbind outcome_bind bind].
        intros H. by apply losslandscape_project_raises in H.
      + destruct (decide (n = 2)) as [Hn2|Hn2].
        * split; [|by intros (_ & ? & _)]. unfold as_vector.
          destruct (shape inp) as [|m [|]]; try done.
          destruct (decide _); try done. cbn [mbind outcome_bind bind].
          intros H. by apply losslandscape_map_raises in H.
        * split; [by intros [= <-]|by intros (_ & _ & ->)]. }
  assert (Hp : forall e, e <> RuntimeError ->
            (Paramplane.__call__ lstsq Pp inp b = Raise e <->
             match shape inp with
             | [] => e = IndexError
             | n :: _ => n <> Paramplane.dim Pp /\ n <> 2 /\
                         e = ValueError Paramplane.infer_message
             end)).
  { set (Pl' := {| Losslandscape.center := Paramplane.center Pp;
                   Losslandscape.scale := Paramplane.scale Pp;
                   Losslandscape.dim := Paramplane.dim Pp;
                   Losslandscape.affine := Paramplane.affine Pp;
                   Losslandscape.basis := Paramplane.basis Pp |}).
    assert (Heq : forall v, Paramplane.project lstsq Pp v b = Losslandscape.project lstsq Pl' v b /\
                            Paramplane.map Pp v b = Losslandscape.map Pl' v b).
    { intros v. by apply paramplane_project_eq. }
    intros e He. unfold Paramplane.__call__. destruct (shape inp) as [|n rest].
    - split; [by intros [= <-]|by intros ->].
    - destruct (decide (n = Paramplane.dim Pp)) as [Hn|Hn].
      + split; [|by intros [? _]]. unfold as_vector.
        destruct (shape inp) as [|m [|]]; try done.
        destruct (decide _); try done. cbn [mbind outcome_bind bind].
        rewrite (proj1 (Heq _)). intros H. by apply losslandscape_project_raises in H.
      + destruct (decide (n = 2)) as [Hn2|Hn2].
        * split; [|by intros (_ & ? & _)]. unfold as_vector.
          destruct (shape inp) as [|m [|]]; try done.
          destruct (decide _); try done. cbn [mbind outcome_bind bind].
          rewrite (proj2 (Heq _)). intros H. by apply losslandscape_map_raises in H.
        * split; [by intros [= <-]|by intros (_ & _ & ->)]. }
  split; [|split; [|split; [|split; [|split]]]].
  - rewrite Hl by done.
    destruct (shape inp); split; try done; by intros (_ & _ & [=]).
  - rewrite Hl by done. destruct (shape inp) as [|n rest].
    + split; [done|]. by intros (? & ? & ? & _).
    + split.
      * intros (? & ? & _). by exists n, rest.
      * intros (n' & rest' & [= <- <-] & ? & ?). done.
  - rewrite Hp by done.
    destruct (shape inp); split; try done; by intros (_ & _ & [=]).
  - rewrite Hp by done. destruct (shape inp) as [|n rest].
    + split; [done|]. by intros (? & ? & ? & _).
    + split.
      * intros (? & ? & _). by exists n, rest.
      * intros (n' & rest' & [= <- <-] & ? & ?). done.
  - intros c Hc. unfold Losslandscape.__call__. cbn [shape vector].
    rewrite decide_True by done. by rewrite as_vector_vector.
  - intros c Hc. unfold Paramplane.__call__. cbn [shape vector].
    rewrite decide_True by done. by rewrite as_vector_vector.
Qed.

End CallFacts.

Section MethodsAgree.
Local Open Scope R_scope.

(** Projectors that the two constructors build from the same arguments
    are interchangeable in [project], [map], [error] and in [__call__]
    with the flag given: the classes differ only in the constructor's
    checks, in the unused [affine_inv] and in the default of [__call__]. *)
Theorem projector_methods_agree (lstsq : mat2 -> vec -> vec) (svd_U : mat2 -> mat2)
    (vec0 vec1 vec2 : tensor) (center scale : option string)
    (Pl : Losslandscape.ParamProjector) (Pp : Paramplane.ParamProjector) :
  Losslandscape.__init__ lstsq svd_U vec0 vec1 vec2 center scale = Return Pl ->
  Paramplane.__init__ lstsq svd_U vec0 vec1 vec2 center scale = Return Pp ->
  forall (v : vec) (inp : tensor) (b : bool) (p : norm_order),
    Paramplane.project lstsq Pp v b = Losslandscape.project lstsq Pl v b /\
    Paramplane.map Pp v b = Losslandscape.map Pl v b /\
    Paramplane.error lstsq Pp v p = Losslandscape.error lstsq Pl v p /\
    Paramplane.__call__ lstsq Pp inp b = Losslandscape.__call__ lstsq Pl inp b.
Proof.
  intros Hl Hp v inp b p.
  destruct (inits_agree _ _ _ _ _ _ _ _ _ Hl Hp) as (Hs & _ & Hd & _ & Ha & Hb).
  assert (Heq : forall w c, Paramplane.project lstsq Pp w c = Losslandscape.project lstsq Pl w c /\
                            Paramplane.map Pp w c = Losslandscape.map Pl w c).
  { intros w c. by apply paramplane_project_eq. }
  split; [apply Heq|]. split; [apply Heq|]. split.
  - unfold Paramplane.error, Losslandscape.error. rewrite (proj1 (Heq _ _)).
    destruct (Losslandscape.project lstsq Pl v true) as [coord| |]; try done.
    cbn [mbind outcome_bind bind]. by rewrite (proj2 (Heq _ _)).
  - unfold Paramplane.__call__, Losslandscape.__call__. rewrite Hd.
    destruct (shape inp) as [|n rest]; [done|].
    destruct (as_vector inp) as [w| |]; cbn [mbind outcome_bind bind];
      by rewrite ?(proj1 (Heq _ _)), ?(proj2 (Heq _ _)).
Qed.

Lemma projector_methods_agree_witness :
  exists Pl Pp,
    Losslandscape.__init__ lstsq_normal (fun B => B)
      (vector [0; 0; 5]) (vector [1; 0; 5]) (vector [0; 1; 5]) None None = Return Pl /\
    Paramplane.__init__ lstsq_normal (fun B => B)
      (vector [0; 0; 5]) (vector [1; 0; 5]) (vector [0; 1; 5]) None None = Return Pp /\
    forall (v : vec) (inp : tensor) (b : bool) (p : norm_order),
      Paramplane.project lstsq_normal Pp v b = Losslandscape.project lstsq_normal Pl v b /\
      Paramplane.map Pp v b = Losslandscape.map Pl v b /\
      Paramplane.error lstsq_normal Pp v p = Losslandscape.error lstsq_normal Pl v p /\
      Paramplane.__call__ lstsq_normal Pp inp b = Losslandscape.__call__ lstsq_normal Pl inp b.
Proof.
  destruct (Losslandscape.__init__ lstsq_normal (fun B => B)
              (vector [0; 0; 5]) (vector [1; 0; 5]) (vector [0; 1; 5]) None None)
    as [Pl| |] eqn:Hl; [|vm_compute in Hl; discriminate..].
  destruct (Paramplane.__init__ lstsq_normal (fun B => B)
              (vector [0; 0; 5]) (vector [1; 0; 5]) (vector [0; 1; 5]) None None)
    as [Pp| |] eqn:Hp; [|vm_compute in Hp; discriminate..].
  exists Pl, Pp. split; [done|]. split; [done|].
  exact (projector_methods_agree lstsq_normal (fun B => B)
           (vector [0; 0; 5]) (vector [1; 0; 5]) (vector [0; 1; 5]) None None Pl Pp Hl Hp).
Defined.

End MethodsAgree.

(** ** load_model: checkpoint identifiers *)

Section StringFacts.

Lemma split_nonempty sep s : split sep s <> [].
Proof. induction s as [|c s IH]; simpl; [done|]. destruct (decide _); [done|]. by destruct (split sep s). Qed.

(** One piece more than there are separators. *)
Lemma split_length sep s :
  length (split sep s) = S (count_occ ascii_dec (list_ascii_of_string s) sep).
Proof.
  induction s as [|c s IH]; simpl; [done|].
  destruct (decide (c = sep)) as [->|Hc].
  - destruct (ascii_dec sep sep); [|done]. simpl. by rewrite IH.
  - destruct (ascii_dec c sep); [done|].
    pose proof (split_nonempty sep s). destruct (split sep s); [done|]. by rewrite <- IH.
Qed.

Lemma endswith_empty p : p <> EmptyString -> endswith p EmptyString = false.
Proof. intros Hp. simpl. by destruct (decide _). Qed.

(** A string ends with the last character of each of its suffixes. *)
Lemma endswith_last p s :
  p <> EmptyString -> endswith p s = true ->
  last (list_ascii_of_string s) = last (list_ascii_of_string p).
Proof.
  intros Hp. induction s as [|c s IH]; intros H.
  - by rewrite endswith_empty in H.
  - simpl in H. destruct (decide (String c s = p)) as [<-|Hne]; [done|].
    specialize (IH H). destruct s as [|c' s]; [by rewrite endswith_empty in H|].
    simpl in *. done.
Qed.

Lemma init_suffixes_exclusive name :
  endswith ".init" name = true -> endswith ".init()" name = true -> False.
Proof.
  intros H1 H2. apply endswith_last in H1; [|done]. apply endswith_last in H2; [|done].
  rewrite H1 in H2. done.
Qed.

Lemma unpack2_pair {A : Type} (a b : A) : unpack2 [a; b] = Return (a, b).
Proof. reflexivity. Qed.

Lemma unpack2_raises {A : Type} (pieces : list A) :
  length pieces <> 2 -> unpack2 pieces = Raise (ValueError (unpack_message (length pieces))).
Proof. by destruct pieces as [|a [|b [|c l]]]. Qed.

End StringFacts.

Section LoaderFacts.
Context {Config Model : Type}.
Variable config_beside : string -> outcome Config.
Variable build_student : Config -> outcome Model.
Variable load_from_checkpoint :
  string -> Config -> Model -> outcome (Losslandscape.loaded Model).
Variable init_student_teacher : Config -> Model -> outcome (Model * Model).

Local Abbreviation ll_load_model :=
  (Losslandscape.load_model config_beside build_student load_from_checkpoint
     init_student_teacher).
Local Abbreviation pp_load_dino :=
  (Paramplane.load_dino build_student load_from_checkpoint init_student_teacher).
Local Abbreviation pp_load_model :=
  (Paramplane.load_model build_student load_from_checkpoint init_student_teacher).

(** An identifier that does not hold exactly one colon is refused with
    the [ValueError] of the unpacking, in both drivers and before any
    configuration, model or checkpoint is touched: the result does not
    depend on what the loaders would do. *)
Theorem load_model_rejects_identifier (identifier : string) (config : option Config)
    (cfg : Config) :
  count_occ ascii_dec (list_ascii_of_string identifier) ":"%char <> 1 ->
  let msg := unpack_message
               (S (count_occ ascii_dec (list_ascii_of_string identifier) ":"%char)) in
  ll_load_model identifier config = Raise (ValueError msg) /\
  pp_load_dino identifier cfg = Raise (ValueError msg) /\
  pp_load_model identifier cfg = Raise (ValueError msg).
Proof.
  intros Hn msg. unfold msg. rewrite <- split_length.
  assert (Hu : unpack2 (split ":" identifier)
               = Raise (ValueError (unpack_message (length (split ":" identifier))))).
  { apply unpack2_raises. rewrite split_length. lia. }
  unfold Losslandscape.load_model, Paramplane.load_model, Paramplane.load_dino.
  by rewrite Hu.
Qed.

Section OneColon.
Variables (identifier ckpt_path name : string) (cfg : Config) (student : Model).
Variables (dino : Losslandscape.loaded Model) (st : Model * Model).
Hypothesis Hsplit : split ":" identifier = [ckpt_path; name].
Hypothesis Hbuild : build_student cfg = Return student.
Hypothesis Hload : load_from_checkpoint ckpt_path cfg student = Return dino.
Hypothesis Hinit : init_student_teacher cfg (Losslandscape.student_arg dino) = Return st.

Lemma ll_load_model_eq :
  ll_load_model identifier (Some cfg) =
  let dino' := if endswith ".init" name
               then {| Losslandscape.student_arg := st.1; Losslandscape.dino_student := st.1;
                       Losslandscape.dino_teacher := st.2 |}
               else dino in
  if startswith "teacher" name then Return (Losslandscape.dino_teacher dino')
  else if startswith "student" name then Return (Losslandscape.dino_student dino')
  else Raise (ValueError (Losslandscape.unknown_name_message name)).
Proof using Hsplit Hbuild Hload Hinit.
  unfold Losslandscape.load_model. rewrite Hsplit, unpack2_pair.
  cbn [mbind outcome_bind bind fst snd]. rewrite Hbuild. cbn [mbind outcome_bind bind].
  rewrite Hload. cbn [mbind outcome_bind bind].
  destruct (endswith ".init" name); [rewrite Hinit|]; done.
Qed.

Lemma pp_load_model_eq :
  pp_load_model identifier cfg =
  let dino' := if endswith ".init()" name
               then {| Losslandscape.student_arg := st.1; Losslandscape.dino_student := st.1;
                       Losslandscape.dino_teacher := st.2 |}
               else dino in
  if startswith "teacher" name then Return (Losslandscape.dino_teacher dino')
  else if startswith "student" name then Return (Losslandscape.dino_student dino')
  else Raise (ValueError (Paramplane.unknown_name_message name)).
Proof using Hsplit Hbuild Hload Hinit.
  unfold Paramplane.load_model, Paramplane.load_dino. rewrite Hsplit, unpack2_pair.
  cbn [mbind outcome_bind bind fst snd]. rewrite Hbuild. cbn [mbind outcome_bind bind].
  rewrite Hload. cbn [mbind outcome_bind bind].
  destruct (endswith ".init()" name); [rewrite Hinit|]; done.
Qed.

End OneColon.

(** With one colon and loaders that return, either driver's
    [load_model] raises the unknown-name [ValueError] exactly when the
    name starts with neither [teacher] nor [student], and returns a
    model otherwise; nothing beyond the prefix is checked. *)
Theorem load_model_unknown_role (identifier ckpt_path name : string) (cfg : Config)
    (student : Model) (dino : Losslandscape.loaded Model) (st : Model * Model) :
  split ":" identifier = [ckpt_path; name] ->
  build_student cfg = Return student ->
  load_from_checkpoint ckpt_path cfg student = Return dino ->
  init_student_teacher cfg (Losslandscape.student_arg dino) = Return st ->
  (ll_load_model identifier (Some cfg)
     = Raise (ValueError (Losslandscape.unknown_name_message name))
   <-> startswith "teacher" name = false /\ startswith "student" name = false) /\
  (returns (ll_load_model identifier (Some cfg))
   <-> startswith "teacher" name = true \/ startswith "student" name = true) /\
  (pp_load_model identifier cfg
     = Raise (ValueError (Paramplane.unknown_name_message name))
   <-> startswith "teacher" name = false /\ startswith "student" name = false) /\
  (returns (pp_load_model identifier cfg)
   <-> startswith "teacher" name = true \/ startswith "student" name = true).
Proof.
  intros Hsplit Hbuild Hload Hinit.
  rewrite (ll_load_model_eq _ _ _ _ _ _ _ Hsplit Hbuild Hload Hinit).
  rewrite (pp_load_model_eq _ _ _ _ _ _ _ Hsplit Hbuild Hload Hinit).
  cbv zeta. unfold returns.
  destruct (startswith "teacher" name), (startswith "student" name);
    repeat split; try done; try (intros [? ?]; done); try (intros [?|?]; done);
    try (intros _; by eexists); try (by intros [? [=]]); try (by left); try (by right).
Qed.

(** The two drivers read the re-initialisation suffix differently:
    [.init] re-initialises in losslandscape only, [.init()] in paramplane
    only, and a name with neither suffix gives the same model in both. *)
Theorem init_suffix_differs (identifier ckpt_path name : string) (cfg : Config)
    (student : Model) (dino : Losslandscape.loaded Model) (st : Model * Model) :
  split ":" identifier = [ckpt_path; name] ->
  build_student cfg = Return student ->
  load_from_checkpoint ckpt_path cfg student = Return dino ->
  init_student_teacher cfg (Losslandscape.student_arg dino) = Return st ->
  startswith "teacher" name = true \/ startswith "student" name = true ->
  let fresh := if startswith "teacher" name then st.2 else st.1 in
  let stored := if startswith "teacher" name
                then Losslandscape.dino_teacher dino else Losslandscape.dino_student dino in
  (endswith ".init" name = true ->
     ll_load_model identifier (Some cfg) = Return fresh /\
     pp_load_model identifier cfg = Return stored) /\
  (endswith ".init()" name = true ->
     ll_load_model identifier (Some cfg) = Return stored /\
     pp_load_model identifier cfg = Return fresh) /\
  (endswith ".init" name = false -> endswith ".init()" name = false ->
     ll_load_model identifier (Some cfg) = Return stored /\
     pp_load_model identifier cfg = Return stored).
Proof.
  intros Hsplit Hbuild Hload Hinit Hrole fresh stored.
  rewrite (ll_load_model_eq _ _ _ _ _ _ _ Hsplit Hbuild Hload Hinit).
  rewrite (pp_load_model_eq _ _ _ _ _ _ _ Hsplit Hbuild Hload Hinit).
  cbv zeta. unfold fresh, stored.
  pose proof (init_suffixes_exclusive name) as Hex.
  destruct (endswith ".init" name), (endswith ".init()" name);
    try (exfalso; by apply Hex);
    destruct (startswith "teacher" name), (startswith "student" name);
    destruct Hrole as [?|?]; try done.
Qed.

End LoaderFacts.

Lemma load_model_rejects_identifier_witness :
  Losslandscape.load_model (Config := unit) (Model := string)
    (fun _ => Unmodelled) (fun _ => Unmodelled) (fun _ _ _ => Unmodelled)
    (fun _ _ => Unmodelled) "results/DINO/22abl14o/last.ckpt" None
  = Raise (ValueError "not enough values to unpack (expected 2, got 1)") /\
  Paramplane.load_model (Config := unit) (Model := string)
    (fun _ => Unmodelled) (fun _ _ _ => Unmodelled)
    (fun _ _ => Unmodelled) "C:/results/last.ckpt:teacher" tt
  = Raise (ValueError "too many values to unpack (expected 2)").
Proof.
  split.
  - apply (load_model_rejects_identifier (Config := unit) (Model := string)
             (fun _ => Unmodelled) (fun _ => Unmodelled) (fun _ _ _ => Unmodelled)
             (fun _ _ => Unmodelled) "results/DINO/22abl14o/last.ckpt" None tt).
    vm_compute. lia.
  - apply (load_model_rejects_identifier (Config := unit) (Model := string)
             (fun _ => Unmodelled) (fun _ => Unmodelled) (fun _ _ _ => Unmodelled)
             (fun _ _ => Unmodelled) "C:/results/last.ckpt:teacher" None tt).
    vm_compute. lia.
Defined.

Section LoaderWitness.

Local Abbreviation stored_models :=
  {| Losslandscape.student_arg := "built"; Losslandscape.dino_student := "stored student";
     Losslandscape.dino_teacher := "stored teacher" |}.

Lemma load_model_unknown_role_witness :
  Losslandscape.load_model (Config := unit) (Model := string)
    (fun _ => Unmodelled) (fun _ => Return "built")
    (fun _ _ _ => Return stored_models)
    (fun _ _ => Return ("fresh student", "fresh teacher"))
    "run/last.ckpt:model" (Some tt)
  = Raise (ValueError "Unkown name 'model', should be either 'teacher' or 'student'.") /\
  returns (Paramplane.load_model (Config := unit) (Model := string)
    (fun _ => Return "built") (fun _ _ _ => Return stored_models)
    (fun _ _ => Return ("fresh student", "fresh teacher"))
    "run/last.ckpt:teacher_ema" tt).
Proof.
  split.
  - apply (load_model_unknown_role (Config := unit) (Model := string)
             (fun _ => Unmodelled) (fun _ => Return "built")
             (fun _ _ _ => Return stored_models)
             (fun _ _ => Return ("fresh student", "fresh teacher"))
             "run/last.ckpt:model" "run/last.ckpt" "model" tt "built" stored_models
             ("fresh student", "fresh teacher")); done.
  - apply (load_model_unknown_role (Config := unit) (Model := string)
             (fun _ => Unmodelled) (fun _ => Return "built")
             (fun _ _ _ => Return stored_models)
             (fun _ _ => Return ("fresh student", "fresh teacher"))
             "run/last.ckpt:teacher_ema" "run/last.ckpt" "teacher_ema" tt "built" stored_models
             ("fresh student", "fresh teacher")); try done. by left.
Defined.

Lemma init_suffix_differs_witness :
  Losslandscape.load_model (Config := unit) (Model := string)
    (fun _ => Unmodelled) (fun _ => Return "built")
    (fun _ _ _ => Return stored_models)
    (fun _ _ => Return ("fresh student", "fresh teacher"))
    "run/last.ckpt:student.init" (Some tt) = Return "fresh student" /\
  Paramplane.load_model (Config := unit) (Model := string)
    (fun _ => Return "built") (fun _ _ _ => Return stored_models)
    (fun _ _ => Return ("fresh student", "fresh teacher"))
    "run/last.ckpt:student.init" tt = Return "stored student".
Proof.
  destruct (init_suffix_differs (Config := unit) (Model := string)
              (fun _ => Unmodelled) (fun _ => Return "built")
              (fun _ _ _ => Return stored_models)
              (fun _ _ => Return ("fresh student", "fresh teacher"))
              "run/last.ckpt:student.init" "run/last.ckpt" "student.init" tt "built"
              stored_models ("fresh student", "fresh teacher")) as (H & _ & _);
    [done|done|done|done|by right|].
  by apply H.
Defined.

End LoaderWitness.

(** ** The losslandscape evaluator: metrics and records *)

Section MetricFacts.
Context {Tn Input Label Num Dev : Type}.
Variables mean_squared_error cross_entropy entropy : Tn -> Tn -> Tn.
Variables log_softmax softmax texp tsum squeeze cpu : Tn -> Tn.
Variable tadd : Tn -> Tn -> Tn.
Variable radd : Z -> Tn -> Tn.
Variable tdiv : Tn -> Z -> Tn.
Variable label_count : Label -> Z.
Variable tensor_of : Num -> Tn.
Variable eval_probe : list (Tn * Label) -> list (Tn * Label) -> list (string * Num).
Variable normalize_data :
  list (Tn * Label) -> list (Tn * Label) -> list (Tn * Label) * list (Tn * Label).
Variable lstsq : mat2 -> vec -> vec.
Variable vector_to_module : vec -> Input -> Losslandscape.model_out Tn.
Variable teacher : Input -> Losslandscape.model_out Tn.
Variable coord_tensor : vec -> Tn.
Variable norm2 : vec -> Tn.
Variable device : Dev.

Local Abbreviation iadd := (Losslandscape.iadd tadd radd).
Local Abbreviation update_losses :=
  (Losslandscape.update_losses mean_squared_error cross_entropy entropy
     log_softmax softmax texp tsum tadd radd).
Local Abbreviation pass :=
  (Losslandscape.pass (Dev := Dev) mean_squared_error cross_entropy entropy
     log_softmax softmax texp tsum squeeze tadd radd label_count).
Local Abbreviation averages := (Losslandscape.averages tdiv).
Local Abbreviation add_probe := (Losslandscape.add_probe tensor_of).
Local Abbreviation eval_student :=
  (Losslandscape.eval_student (Dev := Dev) mean_squared_error cross_entropy entropy
     log_softmax softmax texp tsum squeeze tadd radd tdiv label_count tensor_of
     eval_probe normalize_data).
Local Abbreviation eval_coord :=
  (Losslandscape.eval_coord mean_squared_error cross_entropy entropy
     log_softmax softmax texp tsum squeeze cpu tadd radd tdiv label_count tensor_of
     eval_probe normalize_data lstsq vector_to_module teacher coord_tensor norm2 device).
Local Abbreviation eval_coords :=
  (Losslandscape.eval_coords mean_squared_error cross_entropy entropy
     log_softmax softmax texp tsum squeeze cpu tadd radd tdiv label_count tensor_of
     eval_probe normalize_data lstsq vector_to_module teacher coord_tensor norm2 device).

Local Abbreviation eval_coords_job :=
  (Losslandscape.eval_coords_job mean_squared_error cross_entropy entropy
     log_softmax softmax texp tsum squeeze cpu tadd radd tdiv label_count tensor_of
     eval_probe normalize_data lstsq vector_to_module teacher coord_tensor norm2 device).

(** The evaluator of paramplane: its softmax over axis 1 and its copy of
    a tensor are further routines of torch. *)
Variables log_softmax_dim1 tensor_copy : Tn -> Tn.
Local Abbreviation pp_criterion_of :=
  (Paramplane.criterion_of mean_squared_error cross_entropy log_softmax_dim1 softmax).
Local Abbreviation pp_pass :=
  (Paramplane.pass (Dev := Dev) tsum squeeze tadd radd label_count).
Local Abbreviation pp_eval_student :=
  (Paramplane.eval_student (Num := Num) (Dev := Dev) tsum squeeze tadd radd tdiv label_count
     eval_probe normalize_data).
Local Abbreviation pp_eval_coords :=
  (Paramplane.eval_coords mean_squared_error cross_entropy log_softmax_dim1 softmax tsum
     squeeze cpu tensor_copy tadd radd tdiv label_count tensor_of eval_probe normalize_data
     lstsq vector_to_module teacher coord_tensor norm2 device).


(** The summed loss terms of one batch, as [update_losses] computes them. *)
Local Abbreviation mse_term := (fun so to : Losslandscape.model_out Tn =>
  tsum (mean_squared_error (Losslandscape.logits so) (Losslandscape.logits to))).
Local Abbreviation ce_term := (fun so to : Losslandscape.model_out Tn =>
  tsum (cross_entropy (log_softmax (Losslandscape.logits so))
          (softmax (Losslandscape.logits to)))).
Local Abbreviation h_term := (fun so to : Losslandscape.model_out Tn =>
  tsum (entropy (texp (log_softmax (Losslandscape.logits so)))
          (log_softmax (Losslandscape.logits so)))).

Section OneStudent.
Variable student : Input -> Losslandscape.model_out Tn.

(** A loss summed over a loader from a start value, the number of
    examples counted, and the probe data collected. *)
Local Abbreviation total := (fun (term : Losslandscape.model_out Tn ->
                                 Losslandscape.model_out Tn -> Tn)
                                 (start : Losslandscape.number Tn)
                                 (dl : list (Input * Label)) =>
  foldl iadd start (List.map (fun b => term (student b.1) (teacher b.1)) dl)).
Local Abbreviation numel := (fun (start : Z) (dl : list (Input * Label)) =>
  foldl (fun n b => (n + label_count b.2)%Z) start dl).
Local Abbreviation probe_data := (fun dl : list (Input * Label) =>
  List.map (fun b => (squeeze (Losslandscape.embeddings (student b.1)), b.2)) dl).

Lemma pass_loop_closed (dl : list (Input * Label)) n data m c k h :
  for_each
    (fun st batch =>
       losses ← update_losses (student batch.1) (teacher batch.1) st.2;
       Return ((st.1.1 + label_count batch.2)%Z,
               st.1.2 ++ [(squeeze (Losslandscape.embeddings (student batch.1)), batch.2)],
               losses))
    (n, data, [("MSE", m); ("CE", c); ("KL", k); ("H", h)]) dl
  = Return (numel n dl, data ++ probe_data dl,
            [("MSE", total mse_term m dl); ("CE", total ce_term c dl);
             ("KL", total ce_term k dl); ("H", total h_term h dl)]).
Proof.
  revert n data m c k h. induction dl as [|batch dl IH]; intros n data m c k h.
  - simpl. by rewrite app_nil_r.
  - cbn [for_each]. cbn [fst snd]. rewrite update_losses_adds_same.
    cbn [mbind outcome_bind bind]. rewrite IH. cbn [List.map foldl].
    by rewrite <- app_assoc.
Qed.

Lemma pass_closed (d : Dev) (dl : list (Input * Label)) :
  pass (Some d) student teacher dl
  = Return (numel 0%Z dl, probe_data dl,
            [("MSE", total mse_term (Losslandscape.PyInt 0) dl);
             ("CE", total ce_term (Losslandscape.PyInt 0) dl);
             ("KL", total ce_term (Losslandscape.PyInt 0) dl);
             ("H", total h_term (Losslandscape.PyInt 0) dl)]).
Proof. exact (pass_loop_closed dl _ _ _ _ _ _). Qed.

(** Without a device the first batch already fails: [batch[1]] is the
    batch itself, and it has no [shape]. *)
Lemma pass_no_device (dl : list (Input * Label)) :
  pass None student teacher dl
  = match dl with
    | [] => Return (0%Z, [], Losslandscape.zero_losses)
    | _ :: _ => Raise AttributeError
    end.
Proof. by destruct dl. Qed.

(** A sum that has taken in a batch is a tensor. *)
Lemma total_tensor term start (dl : list (Input * Label)) :
  dl <> [] -> exists t, total term start dl = Losslandscape.PyTensor t.
Proof.
  assert (Hfold : forall (l : list Tn) t,
            exists t', foldl iadd (Losslandscape.PyTensor t) l = Losslandscape.PyTensor t').
  { induction l as [|x l IH]; intros t; simpl; [by eexists|]. apply IH. }
  intros Hne. destruct dl as [|b dl]; [done|]. cbn [List.map foldl].
  destruct start; apply Hfold.
Qed.

Lemma eval_student_no_training_batch valid_dl (dev : option Dev) :
  eval_student student teacher [] valid_dl dev = Raise ZeroDivisionError.
Proof. reflexivity. Qed.

Lemma eval_student_no_device train_dl valid_dl :
  train_dl <> [] ->
  eval_student student teacher train_dl valid_dl None = Raise AttributeError.
Proof.
  intros Hne. unfold Losslandscape.eval_student. rewrite pass_no_device.
  by destruct train_dl.
Qed.

Lemma averages_of_tensors prefix (m c k h : Tn) n (out : gmap string Tn) :
  averages prefix [("MSE", Losslandscape.PyTensor m); ("CE", Losslandscape.PyTensor c);
                   ("KL", Losslandscape.PyTensor k); ("H", Losslandscape.PyTensor h)] n out
  = Return (<[prefix +:+ "H" := tdiv h n]> (<[prefix +:+ "KL" := tdiv k n]>
             (<[prefix +:+ "CE" := tdiv c n]> (<[prefix +:+ "MSE" := tdiv m n]> out)))).
Proof. reflexivity. Qed.

Lemma eval_student_no_validation_batch (d : Dev) train_dl :
  train_dl <> [] ->
  eval_student student teacher train_dl [] (Some d) = Raise ZeroDivisionError.
Proof.
  intros Hne. unfold Losslandscape.eval_student. rewrite !pass_closed.
  cbn [mbind outcome_bind bind fst snd].
  destruct (total_tensor mse_term (Losslandscape.PyInt 0) train_dl Hne) as (m & ->).
  destruct (total_tensor ce_term (Losslandscape.PyInt 0) train_dl Hne) as (c & ->).
  destruct (total_tensor h_term (Losslandscape.PyInt 0) train_dl Hne) as (h & ->).
  by rewrite averages_of_tensors.
Qed.

Lemma eval_student_returned_batches train_dl valid_dl (dev : option Dev) out :
  eval_student student teacher train_dl valid_dl dev = Return out ->
  is_Some dev /\ train_dl <> [] /\ valid_dl <> [].
Proof.
  intros Hout. destruct train_dl as [|b train_dl'].
  { by rewrite eval_student_no_training_batch in Hout. }
  destruct dev as [d|]; [|by rewrite eval_student_no_device in Hout].
  split; [by eexists|]. split; [done|].
  destruct valid_dl as [|b' valid_dl']; [|done].
  by rewrite eval_student_no_validation_batch in Hout.
Qed.

(** The eight loss entries of a returned dictionary. *)
Lemma eval_student_losses (train_dl valid_dl : list (Input * Label)) (dev : option Dev)
    (out : gmap string Tn) :
  eval_student student teacher train_dl valid_dl dev = Return out ->
  exists tm tc th vm vc vh,
    (total mse_term (Losslandscape.PyInt 0) train_dl = Losslandscape.PyTensor tm /\
     total ce_term (Losslandscape.PyInt 0) train_dl = Losslandscape.PyTensor tc /\
     total h_term (Losslandscape.PyInt 0) train_dl = Losslandscape.PyTensor th) /\
    (total mse_term (Losslandscape.PyInt 0) valid_dl = Losslandscape.PyTensor vm /\
     total ce_term (Losslandscape.PyInt 0) valid_dl = Losslandscape.PyTensor vc /\
     total h_term (Losslandscape.PyInt 0) valid_dl = Losslandscape.PyTensor vh) /\
    (out !! "train/MSE" = Some (tdiv tm (numel 0%Z train_dl)) /\
     out !! "train/CE" = Some (tdiv tc (numel 0%Z train_dl)) /\
     out !! "train/KL" = Some (tdiv tc (numel 0%Z train_dl)) /\
     out !! "train/H" = Some (tdiv th (numel 0%Z train_dl))) /\
    (out !! "valid/MSE" = Some (tdiv vm (numel 0%Z valid_dl)) /\
     out !! "valid/CE" = Some (tdiv vc (numel 0%Z valid_dl)) /\
     out !! "valid/KL" = Some (tdiv vc (numel 0%Z valid_dl)) /\
     out !! "valid/H" = Some (tdiv vh (numel 0%Z valid_dl))).
Proof.
  intros Hout.
  destruct (eval_student_returned_batches _ _ _ _ Hout) as ([d ->] & Ht & Hv). revert Hout.
  unfold Losslandscape.eval_student. rewrite !pass_closed.
  cbn [mbind outcome_bind bind fst snd].
  destruct (total_tensor mse_term (Losslandscape.PyInt 0) train_dl Ht) as (tm & Etm).
  destruct (total_tensor ce_term (Losslandscape.PyInt 0) train_dl Ht) as (tc & Etc).
  destruct (total_tensor h_term (Losslandscape.PyInt 0) train_dl Ht) as (th & Eth).
  destruct (total_tensor mse_term (Losslandscape.PyInt 0) valid_dl Hv) as (vm & Evm).
  destruct (total_tensor ce_term (Losslandscape.PyInt 0) valid_dl Hv) as (vc & Evc).
  destruct (total_tensor h_term (Losslandscape.PyInt 0) valid_dl Hv) as (vh & Evh).
  rewrite Etm, Etc, Eth, Evm, Evc, Evh. rewrite !averages_of_tensors.
  cbn [mbind outcome_bind bind]. intros [= <-].
  exists tm, tc, th, vm, vc, vh. split; [done|]. split; [done|].
  split; repeat split;
    (rewrite !add_probe_lookup_other by (intros k; simpl; discriminate));
    simpl; by simplify_map_eq.
Qed.


(** The loss entries of what [eval_student] returns: each is the sum of
    the per-batch sums over the whole loader divided by the number of
    examples of the loader, under the loader's prefix; no probe entry
    replaces one of them. *)
Theorem eval_student_metrics (train_dl valid_dl : list (Input * Label))
    (dev : option Dev) (out : gmap string Tn) :
  eval_student student teacher train_dl valid_dl dev = Return out ->
  forall prefix dl name term,
    (prefix, dl) ∈ [("train/", train_dl); ("valid/", valid_dl)] ->
    (name, term) ∈ [("MSE", mse_term); ("CE", ce_term); ("KL", ce_term); ("H", h_term)] ->
    exists t, total term (Losslandscape.PyInt 0) dl = Losslandscape.PyTensor t /\
              out !! (prefix +:+ name) = Some (tdiv t (numel 0%Z dl)).
Proof.
  intros Hout prefix dl name term Hp Hn.
  destruct (eval_student_losses _ _ _ _ Hout)
    as (tm & tc & th & vm & vc & vh & (Etm & Etc & Eth) & (Evm & Evc & Evh)
        & (? & ? & ? & ?) & (? & ? & ? & ?)).
  repeat (apply elem_of_cons in Hp as [[= -> ->]|Hp]);
    [| |by apply elem_of_nil in Hp];
    repeat (apply elem_of_cons in Hn as [[= -> ->]|Hn]);
    try (by apply elem_of_nil in Hn);
    eexists; (split; [eassumption|]); done.
Qed.

End OneStudent.

(** *** The job of losslandscape and the evaluator of paramplane *)

(** Whether a call of the projector returns, and with which error it
    fails, is decided by the number of entries of its argument alone. *)
Lemma project_same_outcome (P : Losslandscape.ParamProjector) (c c' : vec) b :
  length c = length c' ->
  match Losslandscape.project lstsq P c b, Losslandscape.project lstsq P c' b with
  | Return _, Return _ => True
  | Raise e, Raise e' => e = e'
  | Unmodelled, Unmodelled => True
  | _, _ => False
  end.
Proof.
  intros Hlen. unfold Losslandscape.project, vsub, tmatvec, Losslandscape.lstsq_solution.
  rewrite <- Hlen.
  destruct b; repeat (case_decide; cbn [mbind outcome_bind bind]);
    rewrite ?length_zip_with in *; try done; lia.
Qed.

Lemma map_same_outcome (P : Losslandscape.ParamProjector) (c c' : vec) b :
  length c = length c' ->
  match Losslandscape.map P c b, Losslandscape.map P c' b with
  | Return _, Return _ => True
  | Raise e, Raise e' => e = e'
  | Unmodelled, Unmodelled => True
  | _, _ => False
  end.
Proof.
  intros Hlen. unfold Losslandscape.map.
  destruct c as [|x [|y [|z c]]]; destruct c' as [|x' [|y' [|z' c']]]; try done;
    destruct (decide (Losslandscape.scale P = Some "rms_ortho"));
    cbn [List.map matvec mbind outcome_bind bind]; try done;
    unfold vadd; rewrite ?length_map; destruct b; try done; by case_decide.
Qed.

Lemma call_default_same_outcome (P : Losslandscape.ParamProjector) (c c' : vec) :
  length c = length c' ->
  match Losslandscape.call_default lstsq P (vector c),
        Losslandscape.call_default lstsq P (vector c') with
  | Return _, Return _ => True
  | Raise e, Raise e' => e = e'
  | Unmodelled, Unmodelled => True
  | _, _ => False
  end.
Proof.
  intros Hlen. unfold Losslandscape.call_default, Losslandscape.__call__.
  change (shape (vector c)) with [length c]. change (shape (vector c')) with [length c'].
  rewrite !as_vector_vector, <- Hlen. cbn [mbind outcome_bind bind].
  destruct (decide (length c = Losslandscape.dim P)); [by apply project_same_outcome|].
  destruct (decide (length c = 2)); [by apply map_same_outcome|done].
Qed.

(** What the line printing the norm of the origin does to a job: on an
    empty chunk [coords[0]] raises IndexError where the loop alone, and
    the job of paramplane, which has no such line, return the empty
    list; on any other chunk the job ends as its loop does, since the
    call at the origin fails exactly when the call at the first
    coordinate does, with the same error. *)
Theorem origin_line_of_the_job (P : Losslandscape.ParamProjector)
    (Q : Paramplane.ParamProjector) (loss : option string)
    (train_dl valid_dl : list (Input * Label)) :
  eval_coords_job P train_dl valid_dl [] = Raise IndexError /\
  eval_coords P train_dl valid_dl [] = Return [] /\
  pp_eval_coords loss Q train_dl valid_dl [] = Return [] /\
  forall coord coords,
    eval_coords_job P train_dl valid_dl (coord :: coords)
    = eval_coords P train_dl valid_dl (coord :: coords).
Proof.
  split; [done|]. split; [done|]. split; [done|]. intros coord coords.
  unfold Losslandscape.eval_coords_job. cbn [Losslandscape.first_row mbind outcome_bind bind].
  pose proof (call_default_same_outcome P (List.map (fun _ => 0%R) coord) coord
                (length_map _ _)) as Hsame.
  destruct (Losslandscape.call_default lstsq P (vector (List.map (fun _ => 0%R) coord)))
    as [origin|e|]; cbn [mbind outcome_bind bind]; [done| |];
    unfold Losslandscape.eval_coords; cbn [collect];
    unfold Losslandscape.eval_coord at 1;
    destruct (Losslandscape.call_default lstsq P (vector coord)) as [v|e'|];
    try done; cbn [mbind outcome_bind bind]; by subst.
Qed.

(** *** The evaluator of paramplane *)

Lemma paramplane_pass_loop (criterion : Tn -> Tn -> Tn)
    (student : Input -> Losslandscape.model_out Tn) (dl : list (Input * Label)) n loss data :
  for_each
    (fun st batch =>
       Return ((st.1.1 + label_count batch.2)%Z,
               iadd st.1.2 (tsum (criterion (Losslandscape.logits (student batch.1))
                                    (Losslandscape.logits (teacher batch.1)))),
               st.2 ++ [(squeeze (Losslandscape.embeddings (student batch.1)), batch.2)]))
    (n, loss, data) dl
  = Return
      (foldl (fun n b => (n + label_count b.2)%Z) n dl,
       foldl iadd loss
         (List.map (fun b => tsum (criterion (Losslandscape.logits (student b.1))
                                     (Losslandscape.logits (teacher b.1)))) dl),
       data ++ List.map (fun b => (squeeze (Losslandscape.embeddings (student b.1)), b.2)) dl).
Proof.
  revert n loss data. induction dl as [|b dl IH]; intros n loss data.
  - simpl. by rewrite app_nil_r.
  - cbn [for_each bind foldl List.map fst snd]. rewrite IH. by rewrite <- app_assoc.
Qed.

Lemma paramplane_pass_closed (d : Dev) (criterion : Tn -> Tn -> Tn)
    (student : Input -> Losslandscape.model_out Tn) (dl : list (Input * Label)) :
  pp_pass (Some d) criterion student teacher dl
  = Return
      (foldl (fun n b => (n + label_count b.2)%Z) 0%Z dl,
       foldl iadd (Losslandscape.PyInt 0)
         (List.map (fun b => tsum (criterion (Losslandscape.logits (student b.1))
                                     (Losslandscape.logits (teacher b.1)))) dl),
       List.map (fun b => (squeeze (Losslandscape.embeddings (student b.1)), b.2)) dl).
Proof. exact (paramplane_pass_loop criterion student dl 0%Z (Losslandscape.PyInt 0) []). Qed.

Lemma paramplane_pass_no_device (criterion : Tn -> Tn -> Tn)
    (student : Input -> Losslandscape.model_out Tn) (dl : list (Input * Label)) :
  pp_pass None criterion student teacher dl
  = match dl with
    | [] => Return (0%Z, Losslandscape.PyInt 0, [])
    | _ :: _ => Raise AttributeError
    end.
Proof. by destruct dl. Qed.

Lemma paramplane_add_probe_lookup_other prefix (probe : list (string * Num))
    (out : gmap string (Paramplane.value Tn Num)) key :
  (forall k, prefix +:+ k <> key) ->
  Paramplane.add_probe prefix probe out !! key = out !! key.
Proof.
  intros Hne. unfold Paramplane.add_probe. revert out.
  induction probe as [|kv probe IH]; intros out; simpl; [done|].
  rewrite IH. by apply lookup_insert_ne.
Qed.

(** What [eval_student] of paramplane returns, and how it fails. *)
Lemma paramplane_eval_student_closed (criterion : Tn -> Tn -> Tn)
    (student : Input -> Losslandscape.model_out Tn) (train_dl valid_dl : list (Input * Label))
    (dev : option Dev) :
  let term := fun so to : Losslandscape.model_out Tn =>
                tsum (criterion (Losslandscape.logits so) (Losslandscape.logits to)) in
  match pp_eval_student criterion student teacher train_dl valid_dl dev with
  | Return out =>
      is_Some dev /\ train_dl <> [] /\ valid_dl <> [] /\
      exists t v,
        foldl iadd (Losslandscape.PyInt 0)
          (List.map (fun b => term (student b.1) (teacher b.1)) train_dl)
        = Losslandscape.PyTensor t /\
        foldl iadd (Losslandscape.PyInt 0)
          (List.map (fun b => term (student b.1) (teacher b.1)) valid_dl)
        = Losslandscape.PyTensor v /\
        out !! "train/loss"
        = Some (Paramplane.VTensor
                  (tdiv t (foldl (fun n b => (n + label_count b.2)%Z) 0%Z train_dl))) /\
        out !! "valid/loss"
        = Some (Paramplane.VTensor
                  (tdiv v (foldl (fun n b => (n + label_count b.2)%Z) 0%Z valid_dl)))
  | Raise e =>
      (e = AttributeError /\ dev = None /\ train_dl <> []) \/
      (e = ZeroDivisionError /\ (train_dl = [] \/ (is_Some dev /\ valid_dl = [])))
  | Unmodelled => False
  end.
Proof.
  intros term. unfold Paramplane.eval_student.
  destruct train_dl as [|b tl].
  { destruct dev; cbn; right; split; [done|by left|done|by left]. }
  destruct dev as [d|].
  2: { rewrite paramplane_pass_no_device. cbn. by left. }
  rewrite !paramplane_pass_closed. cbn [mbind outcome_bind bind fst snd].
  destruct (total_tensor student term (Losslandscape.PyInt 0) (b :: tl)) as (t & Ht); [done|].
  change (foldl iadd (Losslandscape.PyInt 0)
            (List.map (fun b => term (student b.1) (teacher b.1)) (b :: tl))
          = Losslandscape.PyTensor t) in Ht.
  unfold term in Ht |- *. rewrite Ht. cbn [Losslandscape.truediv mbind outcome_bind bind].
  destruct valid_dl as [|b' vl].
  { cbn. right. split; [done|]. right. by eauto. }
  destruct (total_tensor student term (Losslandscape.PyInt 0) (b' :: vl)) as (v & Hv); [done|].
  change (foldl iadd (Losslandscape.PyInt 0)
            (List.map (fun b => term (student b.1) (teacher b.1)) (b' :: vl))
          = Losslandscape.PyTensor v) in Hv.
  unfold term in Hv. rewrite Hv. cbn [Losslandscape.truediv mbind outcome_bind bind].
  split; [by eexists|]. split; [done|]. split; [done|].
  exists t, v. split; [done|]. split; [done|].
  rewrite !paramplane_add_probe_lookup_other by (intros k; simpl; discriminate).
  split; by simplify_map_eq.
Qed.


(** The single loss of paramplane is one of the four of losslandscape:
    its [train/loss] and [valid/loss] are the MSE entries when the loss
    argument is ['MSE'] and the CE entries for any other value, also a
    missing one, provided the softmax over axis 1 is the one over the
    last axis, as it is on two-dimensional logits. *)
Theorem paramplane_loss_is_losslandscape_metric (loss : option string)
    (student : Input -> Losslandscape.model_out Tn) (train_dl valid_dl : list (Input * Label))
    (devp devl : option Dev)
    (outp : gmap string (Paramplane.value Tn Num)) (outl : gmap string Tn) :
  (forall t, log_softmax_dim1 t = log_softmax t) ->
  pp_eval_student (pp_criterion_of loss) student teacher train_dl valid_dl devp
  = Return outp ->
  eval_student student teacher train_dl valid_dl devl = Return outl ->
  forall prefix, prefix ∈ ["train/"; "valid/"] ->
    outp !! (prefix +:+ "loss")
    = Paramplane.VTensor
        <$> outl !! (prefix +:+ (if decide (loss = Some "MSE") then "MSE" else "CE")).
Proof.
  intros Hsoft Hp Hl prefix Hprefix.
  pose proof (paramplane_eval_student_closed (pp_criterion_of loss) student train_dl valid_dl
                devp) as Hc.
  cbv zeta in Hc. rewrite Hp in Hc. destruct Hc as (_ & _ & _ & t & v & Ht & Hv & Lt & Lv).
  destruct (eval_student_losses student _ _ _ _ Hl)
    as (tm & tc & th & vm & vc & vh & (Etm & Etc & _) & (Evm & Evc & _)
        & (Ltm & Ltc & _) & (Lvm & Lvc & _)).
  assert (Hsum : forall dl : list (Input * Label),
            foldl iadd (Losslandscape.PyInt 0)
              (List.map (fun b => tsum (pp_criterion_of loss
                                          (Losslandscape.logits (student b.1))
                                          (Losslandscape.logits (teacher b.1)))) dl)
            = foldl iadd (Losslandscape.PyInt 0)
                (List.map (fun b => (if decide (loss = Some "MSE")
                                     then mse_term else ce_term)
                                      (student b.1) (teacher b.1)) dl)).
  { intros dl. f_equal. apply map_ext. intros b. unfold Paramplane.criterion_of.
    destruct (decide (loss = Some "MSE")); [done|].
    unfold Paramplane.ce_criterion. by rewrite Hsoft. }
  rewrite Hsum in Ht, Hv.
  destruct (decide (loss = Some "MSE")).
  - assert (t = tm) as -> by congruence. assert (v = vm) as -> by congruence.
    repeat (apply elem_of_cons in Hprefix as [->|Hprefix]);
      [| |by apply elem_of_nil in Hprefix].
    + change ("train/" +:+ "loss") with "train/loss".
      change ("train/" +:+ "MSE") with "train/MSE". by rewrite Lt, Ltm.
    + change ("valid/" +:+ "loss") with "valid/loss".
      change ("valid/" +:+ "MSE") with "valid/MSE". by rewrite Lv, Lvm.
  - assert (t = tc) as -> by congruence. assert (v = vc) as -> by congruence.
    repeat (apply elem_of_cons in Hprefix as [->|Hprefix]);
      [| |by apply elem_of_nil in Hprefix].
    + change ("train/" +:+ "loss") with "train/loss".
      change ("train/" +:+ "CE") with "train/CE". by rewrite Lt, Ltc.
    + change ("valid/" +:+ "loss") with "valid/loss".
      change ("valid/" +:+ "CE") with "valid/CE". by rewrite Lv, Lvc.
Qed.

(** *** From the chunks to the gathered lists *)

Lemma collect_Forall2 {A B : Type} (f : A -> outcome B) (l : list A) (rs : list B) :
  collect f l = Return rs -> Forall2 (fun a r => f a = Return r) l rs.
Proof.
  revert rs. induction l as [|a l IH]; intros rs; simpl.
  - intros [= <-]. constructor.
  - destruct (f a) as [b| |] eqn:Hb; [|done..]. cbn [bind].
    destruct (collect f l) as [bs| |]; [|done..]. cbn [bind]. intros [= <-].
    constructor; [done|]. by apply IH.
Qed.

Lemma Forall2_concat_chunks {A B : Type} (P : A -> B -> Prop)
    (ls : list (list A)) (ks : list (list B)) :
  Forall2 (Forall2 P) ls ks -> Forall2 P (concat ls) (concat ks).
Proof. induction 1; simpl; [constructor|]. by apply Forall2_app. Qed.

(** What a record holds besides the metrics of [eval_student]. *)
Lemma eval_coord_record (P : Losslandscape.ParamProjector)
    (train_dl valid_dl : list (Input * Label)) (coord : vec) (r : gmap string Tn) :
  eval_coord P train_dl valid_dl coord = Return r ->
  r !! "coord" = Some (cpu (coord_tensor coord)) /\
  (exists v, Losslandscape.call_default lstsq P (vector coord) = Return v /\
             r !! "l2norm" = Some (cpu (norm2 v))) /\
  forall prefix name,
    prefix ∈ ["train/"; "valid/"] -> name ∈ ["MSE"; "CE"; "KL"; "H"] ->
    is_Some (r !! (prefix +:+ name)).
Proof.
  unfold Losslandscape.eval_coord. intros Hr.
  destruct (Losslandscape.call_default lstsq P (vector coord)) as [v| |]; [|done..].
  cbn [mbind outcome_bind bind] in Hr.
  destruct (eval_student (vector_to_module v) teacher train_dl valid_dl (Some device))
    as [out| |] eqn:Hout; [|done..].
  cbn [mbind outcome_bind bind] in Hr. injection Hr as <-.
  split; [|split].
  - rewrite lookup_fmap, lookup_insert_ne by done. by rewrite lookup_insert.
  - exists v. split; [done|]. by rewrite lookup_fmap, lookup_insert.
  - intros prefix name Hp Hn.
    destruct (eval_student_losses _ _ _ _ _ Hout)
      as (tm & tc & th & vm & vc & vh & _ & _ & (? & ? & ? & ?) & (? & ? & ? & ?)).
    rewrite lookup_fmap.
    repeat (apply elem_of_cons in Hp as [->|Hp]); [..|by apply elem_of_nil in Hp];
      (repeat (apply elem_of_cons in Hn as [->|Hn]); [..|by apply elem_of_nil in Hn]);
      (rewrite !lookup_insert_ne by (simpl; discriminate));
      match goal with
      | |- context [?a +:+ ?b] =>
          let key := eval vm_compute in (a +:+ b) in change (a +:+ b) with key
      end;
      match goal with H : out !! _ = _ |- _ => rewrite H; by eexists end.
Qed.

Lemma appended_present {V : Type} (key : string) (records : list (gmap string V)) :
  records <> [] -> Forall (fun r => is_Some (r !! key)) records ->
  exists rows, foldl (Losslandscape.appended key) None records = Some rows /\
               length rows = length records.
Proof.
  intros Hne Hall.
  assert (Hvals : exists vals, Forall2 (fun res v => res !! key = Some v) records vals).
  { clear Hne. induction Hall as [|r rs [v Hv] _ (vals & IH)]; [by exists []|].
    exists (v :: vals). by constructor. }
  destruct Hvals as (vals & Hvals). exists vals.
  rewrite (appended_all records vals key None Hvals Hne). split; [done|].
  symmetry. by eapply Forall2_length.
Qed.

(** The whole pipeline of [main] for the entries every record carries:
    when every job has returned the records of its chunk, the list
    gathered under [coord] is the grid itself, the one under [l2norm]
    holds the norm of the parameter vector of each grid point, and each
    loss is gathered once per grid point. *)
Theorem gathered_lists_follow_the_grid (X Y : list R) (num_jobs : Z)
    (chunks : list (list (R * R))) (results : list (list (gmap string Tn)))
    (P : Losslandscape.ParamProjector) (train_dl valid_dl : list (Input * Label)) :
  Losslandscape.build_chunks X Y num_jobs = Return chunks ->
  Forall2 (fun chunk records =>
             eval_coords P train_dl valid_dl (List.map (fun c => [c.1; c.2]) chunk)
             = Return records) chunks results ->
  (exists coords norms,
     Losslandscape.gather results !! "coord" = Some coords /\
     Losslandscape.gather results !! "l2norm" = Some norms /\
     length coords = length X * length Y /\ length norms = length X * length Y /\
     forall i j x y, X !! i = Some x -> Y !! j = Some y ->
       Grid.grid_at (length Y) coords i j = Some (cpu (coord_tensor [x; y])) /\
       exists v, Losslandscape.call_default lstsq P (vector [x; y]) = Return v /\
                 Grid.grid_at (length Y) norms i j = Some (cpu (norm2 v))) /\
  (forall prefix name,
     prefix ∈ ["train/"; "valid/"] -> name ∈ ["MSE"; "CE"; "KL"; "H"] ->
     exists rows, Losslandscape.gather results !! (prefix +:+ name) = Some rows /\
                  length rows = length X * length Y).
Proof.
  intros Hb Hjobs.
  pose proof (losslandscape_build_chunks_spec _ _ _ _ Hb) as (Hcat & Hne & _ & _ & _).
  assert (Hrec : Forall2 (fun c r => eval_coord P train_dl valid_dl [c.1; c.2] = Return r)
                   (concat chunks) (concat results)).
  { apply Forall2_concat_chunks. eapply Forall2_impl; [exact Hjobs|].
    intros chunk records Hc. apply collect_Forall2 in Hc.
    by apply Forall2_fmap_l in Hc. }
  assert (Hlen : length (concat results) = length X * length Y).
  { rewrite <- (Forall2_length _ _ _ Hrec), Hcat. apply coords_of_length. }
  assert (Hnonempty : concat results <> []).
  { intros Hnil. apply Forall2_length in Hrec. rewrite Hnil in Hrec. simpl in Hrec.
    unfold Losslandscape.build_chunks in Hb.
    destruct chunks as [|c0 cs].
    { destruct (tensor_split _ _); simpl in Hb; try discriminate.
      unfold mbind, outcome_bind, bind in Hb. destruct (filter _ _); discriminate. }
    apply Forall_cons in Hne as [Hc0 _]. destruct c0; [done|]. simpl in Hrec. lia. }
  rewrite Hcat in Hrec.
  split.
  - assert (Hnorm : exists norms,
              Forall2 (fun r n => r !! "l2norm" = Some n) (concat results) norms /\
              Forall2 (fun c n => exists v,
                         Losslandscape.call_default lstsq P (vector [c.1; c.2]) = Return v /\
                         n = cpu (norm2 v)) (Grid.coords_of X Y) norms).
    { clear -Hrec. induction Hrec as [|c r cs rs Hr _ (norms & IH1 & IH2)].
      - exists []. split; constructor.
      - destruct (eval_coord_record _ _ _ _ _ Hr) as (_ & (v & Hv & Hn) & _).
        exists (cpu (norm2 v) :: norms). split; constructor; try done. by exists v. }
    destruct Hnorm as (norms & Hn1 & Hn2).
    assert (Hcoord : Forall2 (fun r v => r !! "coord" = Some v) (concat results)
                       (List.map (fun c => cpu (coord_tensor [c.1; c.2]))
                          (Grid.coords_of X Y))).
    { clear -Hrec. induction Hrec as [|c r cs rs Hr _ IH]; simpl; constructor; [|done].
      by destruct (eval_coord_record _ _ _ _ _ Hr) as (? & _). }
    exists (List.map (fun c => cpu (coord_tensor [c.1; c.2])) (Grid.coords_of X Y)), norms.
    rewrite !gather_lookup.
    rewrite (appended_all (concat results) _ "coord" None Hcoord Hnonempty).
    rewrite (appended_all (concat results) norms "l2norm" None Hn1 Hnonempty).
    simpl. split; [done|]. split; [done|].
    rewrite length_map, coords_of_length.
    split; [done|]. split.
    { rewrite <- (Forall2_length _ _ _ Hn2). apply coords_of_length. }
    intros i j x y Hx Hy. unfold Grid.grid_at.
    pose proof (coords_of_lookup X Y i j x y Hx Hy) as Hc.
    split; [by rewrite list_lookup_fmap, Hc|].
    destruct (Forall2_lookup_l _ _ _ _ _ Hn2 Hc) as (n & Hn & v & Hv & ->).
    by exists v.
  - intros prefix name Hp Hn. rewrite gather_lookup. rewrite <- Hlen.
    apply appended_present; [done|].
    clear -Hrec Hp Hn. induction Hrec as [|c r cs rs Hr _ IH]; constructor; [|done].
    destruct (eval_coord_record _ _ _ _ _ Hr) as (_ & _ & Hall). by apply Hall.
Qed.

(** *** KL and CE in the losslandscape evaluator *)

Lemma sum_from_first_batch (x : Tn) (l : list Tn) :
  foldl iadd (Losslandscape.PyInt 0) (x :: l)
  = Losslandscape.PyTensor (foldl tadd (radd 0 x) l).
Proof.
  cbn [foldl Losslandscape.iadd]. generalize (radd 0 x). clear x.
  induction l as [|y l IH]; intros a; [done|]. cbn [foldl Losslandscape.iadd]. apply IH.
Qed.

(** C10: [update_losses] adds one and the same value, the summed
    cross-entropy of the batch, to [losses['CE']] and to [losses['KL']]
    (to the integer 0 the sums start from, or to the tensor they have
    become). So in every ResultRecord that [eval_coords] returns,
    [train/CE] and [train/KL] are both the cross-entropy terms of the
    training batches added up in the order of the loader, divided by the
    number of training examples, and [valid/CE] and [valid/KL] are the
    same for the validation loader. *)
Theorem kl_equals_ce (P : Losslandscape.ParamProjector)
    (train_dl valid_dl : list (Input * Label)) (coords : list vec)
    (records : list (gmap string Tn)) :
  eval_coords P train_dl valid_dl coords = Return records ->
  (forall (student_out teacher_out : Losslandscape.model_out Tn)
          (m c k h : Losslandscape.number Tn),
     let added := fun (x : Losslandscape.number Tn) (t : Tn) =>
                    match x with
                    | Losslandscape.PyInt z => Losslandscape.PyTensor (radd z t)
                    | Losslandscape.PyTensor a => Losslandscape.PyTensor (tadd a t)
                    end in
     exists m' h',
       update_losses student_out teacher_out [("MSE", m); ("CE", c); ("KL", k); ("H", h)]
       = Return [("MSE", m'); ("CE", added c (ce_term student_out teacher_out));
                 ("KL", added k (ce_term student_out teacher_out)); ("H", h')]) /\
  Forall2
    (fun coord (r : gmap string Tn) =>
       exists v, Losslandscape.call_default lstsq P (vector coord) = Return v /\
         forall prefix dl,
           (prefix, dl) ∈ [("train/", train_dl); ("valid/", valid_dl)] ->
           exists batch batches,
             dl = batch :: batches /\
             let ce := fun b : Input * Label => ce_term (vector_to_module v b.1) (teacher b.1) in
             let average :=
               cpu (tdiv (foldl tadd (radd 0 (ce batch)) (List.map ce batches))
                         (foldl (fun n b => (n + label_count b.2)%Z) 0%Z dl)) in
             r !! (prefix +:+ "CE") = Some average /\
             r !! (prefix +:+ "KL") = Some average)
    coords records.
Proof.
  intros Hrec. split.
  { intros so to m c k h added. rewrite update_losses_adds_same. by eexists _, _. }
  apply collect_Forall2 in Hrec. eapply Forall2_impl; [exact Hrec|].
  clear Hrec. intros coord r Hr. cbn beta in Hr. unfold Losslandscape.eval_coord in Hr.
  destruct (Losslandscape.call_default lstsq P (vector coord)) as [v| |]; [|done..].
  cbn [mbind outcome_bind bind] in Hr. exists v. split; [done|].
  destruct (eval_student (vector_to_module v) teacher train_dl valid_dl (Some device))
    as [out| |] eqn:Hout; [|done..].
  cbn [mbind outcome_bind bind] in Hr. injection Hr as <-.
  destruct (eval_student_returned_batches _ _ _ _ _ Hout) as (_ & Ht & Hv).
  destruct (eval_student_losses _ _ _ _ _ Hout)
    as (tm & tc & th & vm & vc & vh & (_ & Etc & _) & (_ & Evc & _)
        & (_ & Ltc & Ltk & _) & (_ & Lvc & Lvk & _)).
  intros prefix dl Hp.
  repeat (apply elem_of_cons in Hp as [[= -> ->]|Hp]); [| |by apply elem_of_nil in Hp].
  - destruct train_dl as [|batch batches]; [done|]. exists batch, batches. split; [done|].
    cbn zeta. cbn [List.map] in Etc. rewrite sum_from_first_batch in Etc.
    injection Etc as <-.
    rewrite !lookup_fmap, !lookup_insert_ne by done.
    change ("train/" +:+ "CE") with "train/CE". change ("train/" +:+ "KL") with "train/KL".
    by rewrite Ltc, Ltk.
  - destruct valid_dl as [|batch batches]; [done|]. exists batch, batches. split; [done|].
    cbn zeta. cbn [List.map] in Evc. rewrite sum_from_first_batch in Evc.
    injection Evc as <-.
    rewrite !lookup_fmap, !lookup_insert_ne by done.
    change ("valid/" +:+ "CE") with "valid/CE". change ("valid/" +:+ "KL") with "valid/KL".
    by rewrite Lvc, Lvk.
Qed.

End MetricFacts.

Section MetricWitness.

(** An evaluator on integers standing for tensors, for the examples. *)
Local Abbreviation example_student :=
  (fun x : Z => {| Losslandscape.logits := x; Losslandscape.embeddings := x |}).
Local Abbreviation example_teacher :=
  (fun x : Z => {| Losslandscape.logits := (x + 1)%Z; Losslandscape.embeddings := x |}).
Local Abbreviation example_eval_student :=
  (Losslandscape.eval_student (Tn := Z) (Input := Z) (Label := Z) (Num := Z) (Dev := unit)
     (fun a b : Z => (a - b) * (a - b))%Z Z.mul Z.add
     Z.succ Z.pred Z.opp Z.abs (fun t : Z => t)
     Z.add Z.add Z.div (fun n : Z => n) (fun t : Z => t)
     (fun _ _ => [("lin", 1%Z)]) (fun a b => (a, b))).
Local Abbreviation example_eval_coords :=
  (Losslandscape.eval_coords (Tn := Z) (Input := Z) (Label := Z) (Num := Z) (Dev := unit)
     (fun a b : Z => (a - b) * (a - b))%Z Z.mul Z.add
     Z.succ Z.pred Z.opp Z.abs (fun t : Z => t) (fun t : Z => t)
     Z.add Z.add Z.div (fun n : Z => n) (fun t : Z => t)
     (fun _ _ => [("lin", 1%Z)]) (fun a b => (a, b))
     lstsq_normal (fun _ => example_student) example_teacher
     (fun _ => 0%Z) (fun _ => 0%Z) tt).
Local Abbreviation example_projector :=
  {| Losslandscape.center := None; Losslandscape.scale := None;
     Losslandscape.dim := 3; Losslandscape.affine := [0; 0; 1]%R;
     Losslandscape.basis := [(1, 0); (0, 1); (0, 0)]%R |}.

Lemma eval_student_metrics_witness :
  exists out t,
    example_eval_student example_student example_teacher [(1%Z, 2%Z); (4%Z, 2%Z)] [(3%Z, 1%Z)]
      (Some tt) = Return out /\
    foldl (Losslandscape.iadd Z.add Z.add) (Losslandscape.PyInt 0)
      (List.map (fun b : Z * Z =>
                   Z.abs ((Losslandscape.logits (example_student b.1)
                           - Losslandscape.logits (example_teacher b.1))
                          * (Losslandscape.logits (example_student b.1)
                             - Losslandscape.logits (example_teacher b.1))))
         [(1%Z, 2%Z); (4%Z, 2%Z)]) = Losslandscape.PyTensor t /\
    out !! "train/MSE" = Some (t `div` foldl (fun n b => n + b.2) 0 [(1, 2); (4, 2)])%Z.
Proof.
  destruct (example_eval_student example_student example_teacher
              [(1%Z, 2%Z); (4%Z, 2%Z)] [(3%Z, 1%Z)] (Some tt)) as [out| |] eqn:Hout;
    [|vm_compute in Hout; discriminate..].
  destruct (eval_student_metrics _ _ _ _ _ _ _ _ _ _ _ _ _ _ _ _ _ _ _ _ _ Hout
              "train/" [(1%Z, 2%Z); (4%Z, 2%Z)] "MSE"
              (fun so to : Losslandscape.model_out Z =>
                 Z.abs ((Losslandscape.logits so - Losslandscape.logits to)
                        * (Losslandscape.logits so - Losslandscape.logits to))%Z))
    as (t & Ht & Hl).
  - by constructor.
  - by constructor.
  - by exists out, t.
Defined.

Lemma gathered_lists_follow_the_grid_witness :
  exists results coords,
    Forall2 (fun chunk records =>
               example_eval_coords example_projector [(1%Z, 2%Z); (4%Z, 2%Z)] [(3%Z, 1%Z)]
                 (List.map (fun c : R * R => [c.1; c.2]) chunk) = Return records)
      [[(0, 0); (0, 1)]; [(1, 0); (1, 1)]]%R results /\
    Losslandscape.gather results !! "coord" = Some coords /\
    length coords = (length [0; 1]%R * length [0; 1]%R)%nat.
Proof.
  destruct (eval_coords_returns
              (fun a b : Z => (a - b) * (a - b))%Z Z.mul Z.add
              Z.succ Z.pred Z.opp Z.abs (fun t : Z => t) (fun t : Z => t)
              Z.add Z.add Z.div (fun n : Z => n) (fun t : Z => t)
              (fun _ _ => [("lin", 1%Z)]) (fun a b => (a, b))
              lstsq_normal (fun _ => example_student) example_teacher
              (fun _ => 0%Z) (fun _ => 0%Z) tt example_projector
              [(1%Z, 2%Z); (4%Z, 2%Z)] [(3%Z, 1%Z)] [[0; 0]%R; [0; 1]%R])
    as (r1 & H1 & _); [discriminate|discriminate|repeat constructor; eexists; reflexivity|].
  destruct (eval_coords_returns
              (fun a b : Z => (a - b) * (a - b))%Z Z.mul Z.add
              Z.succ Z.pred Z.opp Z.abs (fun t : Z => t) (fun t : Z => t)
              Z.add Z.add Z.div (fun n : Z => n) (fun t : Z => t)
              (fun _ _ => [("lin", 1%Z)]) (fun a b => (a, b))
              lstsq_normal (fun _ => example_student) example_teacher
              (fun _ => 0%Z) (fun _ => 0%Z) tt example_projector
              [(1%Z, 2%Z); (4%Z, 2%Z)] [(3%Z, 1%Z)] [[1; 0]%R; [1; 1]%R])
    as (r2 & H2 & _); [discriminate|discriminate|repeat constructor; eexists; reflexivity|].
  assert (Hjobs : Forall2 (fun chunk records =>
               example_eval_coords example_projector [(1%Z, 2%Z); (4%Z, 2%Z)] [(3%Z, 1%Z)]
                 (List.map (fun c : R * R => [c.1; c.2]) chunk) = Return records)
      [[(0, 0); (0, 1)]; [(1, 0); (1, 1)]]%R [r1; r2]).
  { repeat constructor; assumption. }
  assert (Hb : Losslandscape.build_chunks [0; 1]%R [0; 1]%R 2
               = Return [[(0, 0); (0, 1)]; [(1, 0); (1, 1)]]%R) by reflexivity.
  destruct (gathered_lists_follow_the_grid _ _ _ _ _ _ _ _ _ _ _ _ _ _ _ _ _ _ _ _ _ _
              [0; 1]%R [0; 1]%R 2 [[(0, 0); (0, 1)]; [(1, 0); (1, 1)]]%R [r1; r2]
              example_projector [(1%Z, 2%Z); (4%Z, 2%Z)] [(3%Z, 1%Z)] Hb Hjobs)
    as ((coords & norms & Hc & _ & Hl & _) & _).
  by exists [r1; r2], coords.
Defined.

Lemma paramplane_loss_is_losslandscape_metric_witness :
  exists outp outl,
    Paramplane.eval_student (Tn := Z) (Input := Z) (Label := Z) (Num := Z) (Dev := unit)
      Z.abs (fun t : Z => t) Z.add Z.add Z.div (fun n : Z => n)
      (fun _ _ => [("lin", 1%Z)]) (fun a b => (a, b))
      (Paramplane.criterion_of (fun a b : Z => (a - b) * (a - b))%Z Z.mul Z.succ Z.pred
         (Some "CE"))
      example_student example_teacher [(1%Z, 2%Z); (4%Z, 2%Z)] [(3%Z, 1%Z)] (Some tt)
      = Return outp /\
    example_eval_student example_student example_teacher [(1%Z, 2%Z); (4%Z, 2%Z)] [(3%Z, 1%Z)]
      (Some tt) = Return outl /\
    outp !! "train/loss" = Paramplane.VTensor <$> outl !! "train/CE".
Proof.
  destruct (Paramplane.eval_student (Tn := Z) (Input := Z) (Label := Z) (Num := Z)
              (Dev := unit)
              Z.abs (fun t : Z => t) Z.add Z.add Z.div (fun n : Z => n)
              (fun _ _ => [("lin", 1%Z)]) (fun a b => (a, b))
              (Paramplane.criterion_of (fun a b : Z => (a - b) * (a - b))%Z Z.mul Z.succ
                 Z.pred (Some "CE"))
              example_student example_teacher [(1%Z, 2%Z); (4%Z, 2%Z)] [(3%Z, 1%Z)] (Some tt))
    as [outp| |] eqn:Hp; [|vm_compute in Hp; discriminate..].
  destruct (example_eval_student example_student example_teacher
              [(1%Z, 2%Z); (4%Z, 2%Z)] [(3%Z, 1%Z)] (Some tt)) as [outl| |] eqn:Hl;
    [|vm_compute in Hl; discriminate..].
  exists outp, outl. split; [done|]. split; [done|].
  apply (paramplane_loss_is_losslandscape_metric _ _ Z.add Z.succ _ Z.opp _ _ _ _ _ _
           (fun t : Z => t) _ _ _ Z.succ (Some "CE") example_student
           [(1%Z, 2%Z); (4%Z, 2%Z)] [(3%Z, 1%Z)] (Some tt) (Some tt) outp outl
           (fun t => eq_refl) Hp Hl "train/").
  by constructor.
Defined.

(** Two coordinates, two training batches and one validation batch:
    the entries of the first record, with the sums written out. *)
Lemma kl_equals_ce_witness :
  exists r1 r2,
    example_eval_coords example_projector [(1%Z, 2%Z); (4%Z, 2%Z)] [(3%Z, 1%Z)]
      [[1; 2]%R; [0; 1]%R] = Return [r1; r2] /\
    r1 !! "train/CE" = Some (((0 + Z.abs (Z.succ 1 * Z.pred (1 + 1)))
                              + Z.abs (Z.succ 4 * Z.pred (4 + 1))) `div` (0 + 2 + 2))%Z /\
    r1 !! "train/KL" = r1 !! "train/CE" /\
    r1 !! "valid/CE" = Some ((0 + Z.abs (Z.succ 3 * Z.pred (3 + 1))) `div` (0 + 1))%Z /\
    r1 !! "valid/KL" = r1 !! "valid/CE".
Proof.
  destruct (eval_coords_returns
              (fun a b : Z => (a - b) * (a - b))%Z Z.mul Z.add
              Z.succ Z.pred Z.opp Z.abs (fun t : Z => t) (fun t : Z => t)
              Z.add Z.add Z.div (fun n : Z => n) (fun t : Z => t)
              (fun _ _ => [("lin", 1%Z)]) (fun a b => (a, b))
              lstsq_normal (fun _ => example_student) example_teacher
              (fun _ => 0%Z) (fun _ => 0%Z) tt example_projector
              [(1%Z, 2%Z); (4%Z, 2%Z)] [(3%Z, 1%Z)] [[1; 2]%R; [0; 1]%R])
    as (records & He & Hlen);
    [discriminate|discriminate|repeat constructor; eexists; reflexivity|].
  destruct (kl_equals_ce _ _ _ _ _ _ _ _ _ _ _ _ _ _ _ _ _ _ _ _ _ _ _ _ _ _ _ He)
    as [_ Hrec].
  destruct records as [|r1 [|r2 [|r3 records]]]; try discriminate Hlen.
  exists r1, r2. split; [exact He|].
  apply Forall2_cons in Hrec as [(v & _ & Hr1) _].
  destruct (Hr1 "train/" [(1%Z, 2%Z); (4%Z, 2%Z)]) as (b & bs & [= <- <-] & Htc & Htk);
    [by constructor|].
  destruct (Hr1 "valid/" [(3%Z, 1%Z)]) as (b' & bs' & [= <- <-] & Hvc & Hvk);
    [by right; constructor|].
  split; [exact Htc|]. split; [etrans; [exact Htk|symmetry; exact Htc]|].
  split; [exact Hvc|]. etrans; [exact Hvk|symmetry; exact Hvc].
Defined.

End MetricWitness.

(** ** main: what the grid builder does at the edges *)

Section ChunkEdges.
Context {A : Type}.
Implicit Types (X Y : list A).

Lemma coords_of_empty X Y : Grid.coords_of X Y = [] <-> X = [] \/ Y = [].
Proof.
  rewrite <- length_zero_iff_nil, coords_of_length. split.
  - intros H. apply Nat.eq_mul_0 in H as [H|H]; apply length_zero_iff_nil in H; auto.
  - intros [->| ->]; simpl; lia.
Qed.

Lemma filter_nonempty_of_empty_concat (chunks : list (list (A * A))) :
  concat chunks = [] -> filter (fun c => 0 < Grid.nelement c) chunks = [].
Proof.
  induction chunks as [|c chunks IH]; [done|]. simpl. intros H.
  apply app_eq_nil in H as [-> H]. rewrite filter_cons_False; [by apply IH|].
  unfold Grid.nelement. simpl. lia.
Qed.

Lemma concat_empty_chunks (chunks : list (list (A * A))) :
  concat chunks = [] -> chunks = replicate (length chunks) [].
Proof.
  induction chunks as [|c chunks IH]; [done|]. simpl. intros H.
  apply app_eq_nil in H as [-> H]. by rewrite <- IH.
Qed.

Local Ltac edge :=
  intros;
  repeat match goal with
         | H : _ /\ _ |- _ => destruct H
         | H : ex _ |- _ => destruct H
         end;
  try done; try lia; try (by eexists).

(** The grid builder of both drivers at the edges: a job count that is
    not positive is refused by [tensor_split]; on an empty grid
    losslandscape is left without a chunk and fails on [coords[0]], where
    paramplane goes on with [num_jobs] empty chunks; in every other case
    both return. *)
Theorem build_chunks_outcomes X Y (num_jobs : Z) :
  (Losslandscape.build_chunks X Y num_jobs = Raise RuntimeError <-> (num_jobs <= 0)%Z) /\
  (Losslandscape.build_chunks X Y num_jobs = Raise IndexError
   <-> (0 < num_jobs)%Z /\ (X = [] \/ Y = [])) /\
  (returns (Losslandscape.build_chunks X Y num_jobs)
   <-> (0 < num_jobs)%Z /\ X <> [] /\ Y <> []) /\
  (Paramplane.build_chunks X Y num_jobs = Raise RuntimeError <-> (num_jobs <= 0)%Z) /\
  (returns (Paramplane.build_chunks X Y num_jobs) <-> (0 < num_jobs)%Z) /\
  ((0 < num_jobs)%Z -> X = [] \/ Y = [] ->
   Paramplane.build_chunks X Y num_jobs = Return (replicate (Z.to_nat num_jobs) [])).
Proof.
  destruct (Z.leb_spec num_jobs 0) as [Hn|Hn].
  { unfold Losslandscape.build_chunks, Paramplane.build_chunks.
    rewrite tensor_split_raises by done. cbn [mbind outcome_bind bind]. unfold returns.
    split_and!; try split; edge. }
  destruct (tensor_split_spec (Grid.coords_of X Y) num_jobs Hn)
    as (chunks & Hs & Hlen & Hcat & Hsizes).
  assert (Hpp : Paramplane.build_chunks X Y num_jobs = Return chunks).
  { unfold Paramplane.build_chunks. rewrite Hs. cbn [mbind outcome_bind bind].
    destruct chunks; [simpl in Hlen; lia|done]. }
  rewrite Hpp. unfold returns.
  destruct (decide (X = [] \/ Y = [])) as [He|He].
  - assert (Hll : Losslandscape.build_chunks X Y num_jobs = Raise IndexError).
    { unfold Losslandscape.build_chunks. rewrite Hs. cbn [mbind outcome_bind bind].
      rewrite filter_nonempty_of_empty_concat; [done|].
      rewrite Hcat. by apply coords_of_empty. }
    rewrite Hll.
    split_and!; try split; edge.
    + destruct He; congruence.
    + f_equal. apply coords_of_empty in He.
      rewrite <- Hlen. apply concat_empty_chunks. congruence.
  - assert (HX : X <> [] /\ Y <> []).
    { split; intros ->; apply He; auto. }
    destruct (losslandscape_build_chunks_returns X Y num_jobs Hn) as (cs & Hll).
    { destruct HX as [HX HY]. destruct X, Y; simpl; try done; lia. }
    rewrite Hll. destruct HX.
    split_and!; try split; edge.
Qed.

End ChunkEdges.

(** ** main: the files the metrics are saved to *)

Section SavedFiles.

Lemma list_ascii_of_string_app (s t : string) :
  list_ascii_of_string (s +:+ t) = list_ascii_of_string s ++ list_ascii_of_string t.
Proof. induction s as [|c s IH]; simpl; [done|]. by rewrite IH. Qed.

Lemma list_ascii_of_string_inj (s t : string) :
  list_ascii_of_string s = list_ascii_of_string t -> s = t.
Proof.
  intros H. rewrite <- (string_of_list_ascii_of_string s),
    <- (string_of_list_ascii_of_string t). by rewrite H.
Qed.

Lemma string_app_inv_tail (s1 s2 t : string) : s1 +:+ t = s2 +:+ t -> s1 = s2.
Proof.
  intros H. apply list_ascii_of_string_inj.
  apply (f_equal list_ascii_of_string) in H. rewrite !list_ascii_of_string_app in H.
  by apply app_inv_tail in H.
Qed.

Lemma string_app_assoc (a b c : string) : a +:+ (b +:+ c) = (a +:+ b) +:+ c.
Proof.
  induction a as [|x a IH]; [done|].
  change (String x (a +:+ (b +:+ c)) = String x ((a +:+ b) +:+ c)). by rewrite IH.
Qed.

Lemma replace_char_absent (old new : ascii) (s : string) :
  old <> new -> old ∉ list_ascii_of_string (replace_char old new s).
Proof.
  intros Hne. induction s as [|c s IH]; simpl; [by apply not_elem_of_nil|].
  apply not_elem_of_cons. split; [|done]. by destruct (decide (c = old)).
Qed.

Lemma replace_char_idempotent (old new : ascii) (s : string) :
  old <> new -> replace_char old new (replace_char old new s) = replace_char old new s.
Proof.
  intros Hne. induction s as [|c s IH]; simpl; [done|]. rewrite IH. f_equal.
  destruct (decide (c = old)) as [->|Hc].
  - by rewrite decide_False by done.
  - by rewrite decide_False.
Qed.

Lemma startswith_slash_head (s : string) :
  startswith "/" s = true -> "/"%char ∈ list_ascii_of_string s.
Proof.
  destruct s as [|c s]; simpl; [done|]. destruct (decide _) as [<-|]; [|done].
  intros _. by constructor.
Qed.

(** The file of a metric: its name holds no separator, so it lies
    directly in the results directory, and two keys share a file exactly
    when they differ only by [/] against [_]; a key and the key with its
    separators already replaced are written to one and the same file. *)
Theorem saved_file_in_directory (dir key : string) :
  let name := replace_char "/" "_" key +:+ ".pt" in
  ("/"%char ∉ list_ascii_of_string name) /\
  Losslandscape.saved_file dir key
    = ((if decide (dir = "") then "" else if endswith "/" dir then dir else dir +:+ "/")
       +:+ name) /\
  Paramplane.saved_file dir key = Losslandscape.saved_file dir key /\
  (forall key', Losslandscape.saved_file dir key = Losslandscape.saved_file dir key'
                <-> replace_char "/" "_" key = replace_char "/" "_" key') /\
  Losslandscape.saved_file dir (replace_char "/" "_" key) = Losslandscape.saved_file dir key.
Proof.
  intros name.
  assert (Hname : forall k, "/"%char ∉ list_ascii_of_string (replace_char "/" "_" k +:+ ".pt")).
  { intros k. rewrite list_ascii_of_string_app. apply not_elem_of_app. split.
    - by apply replace_char_absent.
    - simpl. rewrite !not_elem_of_cons. repeat split; try done. apply not_elem_of_nil. }
  assert (Hjoin : forall k, Losslandscape.saved_file dir k
            = ((if decide (dir = "") then "" else if endswith "/" dir then dir else dir +:+ "/")
               +:+ (replace_char "/" "_" k +:+ ".pt"))).
  { intros k. unfold Losslandscape.saved_file, path_join.
    destruct (startswith "/" _) eqn:Hs.
    { apply startswith_slash_head in Hs. by apply Hname in Hs. }
    destruct (decide (dir = "")); [done|]. destruct (endswith "/" dir); [done|].
    apply string_app_assoc. }
  split; [apply Hname|]. split; [apply Hjoin|]. split; [done|]. split.
  - intros key'. rewrite !Hjoin. split.
    + intros H. apply (inj _) in H. by apply string_app_inv_tail in H.
    + by intros ->.
  - rewrite !Hjoin. by rewrite replace_char_idempotent.
Qed.

End SavedFiles.
(** ** parse_tqdm_state on a progress line *)

Section ParseFacts.
Implicit Types (s r : list N) (c d : N).

Lemma lookbehind_needs_bar (p2 p1 : option N) :
  p2 <> Some 124%N -> Losslandscape.lookbehind p2 p1 = false.
Proof.
  intros Hne. destruct p2 as [b|], p1 as [w|]; try done. unfold Losslandscape.lookbehind.
  destruct (N.eqb_spec b 124) as [->|]; [done|done].
Qed.

(** No character is both whitespace and a decimal digit, which is what
    lets the scan of [findall_from] stand for the regex engine. *)
Lemma decimal_outside_runs c :
  Forall (fun z => c < z \/ z + 9 < c)%N Losslandscape.decimal_zeros ->
  Losslandscape.decimal c = None.
Proof.
  unfold Losslandscape.decimal. generalize Losslandscape.decimal_zeros.
  induction 1 as [|z zs Hz _ IH]; [done|]. cbn [List.find].
  destruct (N.leb_spec z c), (N.leb_spec c (z + 9)); cbn [andb]; try done; lia.
Qed.

Lemma space_not_digit c :
  Losslandscape.is_space c = true -> Losslandscape.is_digit c = false.
Proof.
  unfold Losslandscape.is_space, Losslandscape.is_digit.
  rewrite !orb_true_iff, !andb_true_iff, !N.leb_le, !N.eqb_eq. intros Hc.
  rewrite decimal_outside_runs; [done|]. unfold Losslandscape.decimal_zeros.
  repeat (constructor; [lia|]). constructor.
Qed.

Lemma space_not_bar c : Losslandscape.is_space c = true -> c <> 124%N.
Proof. by intros H ->. Qed.

(** No match starts where no bar stands two characters back. *)
Lemma findall_from_no_bar (p2 p1 : option N) s :
  p2 <> Some 124%N -> p1 <> Some 124%N -> 124%N ∉ s ->
  Losslandscape.findall_from p2 p1 s = [].
Proof.
  revert p2 p1. induction s as [|c s IH]; intros p2 p1 H2 H1 Hs; [done|].
  apply not_elem_of_cons in Hs as [Hc Hs]. cbn [Losslandscape.findall_from].
  rewrite lookbehind_needs_bar by done. cbn [andb app]. apply IH; congruence.
Qed.

(** The matches up to a bar and a whitespace are followed by those that
    start behind them. *)
Lemma findall_from_upto_bar (p2 p1 : option N) (pre s : list N) (w : N) :
  Losslandscape.is_space w = true ->
  exists ms, Losslandscape.findall_from p2 p1 (pre ++ 124%N :: w :: s)
             = ms ++ Losslandscape.findall_from (Some 124%N) (Some w) s.
Proof.
  intros Hw. revert p2 p1. induction pre as [|c pre IH]; intros p2 p1.
  - exists []. cbn [app Losslandscape.findall_from].
    replace (Losslandscape.is_digit 124) with false by done.
    rewrite (space_not_digit w Hw). by rewrite !andb_false_r.
  - destruct (IH p1 (Some c)) as (ms & Hms). cbn [app Losslandscape.findall_from].
    rewrite Hms. eexists. by rewrite app_assoc.
Qed.

Lemma span_digits_run s r :
  forallb Losslandscape.is_digit s = true ->
  match r with d :: _ => Losslandscape.is_digit d = false | [] => True end ->
  Losslandscape.span_digits (s ++ r) = (s, r).
Proof.
  intros Hs Hr. induction s as [|c s IH]; simpl in *.
  - destruct r as [|d r]; [done|]. simpl. by rewrite Hr.
  - apply andb_prop in Hs as [-> Hs]. by rewrite IH.
Qed.

Lemma at_unique_postfix_here (w : N) (post : list N) :
  Losslandscape.is_space w = true ->
  Losslandscape.at_unique_postfix (codes "unique" ++ w :: codes "postfix" ++ post) = true.
Proof.
  intros Hw. unfold Losslandscape.at_unique_postfix.
  change (Losslandscape.after_literal (codes "unique")
            (codes "unique" ++ w :: codes "postfix" ++ post))
    with (Some (w :: codes "postfix" ++ post)).
  cbv beta iota. by rewrite Hw.
Qed.

Lemma dots_then_postfix (mid post : list N) (w : N) :
  Losslandscape.is_space w = true ->
  Forall (fun c => Losslandscape.is_newline c = false) mid ->
  Losslandscape.dots_unique_postfix
    (mid ++ codes "unique" ++ w :: codes "postfix" ++ post) = true.
Proof.
  intros Hw. induction 1 as [|c mid Hc _ IH].
  - cbn [app]. change (codes "unique" ++ w :: codes "postfix" ++ post)
      with (117%N :: (codes "nique" ++ w :: codes "postfix" ++ post)).
    cbn [Losslandscape.dots_unique_postfix].
    change (117%N :: (codes "nique" ++ w :: codes "postfix" ++ post))
      with (codes "unique" ++ w :: codes "postfix" ++ post).
    by rewrite at_unique_postfix_here.
  - cbn [app Losslandscape.dots_unique_postfix]. rewrite Hc, IH. cbn [negb andb].
    apply orb_true_r.
Qed.

Lemma digits_no_bar s : forallb Losslandscape.is_digit s = true -> 124%N ∉ s.
Proof.
  induction s as [|c s IH]; simpl; intros Hs; [apply not_elem_of_nil|].
  apply andb_prop in Hs as [Hc Hs]. apply not_elem_of_cons. split; [|by apply IH].
  by intros <-.
Qed.

(** [int] of a run of digits: its value in base ten, unless the run is
    longer than the interpreter converts. *)
Lemma py_int_run s :
  s <> [] -> forallb Losslandscape.is_digit s = true ->
  Losslandscape.py_int s
  = if decide (length s <= 4300)
    then Some (foldl (fun acc c => 10 * acc + Losslandscape.digit_value c)%Z 0%Z s)
    else None.
Proof.
  intros Hne Hd. unfold Losslandscape.py_int, Losslandscape.max_str_digits.
  destruct s as [|c s]; [done|]. rewrite Hd. cbn [andb].
  destruct (N.leb_spec (N.of_nat (length (c :: s))) 4300);
    case_decide; try done; lia.
Qed.

(** On a last line of the shape tqdm prints, bar, whitespace, count,
    slash, total, whitespace, bracket, and further on the postfix, with
    no newline in between and no bar behind, [parse_tqdm_state] returns
    the count, the digits read in base ten whatever their script and
    whichever whitespace separates them; a count of more than 4300
    digits, which [int] refuses, gives 0. *)
Theorem parse_tqdm_state_reads_count (lines : list (list N))
    (pre count total mid post : list N) (w1 w2 w3 : N) :
  Losslandscape.is_space w1 = true -> Losslandscape.is_space w2 = true ->
  Losslandscape.is_space w3 = true ->
  count <> [] -> forallb Losslandscape.is_digit count = true ->
  total <> [] -> forallb Losslandscape.is_digit total = true ->
  Forall (fun c => Losslandscape.is_newline c = false) mid ->
  124%N ∉ mid ++ post ->
  Losslandscape.parse_tqdm_state
    (Some (lines ++ [pre ++ [124%N; w1] ++ count ++ codes "/" ++ total ++ [w2; 91%N]
                     ++ mid ++ codes "unique" ++ [w3] ++ codes "postfix" ++ post]))
  = if decide (length count <= 4300)
    then foldl (fun acc c => 10 * acc + Losslandscape.digit_value c)%Z 0%Z count
    else 0%Z.
Proof.
  intros Hw1 Hw2 Hw3 Hcne Hcd Htne Htd Hmid Hbar.
  unfold Losslandscape.parse_tqdm_state. cbn [mbind option_bind default].
  rewrite last_snoc. cbn [mbind option_bind]. unfold Losslandscape.findall.
  change (codes "/") with [47]%N. cbn [app].
  destruct (findall_from_upto_bar None None pre
              (count ++ 47%N :: total ++ w2 :: 91%N
                 :: mid ++ codes "unique" ++ w3 :: codes "postfix" ++ post) w1 Hw1)
    as (ms & ->).
  destruct count as [|d ds]; [done|].
  assert (Hd : Losslandscape.is_digit d = true).
  { simpl in Hcd. by apply andb_prop in Hcd as [? _]. }
  assert (Hds : forallb Losslandscape.is_digit ds = true).
  { simpl in Hcd. by apply andb_prop in Hcd as [_ ?]. }
  cbn [app Losslandscape.findall_from].
  change (d :: ds ++ ?r) with ((d :: ds) ++ r).
  rewrite span_digits_run by done. cbn [fst snd].
  rewrite Hd. unfold Losslandscape.lookbehind at 1. rewrite Hw1.
  replace (124 =? 124)%N with true by done.
  cbn [andb]. unfold Losslandscape.lookahead.
  rewrite span_digits_run by (try done; by apply space_not_digit).
  destruct total as [|t0 ts] eqn:Ht; [done|]. rewrite <- Ht in *.
  replace (47 =? 47)%N with true by done. rewrite Hw2.
  replace (91 =? 91)%N with true by done. cbn [andb].
  rewrite dots_then_postfix by done.
  pose proof (space_not_bar _ Hw1) as Hb1. pose proof (space_not_bar _ Hw2) as Hb2.
  pose proof (space_not_bar _ Hw3) as Hb3.
  rewrite findall_from_no_bar; [| congruence | by intros [= ->] | ].
  - cbn [app]. rewrite last_snoc. cbn [mbind option_bind].
    rewrite py_int_run by done. by case_decide.
  - rewrite not_elem_of_app. split; [by apply digits_no_bar|].
    rewrite not_elem_of_cons. split; [done|].
    rewrite not_elem_of_app. split; [by apply digits_no_bar|].
    rewrite !not_elem_of_cons. split; [congruence|]. split; [done|].
    apply not_elem_of_app in Hbar as [Hm Hq].
    rewrite not_elem_of_app. split; [done|].
    rewrite not_elem_of_app. split.
    { vm_compute. intros H. repeat (apply elem_of_cons in H as [H|H]; [discriminate|]).
      by apply elem_of_nil in H. }
    rewrite not_elem_of_cons. split; [congruence|].
    rewrite not_elem_of_app. split; [|done].
    vm_compute. intros H. repeat (apply elem_of_cons in H as [H|H]; [discriminate|]).
    by apply elem_of_nil in H.
Qed.

(** A line whose count is written in Arabic-Indic digits behind a
    no-break space: the count read is 31. *)
Lemma parse_tqdm_state_reads_count_witness :
  Losslandscape.parse_tqdm_state
    (Some ([codes "  0%|          | 0/4 [00:00<?, ?it/s, unique postfix]"]
           ++ [codes " 75%|#######5  " ++ [124; 160]%N ++ [1635; 1633]%N ++ codes "/"
               ++ codes "40" ++ [32; 91]%N ++ codes "00:10<00:03,  3.33s/it, "
               ++ codes "unique" ++ [32%N] ++ codes "postfix" ++ codes "]"]))
  = (if decide (length [1635; 1633]%N <= 4300)
     then foldl (fun acc c => 10 * acc + Losslandscape.digit_value c)%Z 0%Z [1635; 1633]%N
     else 0%Z) /\
  foldl (fun acc c => 10 * acc + Losslandscape.digit_value c)%Z 0%Z [1635; 1633]%N = 31%Z.
Proof.
  split; [|reflexivity].
  apply (parse_tqdm_state_reads_count
           [codes "  0%|          | 0/4 [00:00<?, ?it/s, unique postfix]"]
           (codes " 75%|#######5  ") [1635; 1633]%N (codes "40")
           (codes "00:10<00:03,  3.33s/it, ") (codes "]") 160%N 32%N 32%N).
  - reflexivity.
  - reflexivity.
  - reflexivity.
  - discriminate.
  - reflexivity.
  - discriminate.
  - reflexivity.
  - repeat constructor.
  - vm_compute. intros H. repeat (apply elem_of_cons in H as [H|H]; [discriminate|]).
    by apply elem_of_nil in H.
Defined.

End ParseFacts.

(** ** paramplane: the reducer with a single job *)

Section PlaneGather.
Context {V : Type}.
Variable zeros_like : V -> V.
Variable n : nat.
Implicit Types (out : gmap string (list V)) (res : gmap string V) (key : string).

(** Every tensor in [out] has [n] rows. *)
Local Abbreviation full out := (forall k rows, out !! k = Some rows -> length rows = n).

Lemma paramplane_gather_item out (kv : string * V) pos :
  full out -> pos < n ->
  exists out',
    Paramplane.gather_item zeros_like n pos out kv = Return out' /\ full out' /\
    out' !! kv.1
    = Some (<[pos := kv.2]> (default (replicate n (zeros_like kv.2)) (out !! kv.1))) /\
    forall k, k <> kv.1 -> out' !! k = out !! k.
Proof.
  intros Hfull Hpos. unfold Paramplane.gather_item.
  destruct (decide (kv.1 ∈ dom out)) as [Hin|Hin].
  - apply elem_of_dom in Hin as [rows Hrows]. rewrite Hrows.
    rewrite decide_True by (by rewrite (Hfull _ _ Hrows)).
    eexists; split; [reflexivity|]. split; [|split].
    + intros k rows'. destruct (decide (k = kv.1)) as [->|Hk].
      * rewrite lookup_insert_eq. intros [= <-]. rewrite length_insert. by eapply Hfull.
      * rewrite lookup_insert_ne by done. apply Hfull.
    + by rewrite lookup_insert_eq.
    + intros k Hk. by rewrite lookup_insert_ne.
  - apply not_elem_of_dom in Hin. rewrite lookup_insert_eq.
    rewrite decide_True by (by rewrite length_replicate).
    eexists; split; [reflexivity|]. split; [|split].
    + intros k rows'. destruct (decide (k = kv.1)) as [->|Hk].
      * rewrite lookup_insert_eq. intros [= <-]. by rewrite length_insert, length_replicate.
      * rewrite !lookup_insert_ne by done. apply Hfull.
    + by rewrite lookup_insert_eq, Hin.
    + intros k Hk. by rewrite !lookup_insert_ne.
Qed.

Lemma paramplane_gather_items (items : list (string * V)) out pos key v :
  full out -> pos < n -> NoDup items.*1 -> (key, v) ∈ items ->
  exists out',
    for_each (Paramplane.gather_item zeros_like n pos) out items = Return out' /\
    full out' /\
    out' !! key = Some (<[pos := v]> (default (replicate n (zeros_like v)) (out !! key))).
Proof.
  intros Hfull Hpos. revert out Hfull.
  assert (Hrest : forall (items : list (string * V)) out,
            full out -> key ∉ items.*1 ->
            exists out', for_each (Paramplane.gather_item zeros_like n pos) out items
                         = Return out' /\ full out' /\ out' !! key = out !! key).
  { clear items. induction items as [|kv items IH]; intros out Hfull Hk.
    - by exists out.
    - cbn [fmap list_fmap] in Hk. apply not_elem_of_cons in Hk as [Hk1 Hk].
      destruct (paramplane_gather_item out kv pos Hfull Hpos) as (out1 & E1 & F1 & _ & O1).
      destruct (IH out1 F1 Hk) as (out' & E' & F' & L').
      exists out'. cbn [for_each]. rewrite E1. cbn [bind]. split; [done|]. split; [done|].
      rewrite L'. by apply O1. }
  induction items as [|kv items IH]; intros out Hfull Hnd Hin.
  - by apply elem_of_nil in Hin.
  - cbn [fmap list_fmap] in Hnd. apply NoDup_cons in Hnd as [Hfresh Hnd].
    destruct (paramplane_gather_item out kv pos Hfull Hpos) as (out1 & E1 & F1 & L1 & O1).
    cbn [for_each]. rewrite E1. cbn [bind].
    apply elem_of_cons in Hin as [<-|Hin].
    + cbn [fst snd] in *.
      destruct (Hrest items out1 F1 Hfresh) as (out' & E' & F' & L').
      exists out'. split; [done|]. split; [done|]. by rewrite L', L1.
    + assert (Hne : key <> kv.1).
      { intros ->. apply Hfresh. apply list_elem_of_fmap. by exists (kv.1, v). }
      destruct (IH out1 F1 Hnd Hin) as (out' & E' & F' & L').
      exists out'. split; [done|]. split; [done|]. rewrite L'. by rewrite (O1 key Hne).
Qed.

Lemma paramplane_gather_record res out pos key v :
  full out -> pos < n -> res !! key = Some v ->
  exists out',
    for_each (Paramplane.gather_item zeros_like n pos) out (map_to_list res) = Return out' /\
    full out' /\
    out' !! key = Some (<[pos := v]> (default (replicate n (zeros_like v)) (out !! key))).
Proof.
  intros Hfull Hpos Hv. apply paramplane_gather_items; try done.
  - apply NoDup_fst_map_to_list.
  - by apply elem_of_map_to_list.
Qed.

(** The records of one job, from row [i] on, fill the rows in order. *)
Lemma paramplane_gather_job (records : list (gmap string V)) (vals : list V) key :
  Forall2 (fun r v => r !! key = Some v) records vals ->
  forall i out filled rest,
    full out -> out !! key = Some (filled ++ rest) -> length filled = i ->
    length records <= length rest ->
    exists out',
      for_each (fun out (res : nat * gmap string V) =>
                  for_each (Paramplane.gather_item zeros_like n (0 + res.1)) out
                    (map_to_list res.2))
        out (imap (fun j r => (i + j, r)) records) = Return out' /\
      full out' /\
      out' !! key = Some (filled ++ vals ++ drop (length vals) rest).
Proof.
  induction 1 as [|r v records vals Hv _ IH]; intros i out filled rest Hfull Hkey Hi Hlen.
  - exists out. by rewrite drop_0.
  - rewrite imap_cons. cbn [for_each fst snd]. simpl in Hlen.
    assert (Hn : length (filled ++ rest) = n) by by eapply Hfull.
    rewrite length_app in Hn.
    destruct (paramplane_gather_record r out (0 + (i + 0)) key v) as (out1 & E1 & F1 & L1);
      [done|lia|done|].
    rewrite E1. cbn [bind]. rewrite Hkey in L1. cbn [default from_option] in L1; unfold Datatypes.id in L1.
    destruct rest as [|x rest]; [simpl in Hlen; lia|].
    replace (0 + (i + 0)) with (length filled + 0) in L1 by lia.
    rewrite insert_app_r in L1. cbn [insert list_insert] in L1.
    destruct (IH (S i) out1 (filled ++ [v]) rest) as (out' & E' & F' & L').
    + done.
    + by rewrite <- app_assoc.
    + rewrite length_app. simpl. lia.
    + simpl in Hlen. lia.
    + exists out'. split; [|split; [done|]].
      * rewrite <- E'. f_equal. apply imap_ext. intros j x' _. simpl. f_equal. lia.
      * rewrite L'. by rewrite <- app_assoc.
Qed.

End PlaneGather.

(** With a single job, the default [num_jobs], the reducer of paramplane
    does rebuild the flattening order: the chunk index it adds to the
    record index is 0. *)
Theorem paramplane_single_job_in_order {A V : Type} (zeros_like : V -> V) (X Y : list A)
    (record_of : A * A -> gmap string V) (value_of : A * A -> V) (key : string) :
  X <> [] -> Y <> [] ->
  (forall c, record_of c !! key = Some (value_of c)) ->
  exists out flat,
    Paramplane.build_chunks X Y 1 = Return [Grid.coords_of X Y] /\
    Paramplane.gather zeros_like (length X * length Y)
      [List.map record_of (Grid.coords_of X Y)] = Return out /\
    out !! key = Some flat /\ length flat = length X * length Y /\
    forall i j x y, X !! i = Some x -> Y !! j = Some y ->
      Grid.grid_at (length Y) flat i j = Some (value_of (x, y)).
Proof.
  intros HX HY Hkey.
  set (coords := Grid.coords_of X Y).
  set (n := length X * length Y).
  assert (Hlen : length coords = n) by apply coords_of_length.
  assert (Hn : 0 < n).
  { unfold n. destruct X, Y; simpl; try done; lia. }
  assert (Hb : Paramplane.build_chunks X Y 1 = Return [coords]).
  { destruct (tensor_split_spec coords 1 ltac:(lia)) as (chunks & Hs & Hl & Hcat & _).
    unfold Paramplane.build_chunks. fold coords. rewrite Hs.
    cbn [mbind outcome_bind bind].
    destruct chunks as [|c [|c' chunks]]; simpl in Hl; try lia.
    simpl in Hcat. rewrite app_nil_r in Hcat. by subst c. }
  destruct coords as [|c0 coords'] eqn:Hc; [simpl in Hlen; lia|].
  cbn [List.map].
  unfold Paramplane.gather. cbn [imap for_each fst snd].
  destruct (paramplane_gather_record zeros_like n (record_of c0) ∅ (0 + 0) key (value_of c0))
    as (out1 & E1 & F1 & L1); [done|lia|done|].
  rewrite E1. cbn [bind].
  rewrite lookup_empty in L1. cbn [default from_option] in L1; unfold Datatypes.id in L1.
  destruct n as [|n']; [lia|]. cbn [replicate insert list_insert] in L1.
  destruct (paramplane_gather_job zeros_like (S n') (List.map record_of coords')
              (List.map value_of coords') key) with
    (i := 1) (out := out1) (filled := [value_of c0])
    (rest := replicate n' (zeros_like (value_of c0))) as (out' & E' & F' & L').
  - clear -Hkey. induction coords'; simpl; constructor; auto.
  - done.
  - done.
  - done.
  - rewrite length_map, length_replicate. simpl in Hlen. lia.
  - exists out', (List.map value_of (c0 :: coords')).
    split; [done|]. split.
    { cbn [compose]. erewrite imap_ext; [rewrite E'; done|]. by intros j x' _. }
    split.
    { rewrite L'. f_equal. simpl. f_equal.
      rewrite drop_ge; [by rewrite app_nil_r|].
      rewrite length_map, length_replicate. simpl in Hlen. lia. }
    split; [by rewrite length_map|].
    intros i j x y Hx Hy. unfold Grid.grid_at. rewrite list_lookup_fmap.
    rewrite <- Hc. unfold coords. by rewrite (coords_of_lookup X Y i j x y).
Qed.

Lemma paramplane_single_job_in_order_witness :
  exists out flat,
    Paramplane.build_chunks [0; 1]%Z [0; 1]%Z 1 = Return [Grid.coords_of [0; 1]%Z [0; 1]%Z] /\
    Paramplane.gather (fun _ => 0%Z) (length [0; 1]%Z * length [0; 1]%Z)
      [List.map (fun c : Z * Z => ({[ "id" := (2 * c.1 + c.2 + 1)%Z ]} : gmap string Z))
         (Grid.coords_of [0; 1]%Z [0; 1]%Z)] = Return out /\
    out !! "id" = Some flat /\ length flat = length [0; 1]%Z * length [0; 1]%Z /\
    forall i j x y, [0; 1]%Z !! i = Some x -> [0; 1]%Z !! j = Some y ->
      Grid.grid_at (length [0; 1]%Z) flat i j = Some (2 * (x, y).1 + (x, y).2 + 1)%Z.
Proof.
  apply (paramplane_single_job_in_order (fun _ => 0%Z) [0; 1]%Z [0; 1]%Z
           (fun c => {[ "id" := (2 * c.1 + c.2 + 1)%Z ]})
           (fun c => (2 * c.1 + c.2 + 1)%Z) "id").
  - discriminate.
  - discriminate.
  - intros c. apply lookup_singleton_eq.
Defined.

(** ** dinopl/probing.py: the linear probe and its schedule *)

(** Induction on a module tree, with the hypothesis for every child. *)
Lemma modes_rect_children (Q : Probing.modes -> Prop) :
  (forall flag children, Forall Q children -> Q (Probing.Modes flag children)) ->
  forall m, Q m.
Proof.
  intros Hstep. fix IH 1. intros [flag children]. apply Hstep.
  induction children as [|child children IHc]; constructor; [apply IH|exact IHc].
Qed.


Lemma set_modes_twice (a b : bool) (m : Probing.modes) :
  Probing.set_modes a (Probing.set_modes b m) = Probing.set_modes a m.
Proof.
  induction m as [flag children IH] using modes_rect_children.
  cbn [Probing.set_modes]. f_equal. rewrite List.map_map.
  induction IH as [|child children Hc _ IHc]; [done|]. cbn [List.map]. by rewrite Hc, IHc.
Qed.

Lemma flags_of_set_modes (mode : bool) (m : Probing.modes) :
  Forall (fun t => t = mode) (Probing.flags_of (Probing.set_modes mode m)).
Proof.
  induction m as [flag children IH] using modes_rect_children.
  cbn [Probing.set_modes Probing.flags_of]. constructor; [done|].
  induction IH as [|child children Hc _ IHc]; [constructor|].
  cbn [List.map concat]. by apply Forall_app.
Qed.

(** [train(mode)] changes nothing exactly on a module whose flags, its
    own and those of all its submodules, are [mode] already. *)
Lemma set_modes_fixed (mode : bool) (m : Probing.modes) :
  Probing.set_modes mode m = m <-> Forall (fun t => t = mode) (Probing.flags_of m).
Proof.
  split; [intros <-; apply flags_of_set_modes|].
  induction m as [flag children IH] using modes_rect_children.
  cbn [Probing.set_modes Probing.flags_of]. intros Hall.
  apply Forall_cons in Hall as [-> Hall]. f_equal.
  induction IH as [|child children Hc _ IHc]; [done|].
  cbn [List.map concat] in *. apply Forall_app in Hall as [H1 H2].
  by rewrite Hc, IHc.
Qed.

Section ProbingFacts.
Context {Dev Input Target Emb Clf Opt Acc Loss Num DL Dataset Arg Rng : Type}.
Variable to_input : option Dev -> Input -> Input.
Variable to_target : option Dev -> Target -> Target.
Variable Linear : Z -> Z -> Dev -> Rng -> Clf * Rng.
Variable AdamW : Clf -> Opt.
Variable Accuracy : Dev -> Acc.
Variable clf_train : bool -> Clf -> Clf.
Variable step : Clf -> Opt -> Emb -> Target -> Clf * Opt * Loss.
Variable acc_update : Acc -> Clf -> Emb -> Target -> Acc.
Variable acc_compute : Acc -> Num.
Variable DataLoader : Dataset -> option bool -> gmap string Arg -> DL.
Variable truth : DL -> bool.
Variable iterate : DL -> Rng -> list (Input * Target) * Rng.

Local Abbreviation LinearProbe :=
  (Probing.LinearProbe (Dev := Dev) (Input := Input) (Emb := Emb) (Clf := Clf)
     (Opt := Opt) (Acc := Acc)).
Local Abbreviation LinearProber :=
  (Probing.LinearProber (Dev := Dev) (Input := Input) (Emb := Emb) (Clf := Clf)
     (Opt := Opt) (Acc := Acc) (DL := DL) (Dataset := Dataset) (Arg := Arg)).
Local Abbreviation reset := (Probing.reset (Input := Input) (Emb := Emb) Linear AdamW Accuracy).
Local Abbreviation load_data := (Probing.load_data (Clf := Clf) (Opt := Opt) (Acc := Acc)
                                   to_input to_target iterate).
Local Abbreviation fit := (Probing.fit step).
Local Abbreviation epochs_loop := (Probing.epochs_loop step).
Local Abbreviation train := (Probing.train (Dev := Dev) (Input := Input) (Acc := Acc)
                               clf_train step).
Local Abbreviation valid := (Probing.valid (Dev := Dev) (Input := Input) (Opt := Opt)
                               clf_train acc_update acc_compute).
Local Abbreviation probe_one :=
  (Probing.probe_one to_input to_target Linear AdamW Accuracy clf_train step acc_update
     acc_compute iterate).
Local Abbreviation probe :=
  (Probing.probe to_input to_target Linear AdamW Accuracy clf_train step acc_update
     acc_compute DataLoader truth iterate).
Local Abbreviation on_validation_epoch_end :=
  (Probing.on_validation_epoch_end to_input to_target Linear AdamW Accuracy clf_train step
     acc_update acc_compute DataLoader truth iterate).

Lemma append_loop_map {A B : Type} (f : A -> B) (l : list A) (start : list B) :
  foldl (fun data a => data ++ [f a]) start l = start ++ List.map f l.
Proof.
  revert start. induction l as [|a l IH]; intros start; simpl.
  - by rewrite app_nil_r.
  - by rewrite IH, <- app_assoc.
Qed.

Lemma load_data_closed (dl : DL) (self : LinearProbe) (rng : Rng) :
  load_data dl self rng
  = (Probing.with_encoder
       (Probing.set_train (Probing.training (Probing.encoder self)) (Probing.encoder self))
       self,
     List.map (fun batch => (Probing.forward (Probing.encoder self)
                               (Probing.set_modes false (Probing.flags (Probing.encoder self)))
                               (to_input (Probing.dev self) batch.1),
                             to_target (Probing.dev self) batch.2))
       (iterate dl rng).1,
     (iterate dl rng).2).
Proof.
  unfold Probing.load_data. rewrite append_loop_map.
  destruct self as [[fw fl] ? ? ? ? ? ?].
  unfold Probing.with_encoder, Probing.eval, Probing.set_train, Probing.training, Probing.call.
  cbn [Probing.encoder Probing.flags Probing.forward Probing.dev Probing.embed_dim
         Probing.n_classes Probing.clf Probing.opt Probing.acc app].
  by rewrite set_modes_twice.
Qed.

(** [load_data] returns one pair per batch of the loader, in the
    loader's order, the embedding being the output of the encoder with
    every submodule in evaluation mode. It saves the flag of the encoder
    itself and restores it with [train(mode)], which sets every
    submodule to that flag: the probe is handed back as it was found
    exactly when all submodules of its encoder were in the mode of the
    encoder itself, and otherwise with the submodules moved to that
    mode. Nothing else of the probe changes. *)
Theorem load_data_modes (dl : DL) (self : LinearProbe) (rng : Rng) :
  (load_data dl self rng).1.2
  = List.map (fun batch => (Probing.forward (Probing.encoder self)
                              (Probing.set_modes false (Probing.flags (Probing.encoder self)))
                              (to_input (Probing.dev self) batch.1),
                            to_target (Probing.dev self) batch.2))
      (iterate dl rng).1 /\
  (load_data dl self rng).2 = (iterate dl rng).2 /\
  (load_data dl self rng).1.1
  = Probing.with_encoder
      {| Probing.forward := Probing.forward (Probing.encoder self);
         Probing.flags := Probing.set_modes (Probing.training (Probing.encoder self))
                            (Probing.flags (Probing.encoder self)) |} self /\
  ((load_data dl self rng).1.1 = self
   <-> Forall (fun t => t = Probing.training (Probing.encoder self))
         (Probing.flags_of (Probing.flags (Probing.encoder self)))).
Proof.
  rewrite load_data_closed. cbn [fst snd]. split; [done|]. split; [done|]. split; [done|].
  rewrite <- set_modes_fixed. destruct self as [[fw fl] ? ? ? ? ? ?].
  unfold Probing.with_encoder, Probing.set_train, Probing.training.
  cbn [Probing.encoder Probing.flags Probing.forward Probing.dev Probing.embed_dim
         Probing.n_classes Probing.clf Probing.opt Probing.acc].
  split; [by intros [= Hfl]|by intros ->].
Qed.

(** The steps of the inner loop on a probe that has its optimizer. *)
Lemma sweep_closed (train_data : list (Emb * Target)) (c : Clf) (o : Opt)
    (loss : option Loss) :
  exists c' o' loss',
    Probing.for_each fit (c, Some o, loss) train_data = Probing.Ok (c', Some o', loss') /\
    foldl (fun st pair => (step st.1 st.2 pair.1 pair.2).1) (c, o) train_data = (c', o') /\
    (train_data <> [] -> is_Some loss') /\ (train_data = [] -> loss' = loss).
Proof.
  revert c o loss. induction train_data as [|pair train_data IH]; intros c o loss.
  - exists c, o, loss. by repeat split.
  - cbn [Probing.for_each Probing.fit fst snd mbind Probing.result_bind foldl].
    destruct (IH (step c o pair.1 pair.2).1.1 (step c o pair.1 pair.2).1.2
                (Some (step c o pair.1 pair.2).2)) as (c' & o' & loss' & H1 & H2 & H3 & H4).
    exists c', o', loss'. split; [done|]. split.
    { rewrite <- H2. by destruct (step c o pair.1 pair.2) as [[? ?] ?]. }
    split; [|done]. intros _. destruct train_data as [|p l]; [|by apply H3].
    rewrite H4 by done. by eexists.
Qed.

Lemma epochs_loop_closed (n : nat) (train_data : list (Emb * Target)) (c : Clf) (o : Opt)
    (loss : option Loss) :
  train_data <> [] ->
  exists c' o' loss',
    epochs_loop n train_data (c, Some o, loss) = Probing.Ok (c', Some o', loss') /\
    foldl (fun st pair => (step st.1 st.2 pair.1 pair.2).1) (c, o)
      (concat (replicate n train_data)) = (c', o').
Proof.
  intros Hne. revert c o loss. induction n as [|n IH]; intros c o loss.
  - by exists c, o, loss.
  - cbn [Probing.epochs_loop replicate concat].
    destruct (sweep_closed train_data c o loss) as (c1 & o1 & l1 & H1 & H2 & H3 & _).
    rewrite H1. cbn [mbind Probing.result_bind snd].
    destruct (H3 Hne) as (l & ->).
    destruct (IH c1 o1 (Some l)) as (c' & o' & loss' & E1 & E2).
    exists c', o', loss'. split; [done|]. by rewrite foldl_app, H2.
Qed.

(** [train]: on a probe that has not been reset it fails at once on the
    classifier that is still [None]; on a reset probe it does nothing
    but switch the classifier to training mode when [epochs] is not
    positive, fails with UnboundLocalError on [loss] when there is an
    epoch to run but no data, and otherwise takes the optimisation
    steps of [epochs] sweeps over the data, in order. *)
Theorem train_outcomes (epochs : Z) (train_data : list (Emb * Target)) (self : LinearProbe) :
  (Probing.clf self = None ->
   train epochs train_data self = Probing.Err Probing.AttributeError) /\
  (forall c o, Probing.clf self = Some c -> Probing.opt self = Some o ->
     ((epochs <= 0)%Z ->
      train epochs train_data self
      = Probing.Ok {| Probing.encoder := Probing.encoder self;
                      Probing.embed_dim := Probing.embed_dim self;
                      Probing.n_classes := Probing.n_classes self;
                      Probing.dev := Probing.dev self;
                      Probing.clf := Some (clf_train true c);
                      Probing.opt := Some o; Probing.acc := Probing.acc self |}) /\
     ((0 < epochs)%Z -> train_data = [] ->
      train epochs train_data self = Probing.Err (Probing.UnboundLocalError "loss")) /\
     ((0 < epochs)%Z -> train_data <> [] ->
      train epochs train_data self
      = Probing.Ok {| Probing.encoder := Probing.encoder self;
                      Probing.embed_dim := Probing.embed_dim self;
                      Probing.n_classes := Probing.n_classes self;
                      Probing.dev := Probing.dev self;
                      Probing.clf :=
                        Some (foldl (fun st pair => (step st.1 st.2 pair.1 pair.2).1)
                                (clf_train true c, o)
                                (concat (replicate (Z.to_nat epochs) train_data))).1;
                      Probing.opt :=
                        Some (foldl (fun st pair => (step st.1 st.2 pair.1 pair.2).1)
                                (clf_train true c, o)
                                (concat (replicate (Z.to_nat epochs) train_data))).2;
                      Probing.acc := Probing.acc self |})).
Proof.
  split.
  { intros Hc. unfold Probing.train. by rewrite Hc. }
  intros c o Hc Ho. unfold Probing.train. rewrite Hc, Ho. split; [|split].
  - intros He. replace (Z.to_nat epochs) with 0 by lia. reflexivity.
  - intros He ->. destruct (Z.to_nat epochs) as [|n] eqn:Hn; [lia|]. reflexivity.
  - intros He Hne.
    destruct (epochs_loop_closed (Z.to_nat epochs) train_data (clf_train true c) o None Hne)
      as (c' & o' & loss' & H1 & H2).
    rewrite H1, H2. reflexivity.
Qed.

(** *** The prober *)









(** The schedule of [on_validation_epoch_end]: with [probe_every] zero
    the modulo raises ZeroDivisionError at every epoch, the last one
    included; otherwise the prober probes, and logs the result, once,
    exactly when [probe_every] divides the epoch (whatever its sign, and
    so always at epoch 0) or the epoch is the last one, and does nothing
    at any other epoch. *)
Theorem probing_schedule (current_epoch max_epochs : Z) (device : Dev) (self : LinearProber)
    (logged : list (list (string * Num))) (rng : Rng) :
  (Probing.probe_every self = 0%Z ->
   on_validation_epoch_end current_epoch max_epochs device self logged rng
   = Probing.Err Probing.ZeroDivisionError) /\
  (Probing.probe_every self <> 0%Z ->
   ((Probing.probe_every self | current_epoch)%Z \/ current_epoch = (max_epochs - 1)%Z ->
    on_validation_epoch_end current_epoch max_epochs device self logged rng
    = out ← probe device self rng; Probing.Ok (out.1.1, logged ++ [out.1.2], out.2)) /\
   (~ (Probing.probe_every self | current_epoch)%Z -> current_epoch <> (max_epochs - 1)%Z ->
    on_validation_epoch_end current_epoch max_epochs device self logged rng
    = Probing.Ok (self, logged, rng))).
Proof.
  unfold Probing.on_validation_epoch_end, Probing.py_mod. split; intros Hk.
  - rewrite (decide_True (P := Probing.probe_every self = 0%Z)) by done. reflexivity.
  - rewrite (decide_False (P := Probing.probe_every self = 0%Z)) by done.
    cbn [mbind Probing.result_bind].
    pose proof (Z.mod_divide current_epoch _ Hk) as Hdiv.
    split; [intros Hs|intros Hn Hl]; repeat case_decide; try done; tauto.
Qed.

End ProbingFacts.

Section ProbingWitness.

(** A prober over integers with two probes; the encoder of the first is
    in training mode and has a submodule in evaluation mode. *)
Local Abbreviation example_prober :=
  (Probing.prober_init (Dev := unit) (Input := Z) (Emb := Z) (Clf := Z) (Opt := Z) (Acc := Z)
     (DL := list (Z * Z)) (Dataset := list (Z * Z)) (Arg := Z) 1 1
     [("student",
       Probing.__init__
         {| Probing.forward := fun _ x => x;
            Probing.flags := Probing.Modes true [Probing.Modes false []] |} 2 3);
      ("teacher",
       Probing.__init__
         {| Probing.forward := fun _ x => (x + 1)%Z;
            Probing.flags := Probing.Modes false [] |} 2 3)]
     [(1, 2)%Z] [(3, 4)%Z] ∅).
Local Abbreviation example_probe :=
  (Probing.probe (Dev := unit) (Input := Z) (Target := Z) (Emb := Z) (Clf := Z) (Opt := Z)
     (Acc := Z) (Loss := Z) (Num := Z) (DL := list (Z * Z)) (Dataset := list (Z * Z))
     (Arg := Z) (Rng := nat)
     (fun _ x => x) (fun _ t => t) (fun a b _ rng => ((a + b)%Z, S rng)) (fun c => c)
     (fun _ => 0%Z) (fun _ c => c) (fun c o e _ => ((c + 1)%Z, o, e))
     (fun a _ _ _ => (a + 1)%Z) (fun a => a) (fun dataset _ _ => dataset)
     (fun dl => bool_decide (dl <> [])) (fun dl rng => (dl, rng))).


End ProbingWitness.
